(** * cc-mirror State Bridge optimizer: scoring metrics, model adapters,
      reflection LM and evolution driver

    A shallow embedding of [optimizer/skill_metrics.py],
    [optimizer/skill_adapters.py], the parts of [optimizer/optimize.py]
    that decide what is read, reported and written, and the loaders of
    [optimizer/example_loader.py].

    Conventions.
    - A Python [str] is a [string]; its characters are the code points
      U+0000..U+00FF, and the character tables below ([isspace], [isword],
      [lower]) are the ones CPython uses on that range.  The three glyphs the
      metrics put in front of a feedback line lie outside the range; they are
      kept as their UTF-8 bytes and nothing inspects them.
    - A Python [float] is a binary64 [float]; [sum] adds from the left,
      starting from the integer 0, and the compensated summation of later
      CPython versions gives the same sums on the lists the metrics build
      ([sum_either_way]).
    - A regular expression is a value of [regex], transcribed from the pattern
      string, and is run by a backtracking matcher with the search order of
      Python's [re].
    - The external process is a function from the argument vector to an
      outcome: either the captured standard output or a raised exception.
    - The files the program reads are a function from paths to what they
      name: a file with its text, or a directory with its listing.  Paths
      are strings in the form [pathlib] prints them, and a name joined to a
      path is a single component.  What the program writes is a log of
      events. *)

From Stdlib Require Import Bool Arith NArith ZArith Lia List Ascii String.
From Stdlib Require Import QArith Qabs.
From Stdlib Require Import DecimalString PrimFloat Uint63 FloatOps SpecFloat.
Import ListNotations.
Close Scope Q_scope.
Open Scope nat_scope.
Open Scope string_scope.
Set Warnings "-inexact-float".

(** ** Characters and strings *)

Definition code (c : ascii) : N := N_of_ascii c.

Definition in_range (lo hi : N) (c : ascii) : bool :=
  (lo <=? code c)%N && (code c <=? hi)%N.

Definition is_code (n : N) (c : ascii) : bool := (code c =? n)%N.

(** [str.isspace] on one character, and the class [\s] of [re]. *)
Definition isspace (c : ascii) : bool :=
  in_range 9 13 c || in_range 28 32 c || is_code 133 c || is_code 160 c.

(** The class [\w] of [re]: [str.isalnum] or the underscore. *)
Definition isword (c : ascii) : bool :=
  in_range 48 57 c || in_range 65 90 c || in_range 97 122 c || is_code 95 c
  || is_code 170 c || in_range 178 179 c || is_code 181 c
  || in_range 185 186 c || in_range 188 190 c
  || in_range 192 214 c || in_range 216 246 c || in_range 248 255 c.

(** [str.lower] on one character. *)
Definition lower (c : ascii) : ascii :=
  if in_range 65 90 c || (in_range 192 222 c && negb (is_code 215 c))
  then ascii_of_N (code c + 32)
  else c.

Definition nl : ascii := "010"%char.
Definition NL : string := String nl "".

Fixpoint str_lower (s : string) : string :=
  match s with
  | "" => ""
  | String c s' => String (lower c) (str_lower s')
  end.

Definition is_empty (s : string) : bool :=
  match s with "" => true | _ => false end.

Fixpoint lstrip (s : string) : string :=
  match s with
  | "" => ""
  | String c s' => if isspace c then lstrip s' else s
  end.

Fixpoint rstrip (s : string) : string :=
  match s with
  | "" => ""
  | String c s' =>
      let r := rstrip s' in
      if isspace c && is_empty r then "" else String c r
  end.

(** [s.strip()] *)
Definition strip (s : string) : string := rstrip (lstrip s).

(** [sub in s] *)
Fixpoint str_in (sub s : string) : bool :=
  prefix sub s ||
  match s with
  | "" => false
  | String _ s' => str_in sub s'
  end.

(** [s[:n]] *)
Fixpoint str_take (n : nat) (s : string) : string :=
  match n, s with
  | S n', String c s' => String c (str_take n' s')
  | _, _ => ""
  end.

(** [s[n:]] *)
Fixpoint str_drop (n : nat) (s : string) : string :=
  match n, s with
  | S n', String _ s' => str_drop n' s'
  | _, _ => s
  end.

(** [str(n)] for a non-negative [int]. *)
Definition str_of_nat (n : nat) : string :=
  NilZero.string_of_uint (Nat.to_uint n).

(** Every character of the string is white space. *)
Fixpoint all_space (s : string) : bool :=
  match s with
  | "" => true
  | String c s' => isspace c && all_space s'
  end.

(** ** Floats *)

(** [sum(xs)]: the accumulator starts as the integer 0. *)
Definition py_sum (xs : list float) : float :=
  fold_left PrimFloat.add xs 0%float.

(** [float(len(xs))] *)
Definition py_len (xs : list float) : float :=
  PrimFloat.of_uint63 (Uint63.of_Z (Z.of_nat (List.length xs))).

(** [sum(xs)] as CPython computes it from version 3.12 on: the first item is
    added to the integer 0, the others with Neumaier's compensation, which
    is added at the end when it is finite and not zero. *)
Fixpoint neumaier (xs : list float) (f_result c : float) : float :=
  match xs with
  | [] =>
      if negb (PrimFloat.eqb c 0) && negb (is_nan c) && negb (is_infinity c)
      then (f_result + c)%float
      else f_result
  | x :: xs' =>
      let t := (f_result + x)%float in
      let c' :=
        if (abs x <=? abs f_result)%float
        then (c + ((f_result - t) + x))%float
        else (c + ((x - t) + f_result))%float in
      neumaier xs' t c'
  end.

Definition py_sum_compensated (xs : list float) : float :=
  match xs with
  | [] => 0%float
  | x :: xs' => neumaier xs' (0 + x)%float 0%float
  end.

(** The rational number a finite float stands for. *)
Definition Q_of_float (f : float) : Q :=
  match Prim2SF f with
  | S754_finite s m e =>
      (inject_Z (if s then Z.neg m else Z.pos m) * (2 ^ e))%Q
  | _ => 0%Q
  end.

(** The float is within [2^-54] of the rational. *)
Definition rounds (f : float) (q : Q) : bool :=
  Qle_bool (Qabs (Q_of_float f - q)) (1 # 18014398509481984).

(** ** Regular expressions

    The fragment of Python's [re] the repository uses.  Repetition is only
    ever applied to a one-character class, so [Star] and [StarLazy] carry a
    class; [x+] is [x] followed by [x*], and [x?] is the alternative of [x]
    and the empty pattern, tried in that order. *)

Inductive cls : Type :=
| CAny                         (* .      *)
| CSpace                       (* \s     *)
| CWord                        (* \w     *)
| CChar (a : ascii)            (* a literal character *)
| COneOf (l : list ascii)      (* [...]  of literal characters *)
| CNoneOf (l : list ascii).    (* [^...] of literal characters *)

Inductive regex : Type :=
| Eps
| One (k : cls)
| Seq (r1 r2 : regex)
| Alt (r1 r2 : regex)
| Star (k : cls)               (* k*   *)
| StarLazy (k : cls)           (* k*?  *)
| Grp (n : nat) (r : regex)    (* the n-th capturing group *)
| Bol                          (* ^    *)
| Eos                          (* $    *)
| Ahead (r : regex).           (* (?=r) *)

Record flags : Type := Flags {
  IGNORECASE : bool;
  MULTILINE : bool;
  DOTALL : bool
}.

Definition no_flags : flags := Flags false false false.

(** A literal word. *)
Fixpoint lit (w : string) : regex :=
  match w with
  | "" => Eps
  | String c "" => One (CChar c)
  | String c w' => Seq (One (CChar c)) (lit w')
  end.

Definition Plus (k : cls) : regex := Seq (One k) (Star k).
Definition Opt (r : regex) : regex := Alt r Eps.

Fixpoint alts (rs : list regex) : regex :=
  match rs with
  | [] => Eps
  | [r] => r
  | r :: rs' => Alt r (alts rs')
  end.

Fixpoint seqs (rs : list regex) : regex :=
  match rs with
  | [] => Eps
  | [r] => r
  | r :: rs' => Seq r (seqs rs')
  end.

Section Matcher.
Variable fl : flags.

Definition chr_match (a c : ascii) : bool :=
  if IGNORECASE fl then Ascii.eqb (lower c) (lower a) else Ascii.eqb c a.

Definition cls_match (k : cls) (c : ascii) : bool :=
  match k with
  | CAny => DOTALL fl || negb (Ascii.eqb c nl)
  | CSpace => isspace c
  | CWord => isword c
  | CChar a => chr_match a c
  | COneOf l => existsb (fun a => chr_match a c) l
  | CNoneOf l => negb (existsb (fun a => chr_match a c) l)
  end.

(** The groups closed so far, latest first: number and captured text. *)
Definition caps : Type := list (nat * string).

(** A continuation receives the character before the cursor (if any),
    the rest of the subject and the groups; it answers with the rest of
    the subject after the whole match, and the groups. *)
Definition cont : Type :=
  option ascii -> string -> caps -> option (string * caps).

Definition at_bol (p : option ascii) : bool :=
  match p with
  | None => true
  | Some c => MULTILINE fl && Ascii.eqb c nl
  end.

Definition at_eos (s : string) : bool :=
  match s with
  | "" => true
  | String c s' =>
      Ascii.eqb c nl && (MULTILINE fl || is_empty s')
  end.

(** The text between a cursor with [s] ahead and a later one with [s']
    ahead. *)
Definition consumed (s s' : string) : string :=
  str_take (String.length s - String.length s') s.

(** [k*]: as many characters as possible first, then fewer. *)
Fixpoint star (k : cls) (p : option ascii) (s : string)
         (g : caps) (kont : cont) : option (string * caps) :=
  match s with
  | String c s' =>
      if cls_match k c then
        match star k (Some c) s' g kont with
        | Some res => Some res
        | None => kont p s g
        end
      else kont p s g
  | "" => kont p s g
  end.

(** [k*?]: as few characters as possible first, then more. *)
Fixpoint star_lazy (k : cls) (p : option ascii) (s : string)
         (g : caps) (kont : cont) : option (string * caps) :=
  match kont p s g with
  | Some res => Some res
  | None =>
      match s with
      | String c s' =>
          if cls_match k c then star_lazy k (Some c) s' g kont
          else None
      | "" => None
      end
  end.

Definition done : cont := fun _ s g => Some (s, g).

Fixpoint exec (r : regex) (p : option ascii) (s : string)
         (g : caps) (kont : cont) : option (string * caps) :=
  match r with
  | Eps => kont p s g
  | One k =>
      match s with
      | String c s' => if cls_match k c then kont (Some c) s' g else None
      | "" => None
      end
  | Seq r1 r2 =>
      exec r1 p s g (fun p' s' g' => exec r2 p' s' g' kont)
  | Alt r1 r2 =>
      match exec r1 p s g kont with
      | Some res => Some res
      | None => exec r2 p s g kont
      end
  | Star k => star k p s g kont
  | StarLazy k => star_lazy k p s g kont
  | Grp n r1 =>
      exec r1 p s g (fun p' s' g' => kont p' s' ((n, consumed s s') :: g'))
  | Bol => if at_bol p then kont p s g else None
  | Eos => if at_eos s then kont p s g else None
  | Ahead r1 =>
      match exec r1 p s g done with
      | Some (_, g') => kont p s g'
      | None => None
      end
  end.

(** A match object: where the match starts, its text and its groups. *)
Record rmatch : Type := RMatch {
  m_start : nat;
  m_text : string;
  m_groups : caps
}.

(** The pattern matched with the cursor at position [i]. *)
Definition match_at (r : regex) (i : nat) (p : option ascii) (s : string)
  : option rmatch :=
  match exec r p s [] done with
  | Some (s', g) => Some (RMatch i (consumed s s') g)
  | None => None
  end.

(** Leftmost match at or after the cursor. *)
Fixpoint search_from (r : regex) (i : nat) (p : option ascii) (s : string)
  : option rmatch :=
  match match_at r i p s with
  | Some m => Some m
  | None =>
      match s with
      | "" => None
      | String c s' => search_from r (S i) (Some c) s'
      end
  end.

(** All non-overlapping matches, left to right.  [skip] counts the
    positions still covered by the previous match. *)
Fixpoint finditer_from (r : regex) (skip : nat) (i : nat)
         (p : option ascii) (s : string) : list rmatch :=
  let here := match skip with 0 => match_at r i p s | S _ => None end in
  match here, s with
  | Some m, "" => [m]
  | Some m, String c s' =>
      m :: finditer_from r (String.length (m_text m) - 1) (S i) (Some c) s'
  | None, "" => []
  | None, String c s' => finditer_from r (skip - 1) (S i) (Some c) s'
  end.
End Matcher.

(** The [re] module's entry points, on a transcribed pattern. *)

Definition re_search (r : regex) (s : string) (fl : flags) : option rmatch :=
  search_from fl r 0 None s.

(** [bool(m)] for [m] a match object or [None]. *)
Definition truthy {A : Type} (m : option A) : bool :=
  match m with Some _ => true | None => false end.

Fixpoint cap_lookup (n : nat) (g : caps) : option string :=
  match g with
  | [] => None
  | (n', txt) :: g' => if Nat.eqb n n' then Some txt else cap_lookup n g'
  end.

(** [m.group(0)] *)
Definition group0 (m : rmatch) : string := m_text m.

(** [m.group(n)] for a group that took part in the match. *)
Definition group (n : nat) (m : rmatch) : string :=
  match cap_lookup n (m_groups m) with
  | Some txt => txt
  | None => ""
  end.

(** [re.findall] for a pattern with exactly one group. *)
Definition re_findall (r : regex) (s : string) (fl : flags) : list string :=
  map (group 1) (finditer_from fl r 0 0 None s).

(** ** Predictions and scores *)

Record Prediction : Type := mkPrediction {
  code_output : string;
  doc_output : option string;
  reasoning : string
}.

(** The [Score] object: a float that carries a feedback attribute. *)
Record Score : Type := mkScore {
  score : float;
  feedback : string
}.

(** [xs.append(x)], as a new list. *)
Definition append {A : Type} (xs : list A) (x : A) : list A := (xs ++ [x])%list.

(** [sum(1 for kw in kws if test(kw))] *)
Definition count_if (test : string -> bool) (kws : list string) : nat :=
  List.length (filter test kws).

Definition glyph_ok : string := "✓".
Definition glyph_soft : string := "△".
Definition glyph_miss : string := "✗".

(** [sum(checks) / len(checks) if checks else 0.0] *)
Definition mean_of (checks : list float) : float :=
  match checks with
  | [] => 0.0%float
  | _ => (py_sum checks / py_len checks)%float
  end.

(** The first test of both metrics: [not code or not code.strip()]. *)
Definition no_content (code : string) : bool :=
  is_empty code || is_empty (strip code).

(** ** skill_metrics.py *)

Module TypeScriptMetric.

Definition _score_result (sc : float) (fb : string) : Score := mkScore sc fb.

Definition ts_keywords : list string :=
  ["interface"; "type"; "export"; "import"; "async"; "await"; "Promise"].

(** [(function\s+\w+|const\s+\w+\s*=\s*async?\s*\(|class\s+\w+)] *)
Definition functions_re : regex :=
  Grp 1 (alts
    [ seqs [lit "function"; Plus CSpace; Plus CWord];
      seqs [lit "const"; Plus CSpace; Plus CWord; Star CSpace; lit "=";
            Star CSpace; lit "asyn"; Opt (lit "c"); Star CSpace; lit "("];
      seqs [lit "class"; Plus CSpace; Plus CWord] ]).

(** [(try\s*\{|catch\s*\(|Error|throw\s+new)] *)
Definition error_handling_re : regex :=
  Grp 1 (alts
    [ seqs [lit "try"; Star CSpace; lit "{"];
      seqs [lit "catch"; Star CSpace; lit "("];
      lit "Error";
      seqs [lit "throw"; Plus CSpace; lit "new"] ]).

(** [export\s+(default\s+)?(function|const|class|interface|type)] *)
Definition exports_re : regex :=
  seqs [ lit "export"; Plus CSpace;
         Opt (Grp 1 (Seq (lit "default") (Plus CSpace)));
         Grp 2 (alts [lit "function"; lit "const"; lit "class";
                      lit "interface"; lit "type"]) ].

Definition keyword_count (code : string) : nat :=
  count_if (fun kw => str_in kw code) ts_keywords.

Definition has_ts_syntax (code : string) : bool := (2 <=? keyword_count code)%nat.

Definition has_functions (code : string) : bool :=
  truthy (re_search functions_re code no_flags).

Definition has_error_handling (code : string) : bool :=
  truthy (re_search error_handling_re code no_flags).

Definition has_exports (code : string) : bool :=
  truthy (re_search exports_re code no_flags).

(** The two lists [checks] and [feedback] after the four checks. *)
Definition run_checks (code : string) : list float * list string :=
  let checks := [] in
  let feedback := [] in
  (* Check 1 *)
  let checks := append checks (if has_ts_syntax code then 1.0 else 0.3)%float in
  let feedback := append feedback
    ((if has_ts_syntax code then glyph_ok else glyph_soft)
     ++ " TypeScript keywords: " ++ str_of_nat (keyword_count code)) in
  (* Check 2 *)
  let checks := append checks (if has_functions code then 1.0 else 0.0)%float in
  let feedback := append feedback
    ((if has_functions code then glyph_ok else glyph_miss)
     ++ " Functions/classes found") in
  (* Check 3 *)
  let checks := append checks (if has_error_handling code then 1.0 else 0.5)%float in
  let feedback := append feedback
    ((if has_error_handling code then glyph_ok else glyph_soft)
     ++ " Error handling: "
     ++ (if has_error_handling code then "found" else "missing")) in
  (* Check 4 *)
  let checks := append checks (if has_exports code then 1.0 else 0.5)%float in
  let feedback := append feedback
    ((if has_exports code then glyph_ok else glyph_soft)
     ++ " Exports: " ++ (if has_exports code then "found" else "missing")) in
  (checks, feedback).

(** [TypeScriptMetric.__call__]; the example and the trace are not read. *)
Definition call (prediction : Prediction) : Score :=
  let code := code_output prediction in
  if no_content code then _score_result 0.0 "No content generated"
  else
    let '(checks, feedback) := run_checks code in
    _score_result (mean_of checks) (concat NL feedback).

End TypeScriptMetric.

Module TestDocMetric.

Definition _score_result (sc : float) (fb : string) : Score := mkScore sc fb.

Definition test_keywords : list string :=
  ["test"; "verify"; "check"; "assert"; "expect"; "mock";
   "fixture"; "coverage"; "edge case"; "error"; "should"].

(** [(describe\s*\(|it\s*\(|test\s*\(|Given|When|Then|beforeEach|afterEach)] *)
Definition test_structure_re : regex :=
  Grp 1 (alts
    [ seqs [lit "describe"; Star CSpace; lit "("];
      seqs [lit "it"; Star CSpace; lit "("];
      seqs [lit "test"; Star CSpace; lit "("];
      lit "Given"; lit "When"; lit "Then"; lit "beforeEach"; lit "afterEach" ]).

(** [^#+\s+\w] *)
Definition headers_re : regex :=
  seqs [Bol; Plus (CChar "#"); Plus CSpace; One CWord].

(** [(^[\s]*[-*]\s+\w|```)] *)
Definition structure_re : regex :=
  Grp 1 (alts
    [ seqs [Bol; Star CSpace; One (COneOf ["-"; "*"]%char); Plus CSpace;
            One CWord];
      lit "```" ]).

Definition keyword_count (code : string) : nat :=
  count_if (fun kw => str_in (str_lower kw) (str_lower code)) test_keywords.

Definition has_test_structure (code : string) : bool :=
  truthy (re_search test_structure_re code (Flags true false false)).

Definition has_test_content (code : string) : bool := (3 <=? keyword_count code)%nat.

Definition has_headers (code : string) : bool :=
  truthy (re_search headers_re code (Flags false true false)).

Definition has_structure (code : string) : bool :=
  truthy (re_search structure_re code (Flags false true false)).

Definition run_checks (code : string) : list float * list string :=
  let checks := [] in
  let feedback := [] in
  (* Check 1 *)
  let checks := append checks (if has_test_structure code then 1.0 else 0.0)%float in
  let feedback := append feedback
    ((if has_test_structure code then glyph_ok else glyph_miss)
     ++ " Test structure found") in
  (* Check 2 *)
  let checks := append checks (if has_test_content code then 1.0 else 0.5)%float in
  let feedback := append feedback
    ((if has_test_content code then glyph_ok else glyph_soft)
     ++ " Test keywords: " ++ str_of_nat (keyword_count code)) in
  (* Check 3 *)
  let checks := append checks (if has_headers code then 1.0 else 0.5)%float in
  let feedback := append feedback
    ((if has_headers code then glyph_ok else glyph_soft)
     ++ " Headers: " ++ (if has_headers code then "found" else "none")) in
  (* Check 4 *)
  let checks := append checks (if has_structure code then 1.0 else 0.5)%float in
  let feedback := append feedback
    ((if has_structure code then glyph_ok else glyph_soft)
     ++ " Lists/code blocks: "
     ++ (if has_structure code then "found" else "none")) in
  (checks, feedback).

(** [TestDocMetric.__call__] *)
Definition call (prediction : Prediction) : Score :=
  let code := code_output prediction in
  if no_content code then _score_result 0.0 "No content generated"
  else
    let '(checks, feedback) := run_checks code in
    _score_result (mean_of checks) (concat NL feedback).

End TestDocMetric.

Inductive metric : Type := TypeScript | TestDoc.

(** [get_metric_for_skill] *)
Definition get_metric_for_skill (skill_name : string) : metric :=
  if String.eqb skill_name "backend-engineer" then TypeScript
  else if String.eqb skill_name "qa-engineer" then TestDoc
  else TypeScript.

Definition metric_call (m : metric) : Prediction -> Score :=
  match m with
  | TypeScript => TypeScriptMetric.call
  | TestDoc => TestDocMetric.call
  end.

(** ** Exceptions and the external process *)

(** An instance of [Exception] or of one of its subclasses: the class name
    and [str(e)]. *)
Inductive exn : Type := Exception (class_name : string) (message : string).

Definition str_exn (e : exn) : string :=
  match e with Exception _ m => m end.

(** A computation that returns a value or raises. *)
Inductive res (A : Type) : Type :=
| Ret (a : A)
| Raise (e : exn).
Arguments Ret {A} a.
Arguments Raise {A} e.

Definition bind {A B : Type} (m : res A) (f : A -> res B) : res B :=
  match m with
  | Ret a => f a
  | Raise e => Raise e
  end.

(** [try: body except Exception as e: handler(e)] *)
Definition try_except {A : Type} (body : res A) (handler : exn -> res A) : res A :=
  match body with
  | Ret a => Ret a
  | Raise e => handler e
  end.

Notation "x <- m ;; f" := (bind m (fun x => f))
  (at level 61, m at next level, right associativity).

(** What [subprocess.run(..., capture_output=True, text=True)] returns. *)
Record CompletedProcess : Type := mkCompleted {
  stdout : string;
  stderr : string
}.

(** The external text-generation process: from the argument vector to what
    the call returns or raises (a missing binary, a timeout, ...). *)
Definition process : Type := list string -> res CompletedProcess.

(** ** skill_adapters.py *)

(** The fields of an adapter the methods read; [instructions] is
    [self.predictor.signature.instructions]. *)
Record Adapter : Type := mkAdapter {
  gemini_binary : string;
  demos : list string;
  instructions : string
}.

(** [r'## Reasoning\n(.*?)(?=##|$)'] *)
Definition reasoning_re : regex :=
  seqs [lit "## Reasoning"; One (CChar nl); Grp 1 (StarLazy CAny);
        Ahead (Alt (lit "##") Eos)].

(** [_extract_reasoning], the same in both adapters. *)
Definition _extract_reasoning (out : string) : string :=
  match re_search reasoning_re out (Flags false false true) with
  | Some m => strip (group 1 m)
  | None => ""
  end.

(** ["\n\n# Golden Examples\n" + "\n---\n".join(self.demos[:2])], or
    nothing without demos. *)
Definition demos_text (ds : list string) : string :=
  match ds with
  | [] => ""
  | _ => NL ++ NL ++ "# Golden Examples" ++ NL
         ++ concat (NL ++ "---" ++ NL) (firstn 2 ds)
  end.

Module TypeScriptCodeAdapter.

Definition _prepare_prompt (self : Adapter) (story_context tech_stack : string)
  : string :=
  "# Instructions" ++ NL
  ++ instructions self ++ NL
  ++ NL
  ++ "# Technology Stack" ++ NL
  ++ tech_stack ++ NL
  ++ demos_text (demos self) ++ NL
  ++ NL
  ++ "# Task" ++ NL
  ++ story_context ++ NL
  ++ NL
  ++ "# Expected Output" ++ NL
  ++ "TypeScript code implementing the requirements:" ++ NL
  ++ "- Proper interfaces and types" ++ NL
  ++ "- Error handling with typed errors" ++ NL
  ++ "- Jest test stubs where appropriate" ++ NL
  ++ "- JSDoc comments for public APIs" ++ NL.

(** [r'```(?:typescript|ts|javascript|js)?\n(.*?)```'] *)
Definition code_block_re : regex :=
  seqs [lit "```";
        Opt (alts [lit "typescript"; lit "ts"; lit "javascript"; lit "js"]);
        One (CChar nl); Grp 1 (StarLazy CAny); lit "```"].

Definition _extract_code (out : string) : string :=
  let code_blocks := re_findall code_block_re out (Flags false false true) in
  match code_blocks with
  | [] => out
  | _ => concat (NL ++ NL) code_blocks
  end.

(** [forward]; the rollout id it generates first is never used. *)
Definition forward (run : process) (self : Adapter)
           (story_context tech_stack : string) : res Prediction :=
  let prompt := _prepare_prompt self story_context tech_stack in
  try_except
    (result <- run [gemini_binary self; "-p"; prompt] ;;
     let code_output := _extract_code (stdout result) in
     Ret (mkPrediction code_output None (_extract_reasoning (stdout result))))
    (fun e => Ret (mkPrediction "" None ("Error: " ++ str_exn e))).

End TypeScriptCodeAdapter.

Module TestDocAdapter.

Definition _prepare_prompt (self : Adapter) (story_context : string) : string :=
  "# Instructions" ++ NL
  ++ instructions self ++ NL
  ++ demos_text (demos self) ++ NL
  ++ NL
  ++ "# Task" ++ NL
  ++ story_context ++ NL
  ++ NL
  ++ "# Expected Output" ++ NL
  ++ "Test documentation with:" ++ NL
  ++ "- Test suite structure (describe/it blocks)" ++ NL
  ++ "- Given/When/Then format for test cases" ++ NL
  ++ "- Coverage targets and edge cases" ++ NL
  ++ "- Jest test examples where appropriate" ++ NL.

(** [forward]; the [tech_stack] argument is not read. *)
Definition forward (run : process) (self : Adapter)
           (story_context tech_stack : string) : res Prediction :=
  let prompt := _prepare_prompt self story_context in
  try_except
    (result <- run [gemini_binary self; "-p"; prompt] ;;
     let doc_output := stdout result in
     Ret (mkPrediction doc_output (Some doc_output)
                       (_extract_reasoning (stdout result))))
    (fun e => Ret (mkPrediction "" (Some "") ("Error: " ++ str_exn e))).

End TestDocAdapter.

Inductive adapter_kind : Type := TypeScriptCode | TestDocumentation.

(** [get_adapter_for_skill], as the class it picks. *)
Definition get_adapter_for_skill (skill_name : string) : adapter_kind :=
  if String.eqb skill_name "backend-engineer" then TypeScriptCode
  else if String.eqb skill_name "qa-engineer" then TestDocumentation
  else TypeScriptCode.

Definition adapter_forward (k : adapter_kind)
  : process -> Adapter -> string -> string -> res Prediction :=
  match k with
  | TypeScriptCode => TypeScriptCodeAdapter.forward
  | TestDocumentation => TestDocAdapter.forward
  end.

(** ** json.dumps *)

(** The double quote and the backslash. *)
Definition dq : string := String "034" "".
Definition bs : string := String "092" "".

Definition hex_digit (n : N) : ascii :=
  ascii_of_N (if (n <? 10)%N then 48 + n else 87 + n).

(** One character inside a JSON string, with [ensure_ascii] left on. *)
Definition json_escape_char (c : ascii) : string :=
  if is_code 34 c then bs ++ dq
  else if is_code 92 c then bs ++ bs
  else if is_code 10 c then bs ++ "n"
  else if is_code 13 c then bs ++ "r"
  else if is_code 9 c then bs ++ "t"
  else if is_code 8 c then bs ++ "b"
  else if is_code 12 c then bs ++ "f"
  else if in_range 32 126 c then String c ""
  else bs ++ "u00" ++ String (hex_digit (code c / 16)) ""
          ++ String (hex_digit (code c mod 16)) "".

Fixpoint json_escape (s : string) : string :=
  match s with
  | "" => ""
  | String c s' => json_escape_char c ++ json_escape s'
  end.

Definition json_string (s : string) : string := dq ++ json_escape s ++ dq.

Definition json_bool (b : bool) : string := if b then "true" else "false".

(** [json.dumps({"proposed_instruction": instruction,
                 "proposed_prefix_for_output_field": ""})] *)
Definition dumps_proposal (instruction : string) : string :=
  "{" ++ json_string "proposed_instruction" ++ ": " ++ json_string instruction
  ++ ", " ++ json_string "proposed_prefix_for_output_field" ++ ": "
  ++ json_string "" ++ "}".

(** ** optimize.py: the reflection LM *)

Module CLIReflectionLM.

(** [r'\{[^{}]*"proposed_instruction"[^{}]*\}'], with a quote on each side
    of the field name. *)
Definition json_re : regex :=
  seqs [lit "{"; Star (CNoneOf ["{"; "}"]%char);
        lit (dq ++ "proposed_instruction" ++ dq);
        Star (CNoneOf ["{"; "}"]%char); lit "}"].

(** [prompt or ""], then the rendered last message when that is empty;
    [messages] is [None] when the argument is missing or empty, and else
    the string [str] makes of it. *)
Definition prompt_of (prompt messages : option string) : string :=
  let prompt_str := match prompt with Some p => p | None => "" end in
  if is_empty prompt_str then
    match messages with Some m => m | None => prompt_str end
  else prompt_str.

Definition is_copro_request (prompt_str : string) : bool :=
  str_in "proposed_instruction" (str_lower prompt_str)
  || str_in "instruction" (str_lower prompt_str).

Definition enhance (prompt_str : string) : string :=
  prompt_str ++ NL
  ++ NL
  ++ "IMPORTANT: You MUST respond with valid JSON containing these fields:" ++ NL
  ++ "{" ++ NL
  ++ "  " ++ dq ++ "proposed_instruction" ++ dq ++ ": "
     ++ dq ++ "Your improved instruction text here" ++ dq ++ "," ++ NL
  ++ "  " ++ dq ++ "proposed_prefix_for_output_field" ++ dq ++ ": "
     ++ dq ++ dq ++ NL
  ++ "}" ++ NL
  ++ "Only output the JSON object, nothing else.".

(** What the [try] block computes from the captured output. *)
Definition content_of (is_copro : bool) (out : string) : string :=
  let content := strip out in
  let content :=
    if negb (is_empty content) then
      match re_search json_re content (Flags false false true) with
      | Some json_match => group0 json_match
      | None =>
          if is_copro then
            dumps_proposal
              (if negb (is_empty content) then str_take 2000 content
               else "Follow the task requirements.")
          else content
      end
    else content in
  if is_empty content then
    dumps_proposal "Follow the task requirements carefully."
  else content.

(** [forward]; [binary_path] is the adapter's field, [model_env] is
    [os.environ.get("GEMINI_MODEL")].  The line the handler prints is not
    part of the result. *)
Definition forward (run : process) (binary_path : string)
           (model_env : option string) (prompt messages : option string)
  : res (list string) :=
  let prompt_str := prompt_of prompt messages in
  let is_copro := is_copro_request prompt_str in
  try_except
    (let enhanced_prompt := if is_copro then enhance prompt_str else prompt_str in
     let cli_args := [binary_path; "-p"; enhanced_prompt] in
     let cli_args :=
       match model_env with
       | Some m => if is_empty m then cli_args
                   else (cli_args ++ ["--model"; m])%list
       | None => cli_args
       end in
     result <- run cli_args ;;
     Ret [content_of is_copro (stdout result)])
    (fun e => Ret [dumps_proposal "Follow the task requirements."]).

End CLIReflectionLM.

(** ** optimize.py: the evolution driver *)

(** What the driver does to the file system, in order.  The progress lines
    it prints are not recorded. *)
Inductive event : Type :=
| Mkdir (path : string)                  (* mkdir(parents=True, exist_ok=True) *)
| WriteText (path content : string).     (* Path.write_text *)

(** A computation that logs events and returns or raises. *)
Definition io (A : Type) : Type := (list event * res A)%type.

Definition io_ret {A : Type} (a : A) : io A := ([], Ret a).
Definition io_raise {A : Type} (e : exn) : io A := ([], Raise e).
Definition io_lift {A : Type} (m : res A) : io A := ([], m).
Definition emit (ev : event) : io unit := ([ev], Ret tt).

Definition io_bind {A B : Type} (m : io A) (f : A -> io B) : io B :=
  match m with
  | (log, Ret a) => let '(log', r) := f a in ((log ++ log')%list, r)
  | (log, Raise e) => (log, Raise e)
  end.

(** [try: body except Exception as e: handler(e)] with a log. *)
Definition io_try {A : Type} (body : io A) (handler : exn -> io A) : io A :=
  match body with
  | (log, Ret a) => (log, Ret a)
  | (log, Raise e) => let '(log', r) := handler e in ((log ++ log')%list, r)
  end.

Notation "x <~ m ;; f" := (io_bind m (fun x => f))
  (at level 61, m at next level, right associativity).
Notation "m ;;; f" := (io_bind m (fun _ => f))
  (at level 61, right associativity).

(** [dir / name] on paths. *)
Definition path_join (dir name : string) : string := dir ++ "/" ++ name.

(** A training example: the two input fields. *)
Record Example : Type := mkExample {
  ex_story_context : string;
  ex_tech_stack : string
}.

(** The dictionary [run_optimization] returns and dumps. *)
Record Summary : Type := mkSummary {
  skill : string;
  category : string;
  optimizer : string;
  baseline_chars : nat;
  optimized_chars : nat;
  changed : bool;
  timestamp : string
}.

(** [json.dumps(summary, indent=2)] *)
Definition dumps_summary (sm : Summary) : string :=
  let field (k v : string) := "  " ++ json_string k ++ ": " ++ v in
  "{" ++ NL
  ++ concat ("," ++ NL)
       [ field "skill" (json_string (skill sm));
         field "category" (json_string (category sm));
         field "optimizer" (json_string (optimizer sm));
         field "baseline_chars" (str_of_nat (baseline_chars sm));
         field "optimized_chars" (str_of_nat (optimized_chars sm));
         field "changed" (json_bool (changed sm));
         field "timestamp" (json_string (timestamp sm)) ]
  ++ NL ++ "}".

(** The training examples [run_optimization] makes of the stories. *)
Definition trainset_of (stories : list string) : list Example :=
  map (fun story => mkExample story "TypeScript, Node.js, Jest") stories.

Section Driver.

(** [difflib.unified_diff] on the lines of the baseline and of the new
    text, with the file names and the line terminator the driver passes:
    the lines it yields. *)
Variable unified_diff : string -> string -> list string.

(** [optimizer.compile(adapter, trainset=..., eval_kwargs={})] of COPRO:
    the adapter it hands back, or the exception it raises. *)
Variable compile : Adapter -> list Example -> res Adapter.

(** [save_optimized_skill] *)
Definition save_optimized_skill
           (instruction baseline_instruction skill_dir output_dir ts : string)
  : io unit :=
  let target_path := path_join skill_dir "adapter.md" in
  emit (WriteText target_path instruction) ;;;
  (* Save version *)
  let versions_dir := path_join output_dir "skill_versions" in
  emit (Mkdir versions_dir) ;;;
  let version_file := path_join versions_dir ("adapter_md_" ++ ts ++ ".md") in
  emit (WriteText version_file instruction) ;;;
  (* Generate diff *)
  let diffs_dir := path_join skill_dir "diffs" in
  emit (Mkdir diffs_dir) ;;;
  let diff := unified_diff baseline_instruction instruction in
  match diff with
  | [] => io_ret tt
  | _ =>
      let diff_file := path_join diffs_dir ("run_" ++ ts ++ ".diff") in
      emit (WriteText diff_file (concat "" diff))
  end.

(** [run_optimization], from the point where the baseline, the stories and
    the demos have been read: [baseline_content] is what
    [load_baseline_skill] returned, [stories] the story texts,
    [copro_available] whether [from dspy.teleprompt import COPRO]
    succeeds, [ts] the time stamp taken on entry. *)
Definition run_optimization
           (skill_name cat repo_root : string) (max_rollouts : nat)
           (output_dir gemini_bin : string)
           (ts baseline_content : string) (stories : list string)
           (demo_strings : list string) (copro_available : bool)
  : io (option Summary) :=
  let skill_dir := path_join (path_join repo_root "skills") skill_name in
  match stories with
  | [] => io_ret None
  | _ =>
      (* Initialize skill-specific adapter *)
      let adapter := mkAdapter gemini_bin demo_strings baseline_content in
      (* Create training examples *)
      let trainset := trainset_of stories in
      (* Initialize optimizer (COPRO) *)
      if negb copro_available then io_ret None
      else
        let optimizer_name := "COPRO" in
        io_try
          (optimized_adapter <~
             io_lift (compile adapter (firstn max_rollouts trainset)) ;;
           (* Extract the evolved instruction *)
           let final_instruction := instructions optimized_adapter in
           (* Check if instruction was actually changed *)
           (if negb (String.eqb final_instruction baseline_content) then
              save_optimized_skill final_instruction baseline_content
                                   skill_dir output_dir ts
            else io_ret tt) ;;;
           (* Save results *)
           emit (Mkdir output_dir) ;;;
           let results_path :=
             path_join output_dir
               ("optimization_" ++ skill_name ++ "_" ++ ts ++ ".json") in
           let summary :=
             mkSummary skill_name cat optimizer_name
                       (String.length baseline_content)
                       (String.length final_instruction)
                       (negb (String.eqb final_instruction baseline_content))
                       ts in
           emit (WriteText results_path (dumps_summary summary)) ;;;
           io_ret (Some summary))
          (fun e => io_raise e)
  end.

End Driver.

(** ** Notions the statements use *)

(** [sub] occurs in [s]. *)
Definition contains (sub s : string) : Prop :=
  exists pre post, s = pre ++ sub ++ post.

(** Every character of [s] satisfies [f]. *)
Fixpoint str_forall (f : ascii -> bool) (s : string) : bool :=
  match s with
  | "" => true
  | String c s' => f c && str_forall f s'
  end.

(** [w] without its last character. *)
Definition str_init (w : string) : string := str_take (String.length w - 1) w.

(** In [pre ++ w], the word [w] does not occur before the position where
    [pre] ends: the occurrence after [pre] is the first one. *)
Definition occurs_first (w pre : string) : bool :=
  negb (str_in w (pre ++ str_init w)).

(** The three kinds of partial score. *)
Definition hard (found : bool) : float := (if found then 1.0 else 0.0)%float.
Definition soft (found : bool) : float := (if found then 1.0 else 0.5)%float.
Definition threshold (met : bool) : float := (if met then 1.0 else 0.3)%float.

(** The arithmetic mean of four floats. *)
Definition mean4 (a b c d : float) : float := ((a + b + c + d) / 4)%float.

(** The outcomes of the four checks of a metric on a text, in order. *)
Definition outcomes (m : metric) (code : string) : list bool :=
  match m with
  | TypeScript =>
      [ TypeScriptMetric.has_ts_syntax code; TypeScriptMetric.has_functions code;
        TypeScriptMetric.has_error_handling code; TypeScriptMetric.has_exports code ]
  | TestDoc =>
      [ TestDocMetric.has_test_structure code; TestDocMetric.has_test_content code;
        TestDocMetric.has_headers code; TestDocMetric.has_structure code ]
  end.

(** Two outcome lists agree except at [k], where the first holds and the
    second does not. *)
Definition differ_only_at (k : nat) (o1 o2 : list bool) : Prop :=
  nth k o1 false = true /\ nth k o2 false = false /\
  forall j, j <> k -> nth j o1 false = nth j o2 false.

(** The partial scores of the documentation metric with the keyword count
    scored as a count threshold (1.0 or 0.3). *)
Definition doc_partials_threshold (code : string) : list float :=
  [ hard (TestDocMetric.has_test_structure code);
    threshold (TestDocMetric.has_test_content code);
    soft (TestDocMetric.has_headers code);
    soft (TestDocMetric.has_structure code) ].

(** Every text the pattern matches holds a character that is not white
    space (a syntactic sufficient condition). *)
Fixpoint eats_nonspace (r : regex) : bool :=
  match r with
  | One (CChar a) => negb (isspace a)
  | One (COneOf l) => forallb (fun a => negb (isspace a)) l
  | One CWord => true
  | Seq r1 r2 => eats_nonspace r1 || eats_nonspace r2
  | Alt r1 r2 => eats_nonspace r1 && eats_nonspace r2
  | Grp _ r1 => eats_nonspace r1
  | _ => false
  end.

(** A continuation that fails on every blank rest. *)
Definition fails_on_blank (k : cont) : Prop :=
  forall p s g, all_space s = true -> k p s g = None.

(** The score of a text with content, from the outcomes of its checks. *)
Definition score_of_outcomes (m : metric) (o : list bool) : float :=
  match m, o with
  | TypeScript, [a; b; c; d] => mean4 (threshold a) (hard b) (soft c) (soft d)
  | TestDoc, [a; b; c; d] => mean4 (hard a) (soft b) (soft c) (soft d)
  | _, _ => 0.0%float
  end.

(** The pattern matches with the cursor before [s] and after [p]. *)
Definition matches_here (fl : flags) (r : regex) (p : option ascii) (s : string)
  : bool :=
  truthy (exec fl r p s [] done).

(** The character before the cursor once [pre] has been read. *)
Fixpoint prev_after (p : option ascii) (pre : string) : option ascii :=
  match pre with
  | "" => p
  | String c pre' => prev_after (Some c) pre'
  end.

(** [pre] ends where a line starts. *)
Definition line_start (pre : string) : Prop :=
  pre = "" \/ exists pre', pre = pre' ++ NL.

(** The text has a line that opens with one [#], a blank and a word
    character: a level-one markdown header. *)
Definition has_header_line (s : string) : Prop :=
  exists pre w rest,
    s = pre ++ "# " ++ String w rest /\ line_start pre /\ isword w = true.

(** The text has a fenced block: two fences of three backticks. *)
Definition has_fenced_block (s : string) : Prop :=
  exists pre body post, s = pre ++ "```" ++ body ++ "```" ++ post.

(** The two sample texts of the specification. *)
Definition doc_snippet : string :=
  "describe(" ++ dq ++ "x" ++ dq ++ ", () => { it(" ++ dq ++ "y" ++ dq
  ++ ", () => { expect(1).toBe(1) }) })".

Definition ts_snippet : string :=
  "export function foo() { try {} catch(e) { throw new Error(e) } }".

Definition with_output (code : string) : Prediction := mkPrediction code None "".

(** A text with the code sample and the three keywords. *)
Definition ts_sample : string :=
  "interface Foo {} type T = Foo; async " ++ ts_snippet.

(** A text with the documentation sample in a fenced block under a header,
    and the same with more test vocabulary in the header. *)
Definition doc_sample_plain : string :=
  "# Title" ++ NL ++ "```" ++ NL ++ doc_snippet ++ NL ++ "```".

Definition doc_sample_rich : string :=
  "# Test checks" ++ NL ++ "```" ++ NL ++ doc_snippet ++ NL ++ "```".

(** The argument vector an adapter hands to the external process. *)
Definition adapter_argv (k : adapter_kind) (self : Adapter)
           (story_context tech_stack : string) : list string :=
  match k with
  | TypeScriptCode =>
      [gemini_binary self; "-p";
       TypeScriptCodeAdapter._prepare_prompt self story_context tech_stack]
  | TestDocumentation =>
      [gemini_binary self; "-p"; TestDocAdapter._prepare_prompt self story_context]
  end.

(** A process that cannot be started: the binary does not exist. *)
Definition missing_binary : process :=
  fun argv =>
    Raise (Exception "FileNotFoundError"
                     "[Errno 2] No such file or directory: '/no/such/gemini'").

(** The last character of a string. *)
Fixpoint last_char (s : string) : option ascii :=
  match s with
  | "" => None
  | String c "" => Some c
  | String _ s' => last_char s'
  end.

(** The summary of a run that starts from [baseline] and ends with
    [final]. *)
Definition summary_of (skill_name cat ts baseline final : string) : Summary :=
  mkSummary skill_name cat "COPRO" (String.length baseline) (String.length final)
            (negb (String.eqb final baseline)) ts.

(** The paths the driver writes the instruction and the diff to. *)
Definition target_path_of (repo_root skill_name : string) : string :=
  path_join (path_join (path_join repo_root "skills") skill_name) "adapter.md".

Definition diff_path_of (repo_root skill_name ts : string) : string :=
  path_join (path_join (path_join (path_join repo_root "skills") skill_name) "diffs")
            ("run_" ++ ts ++ ".diff").

Definition results_path_of (output_dir skill_name ts : string) : string :=
  path_join output_dir ("optimization_" ++ skill_name ++ "_" ++ ts ++ ".json").

(** A stand-in for COPRO that installs a fixed instruction, and one for
    [difflib] that reports the two texts when they differ. *)
Definition compile_to (final : string) : Adapter -> list Example -> res Adapter :=
  fun adapter _ => Ret (mkAdapter (gemini_binary adapter) (demos adapter) final).

Definition two_line_diff (a b : string) : list string :=
  if String.eqb a b then [] else ["-" ++ a; "+" ++ b].

(** The field name as the reflection pattern looks for it, in quotes. *)
Definition field_name : string := dq ++ "proposed_instruction" ++ dq.

Definition prefix_field_name : string :=
  dq ++ "proposed_prefix_for_output_field" ++ dq.

Definition not_brace (c : ascii) : bool :=
  negb (Ascii.eqb c "{") && negb (Ascii.eqb c "}").

(** A brace-delimited span that names the field and has no brace inside. *)
Definition json_shaped (w : string) : Prop :=
  exists a b,
    w = "{" ++ a ++ field_name ++ b ++ "}" /\
    str_forall not_brace a = true /\ str_forall not_brace b = true.

(** The argument vector the reflection LM hands to the process. *)
Definition reflection_argv (binary_path : string) (model_env : option string)
           (prompt_str : string) : list string :=
  let enhanced :=
    if CLIReflectionLM.is_copro_request prompt_str
    then CLIReflectionLM.enhance prompt_str else prompt_str in
  match model_env with
  | Some m => if is_empty m then [binary_path; "-p"; enhanced]
              else [binary_path; "-p"; enhanced; "--model"; m]
  | None => [binary_path; "-p"; enhanced]
  end.

(** A process that prints a fixed text. *)
Definition prints (out : string) : process :=
  fun _ => Ret (mkCompleted out "").

(** The flags of the reflection search: [re.DOTALL]. *)
Definition reflection_flags : flags := Flags false false true.

(** An answer of the CLI that names only the first field. *)
Definition one_field_answer : string :=
  "{" ++ field_name ++ ": " ++ dq ++ "Be terse." ++ dq ++ "}".

(** The pattern has no [^]: it matches the same whatever precedes. *)
Fixpoint no_bol (r : regex) : bool :=
  match r with
  | Bol => false
  | Seq r1 r2 | Alt r1 r2 => no_bol r1 && no_bol r2
  | Grp _ r1 | Ahead r1 => no_bol r1
  | _ => true
  end.

(** Two continuations that agree whatever precedes the cursor. *)
Definition same_cont (k k' : cont) : Prop :=
  forall q q' s g, k q s g = k' q' s g.

(** The flags of both adapter searches: [re.DOTALL]. *)
Definition adapter_flags : flags := Flags false false true.

Definition fence : string := "```".

(** The language tags the code-block pattern accepts after a fence. *)
Definition fence_tags : list string := ["typescript"; "ts"; "javascript"; "js"; ""].

(** A fenced block: fence, tag, newline, body, fence. *)
Definition fenced (tag body : string) : string :=
  fence ++ tag ++ NL ++ body ++ fence.

(** The groups of all matches from a cursor on. *)
Definition groups_from (fl : flags) (r : regex) (skip i : nat) (p : option ascii)
           (s : string) : list string :=
  map (group 1) (finditer_from fl r skip i p s).

(** The two halves of the code-block pattern after the opening fence. *)
Definition tag_re : regex :=
  Opt (alts [lit "typescript"; lit "ts"; lit "javascript"; lit "js"]).

Definition block_tail_re : regex :=
  Seq (One (CChar nl)) (Seq (Grp 1 (StarLazy CAny)) (lit fence)).

(** The line that opens the reasoning section. *)
Definition reasoning_header : string := "## Reasoning" ++ NL.

(** What the reasoning pattern looks ahead for: [(?=##|$)]. *)
Definition section_end_re : regex := Ahead (Alt (lit "##") Eos).

(** The blocks the code adapter finds in a response. *)
Definition code_blocks (out : string) : list string :=
  re_findall TypeScriptCodeAdapter.code_block_re out adapter_flags.

(** Where the reasoning body ends: at the end of the response, with no
    [##] in the body, or at the first [##] after the header line. *)
Definition reasoning_ends (body tail : string) : Prop :=
  (tail = "" /\ str_in "##" body = false) \/
  (exists t, tail = "##" ++ t /\ occurs_first "##" body = true).

(** The primary output as the specification words it, for either adapter:
    the contents of the fenced code blocks, concatenated, when there is a
    block, and the raw response otherwise. *)
Definition primary_as_stated (out : string) : string :=
  match code_blocks out with
  | [] => out
  | blocks => concat "" blocks
  end.

(** Responses with one and with two fenced blocks, and one that reasons. *)
Definition one_block_response : string :=
  "Here it is:" ++ NL ++ fenced "ts" ("let x = 1;" ++ NL) ++ NL ++ "Done.".

Definition two_block_response : string :=
  fenced "ts" "a" ++ NL ++ fenced "" "b".

Definition reasoned_response : string :=
  "Result" ++ NL ++ reasoning_header ++ "  because " ++ NL ++ "## Next".

(** The partial scores and their mean as exact rationals. *)
Definition hard_Q (found : bool) : Q := if found then 1 else 0.
Definition soft_Q (found : bool) : Q := if found then 1 else (1 # 2).
Definition threshold_Q (met : bool) : Q := if met then 1 else (3 # 10).
Definition mean4_Q (a b c d : Q) : Q := ((a + b + c + d) / 4)%Q.

(** ** The rest of the code: files, loaders and the dry run *)

(** An adapter with other demos. *)
Definition with_demos (self : Adapter) (ds : list string) : Adapter :=
  mkAdapter (gemini_binary self) ds (instructions self).

(** What a path names: a file with its text, or a directory with the names
    of its entries in the order in which the system lists them. *)
Inductive node : Type :=
| File (content : string)
| Dir (names : list string).

(** The file system the program reads: what each path names, if it names
    anything.  Files hold text, and a file that exists can be read. *)
Definition fs : Type := string -> option node.

(** [path.exists()] *)
Definition path_exists (f : fs) (path : string) : bool := truthy (f path).

(** [path.read_text()] *)
Definition read_text (f : fs) (path : string) : res string :=
  match f path with
  | Some (File content) => Ret content
  | Some (Dir _) =>
      Raise (Exception "IsADirectoryError"
                       ("[Errno 21] Is a directory: '" ++ path ++ "'"))
  | None =>
      Raise (Exception "FileNotFoundError"
                       ("[Errno 2] No such file or directory: '" ++ path ++ "'"))
  end.

(** [re.match]: the pattern matched at the start of the subject. *)
Definition re_match (r : regex) (s : string) (fl : flags) : option rmatch :=
  match_at fl r 0 None s.

Definition dotall_flags : flags := Flags false false true.

(** [r'^---\s*\n.*?\n---\s*\n( .* )'], the group written with blanks here
    that the pattern does not have. *)
Definition skill_frontmatter_re : regex :=
  seqs [Bol; lit "---"; Star CSpace; One (CChar nl);
        StarLazy CAny;
        lit (String nl "---"); Star CSpace; One (CChar nl);
        Grp 1 (Star CAny)].

(** [load_baseline_skill]: the instruction and the name of the file the
    evolved instruction goes to. *)
Definition load_baseline_skill (f : fs) (skill_dir : string)
  : res (string * string) :=
  let adapter_path := path_join skill_dir "adapter.md" in
  let skill_path := path_join skill_dir "SKILL.md" in
  if path_exists f adapter_path then
    text <- read_text f adapter_path ;;
    Ret (text, "adapter.md")
  else if path_exists f skill_path then
    content <- read_text f skill_path ;;
    match re_match skill_frontmatter_re content dotall_flags with
    | Some m => Ret (strip (group 1 m), "adapter.md")
    | None => Ret (content, "adapter.md")
    end
  else Raise (Exception "FileNotFoundError" ("Skill not found: " ++ skill_dir)).

(** The first step of [main] under [--dry-run], the check of the skill
    directory: [Some 1] when it ends the program with [sys.exit(1)],
    [None] when the dry run goes on. *)
Definition dry_run_skill_check (f : fs) (skill_dir : string) : option nat :=
  let adapter_path := path_join skill_dir "adapter.md" in
  let skill_path := path_join skill_dir "SKILL.md" in
  if path_exists f adapter_path then None
  else if path_exists f skill_path then None
  else Some 1.




(** The directory of a skill. *)
Definition skill_dir_of (repo_root skill_name : string) : string :=
  path_join (path_join repo_root "skills") skill_name.

(** A file system with one skill directory that holds only [SKILL.md]. *)
Definition only_skill_md (skill_dir content : string) : fs :=
  fun path =>
    if String.eqb path (path_join skill_dir "SKILL.md") then Some (File content)
    else None.

(** The text starts with a character that is not white space. *)
Definition starts_with_text (s : string) : bool :=
  match s with String c _ => negb (isspace c) | "" => false end.

(** ** example_loader.py *)

(** The pattern matched with the cursor at position [i], where [stop]
    stands for the items the pattern ends with. *)
Definition match_at_then (fl : flags) (r : regex) (stop : cont) (i : nat)
           (p : option ascii) (s : string) : option rmatch :=
  match exec fl r p s [] stop with
  | Some (s', g) => Some (RMatch i (consumed s s') g)
  | None => None
  end.

(** Leftmost match at or after the cursor. *)
Fixpoint search_from_then (fl : flags) (r : regex) (stop : cont) (i : nat)
         (p : option ascii) (s : string) : option rmatch :=
  match match_at_then fl r stop i p s with
  | Some m => Some m
  | None =>
      match s with
      | "" => None
      | String c s' => search_from_then fl r stop (S i) (Some c) s'
      end
  end.

(** [(?=\n## |\Z)], the item the section pattern ends with: a line that
    starts with [## ] is ahead, or nothing is.  [\Z] is the end of the text
    itself; [$] would also accept a last line end there. *)
Definition section_stop : cont :=
  fun p s g =>
    match exec dotall_flags (Ahead (lit (String nl "## "))) p s g done with
    | Some res => Some res
    | None => if is_empty s then Some (s, g) else None
    end.

(** [rf'## {section_name}\s*\n(.*?)'], the section pattern up to its last
    item.  The name goes into the pattern as it is: the names the code
    passes are made of letters and blanks, which stand for themselves. *)
Definition section_re (section_name : string) : regex :=
  seqs [lit ("## " ++ section_name); Star CSpace; One (CChar nl);
        Grp 1 (StarLazy CAny)].

(** [extract_section] *)
Definition extract_section (content section_name : string) : string :=
  match search_from_then dotall_flags (section_re section_name) section_stop
                         0 None content with
  | Some m => strip (group 1 m)
  | None => ""
  end.

(** A name that is a pattern for itself: word characters and blanks. *)
Definition plain_name (section_name : string) : bool :=
  str_forall (fun c => isword c || is_code 32 c) section_name.

(** A section body [body] followed by [tail]: no line of [body] after its
    first starts with [## ], and [tail] is empty or starts with such a
    line. *)
Definition section_ends (body tail : string) : Prop :=
  occurs_first (String nl "## ") body = true /\
  (tail = "" \/ exists t, tail = String nl "## " ++ t).

(** A section text as [extract_section] returns it when it is not empty: it
    starts and ends with text, and none of its lines after the first starts
    with [## ]. *)
Definition section_text (x : string) : bool :=
  starts_with_text x && String.eqb (strip x) x
  && negb (str_in (String nl "## ") x).

Module golden.
(** A golden example as [load_examples_from_dir] builds it. *)
Record Example : Type := mk {
  id : string;
  category : string;
  source_story : string;
  tags : string;
  problem : string;
  solution : string;
  key_techniques : string;
  full_content : string
}.
End golden.

(** The demo string [examples_to_demos] makes of one example. *)
Definition demo_of (ex : golden.Example) : string :=
  let demo := "## Problem" ++ NL ++ golden.problem ex ++ NL ++ NL
              ++ "## Solution" ++ NL ++ golden.solution ex in
  if negb (is_empty (golden.key_techniques ex))
  then demo ++ NL ++ NL ++ "## Key Techniques" ++ NL ++ golden.key_techniques ex
  else demo.

(** [examples_to_demos] *)
Definition examples_to_demos (examples : list golden.Example) : list string :=
  map demo_of examples.

(** The character [c] does not occur in [w]. *)
Definition lacks (c : ascii) (w : string) : bool :=
  str_forall (fun y => negb (Ascii.eqb y c)) w.

(** What [examples_to_demos] puts after the solution. *)
Definition techniques_tail (k : string) : string :=
  if negb (is_empty k) then String nl (String nl ("## Key Techniques" ++ String nl k))
  else "".

(** [s.split(sep)] for a separator of one character. *)
Fixpoint split_on (sep : ascii) (s : string) : list string :=
  match s with
  | "" => [""]
  | String c s' =>
      if Ascii.eqb c sep then "" :: split_on sep s'
      else match split_on sep s' with
           | [] => [String c ""]
           | x :: xs => String c x :: xs
           end
  end.

(** [s.split(sep, 1)] for a string that holds the separator: the text
    before its first occurrence and the text after it. *)
Fixpoint split_once (sep : ascii) (s : string) : string * string :=
  match s with
  | "" => ("", "")
  | String c s' =>
      if Ascii.eqb c sep then ("", s')
      else let (k, v) := split_once sep s' in (String c k, v)
  end.

(** [s.lstrip(chars)], [s.rstrip(chars)] and [s.strip(chars)] *)
Fixpoint lstrip_chars (chars : list ascii) (s : string) : string :=
  match s with
  | "" => ""
  | String c s' => if existsb (Ascii.eqb c) chars then lstrip_chars chars s' else s
  end.

Fixpoint rstrip_chars (chars : list ascii) (s : string) : string :=
  match s with
  | "" => ""
  | String c s' =>
      let r := rstrip_chars chars s' in
      if existsb (Ascii.eqb c) chars && is_empty r then "" else String c r
  end.

Definition strip_chars (chars : list ascii) (s : string) : string :=
  rstrip_chars chars (lstrip_chars chars s).

(** A [dict] with string keys and values, in insertion order. *)
Definition dict : Type := list (string * string).

(** [d[k] = v] *)
Fixpoint dict_set (d : dict) (k v : string) : dict :=
  match d with
  | [] => [(k, v)]
  | (k', v') :: d' =>
      if String.eqb k' k then (k', v) :: d' else (k', v') :: dict_set d' k v
  end.

(** [d.get(k, default)] *)
Fixpoint dict_get (d : dict) (k default : string) : string :=
  match d with
  | [] => default
  | (k', v') :: d' => if String.eqb k' k then v' else dict_get d' k default
  end.

(** [r'^---\s*\n(.*?)\n---\s*\n'] *)
Definition frontmatter_re : regex :=
  seqs [Bol; lit "---"; Star CSpace; One (CChar nl);
        Grp 1 (StarLazy CAny);
        lit (String nl "---"); Star CSpace; One (CChar nl)].

(** The double and the single quote. *)
Definition quotes : list ascii := ["034"%char; "039"%char].

(** One step of the loop of [parse_frontmatter]. *)
Definition frontmatter_line (frontmatter : dict) (line : string) : dict :=
  if str_in ":" line then
    let (key, value) := split_once ":" line in
    dict_set frontmatter (strip key) (strip_chars quotes (strip value))
  else frontmatter.

(** [parse_frontmatter] *)
Definition parse_frontmatter (content : string) : dict :=
  match re_match frontmatter_re content dotall_flags with
  | None => []
  | Some m => fold_left frontmatter_line (split_on nl (group 1 m)) []
  end.

(** A front matter line and block as they are written. *)
Definition render_line (kv : string * string) : string :=
  fst kv ++ ": " ++ snd kv.

Definition render_frontmatter (d : dict) : string :=
  "---" ++ NL ++ concat NL (map render_line d) ++ NL ++ "---" ++ NL.

(** A key and a value that a front matter line gives back as they are. *)
Definition plain_key (k : string) : bool :=
  String.eqb (strip k) k && lacks ":" k && lacks nl k
  && negb (prefix "---" k).

Definition plain_value (v : string) : bool :=
  String.eqb (strip v) v && lacks nl v
  && String.eqb (strip_chars quotes v) v.

Definition plain_entry (kv : string * string) : bool :=
  plain_key (fst kv) && plain_value (snd kv).

(** ** Directories and the loaders *)

(** [path.is_dir()] *)
Definition is_dir (f : fs) (path : string) : bool :=
  match f path with
  | Some (Dir _) => true
  | _ => false
  end.

(** [list(path.iterdir())] *)
Definition iterdir (f : fs) (path : string) : res (list string) :=
  match f path with
  | Some (Dir names) => Ret (map (path_join path) names)
  | Some (File _) =>
      Raise (Exception "NotADirectoryError"
                       ("[Errno 20] Not a directory: '" ++ path ++ "'"))
  | None =>
      Raise (Exception "FileNotFoundError"
                       ("[Errno 2] No such file or directory: '" ++ path ++ "'"))
  end.

(** [s.endswith(suffix)] *)
Definition ends_with (suffix s : string) : bool :=
  (String.length suffix <=? String.length s)%nat
  && String.eqb (str_drop (String.length s - String.length suffix) s) suffix.

(** [list(path.glob("*" + suffix))]: the entries of the directory whose
    names end with [suffix], in the order of the listing; nothing for a
    path that is not a directory. *)
Definition glob_suffix (f : fs) (path suffix : string) : list string :=
  match f path with
  | Some (Dir names) => map (path_join path) (filter (ends_with suffix) names)
  | _ => []
  end.

(** [path.name]: the last component of a path. *)
Definition path_name (path : string) : string :=
  last (split_on "/" path) "".

(** [s.rfind(c)] *)
Fixpoint rfind (c : ascii) (s : string) : option nat :=
  match s with
  | "" => None
  | String x s' =>
      match rfind c s' with
      | Some i => Some (S i)
      | None => if Ascii.eqb x c then Some 0 else None
      end
  end.

(** [path.stem] on the name of a path: the name without its last suffix. *)
Definition stem (name : string) : string :=
  match rfind "." name with
  | Some i =>
      if (0 <? i)%nat && (i <? String.length name - 1)%nat
      then str_take i name else name
  | None => name
  end.

(** [s.replace(w, '')] for a word [w] that is not empty; [skip] counts the
    characters of an occurrence still to be dropped. *)
Fixpoint remove_from (w : string) (skip : nat) (s : string) : string :=
  match s with
  | "" => ""
  | String c s' =>
      match skip with
      | S k => remove_from w k s'
      | 0 =>
          if prefix w s then remove_from w (String.length w - 1) s'
          else String c (remove_from w 0 s')
      end
  end.

Definition str_remove (w s : string) : string := remove_from w 0 s.

(** A loop that appends to a list what each round yields, and stops with
    the exception of the first round that raises. *)
Fixpoint for_each {A B : Type} (xs : list A) (body : A -> res (list B))
  : res (list B) :=
  match xs with
  | [] => Ret []
  | x :: xs' =>
      ys <- body x ;;
      zs <- for_each xs' body ;;
      Ret (ys ++ zs)%list
  end.

(** [bool(s)] for an optional string. *)
Definition given (s : option string) : bool :=
  match s with
  | Some text => negb (is_empty text)
  | None => false
  end.

(** The directories a loader searches: the one of the category when a
    category is given, every directory under the root otherwise. *)
Definition search_dirs (f : fs) (root : string) (category : option string)
  : res (list string) :=
  match category with
  | Some c =>
      if given category then Ret [path_join root c]
      else entries <- iterdir f root ;; Ret (filter (is_dir f) entries)
  | None => entries <- iterdir f root ;; Ret (filter (is_dir f) entries)
  end.

Module story.
(** A story as [load_stories] returns it. *)
Record t : Type := mk {
  path : string;
  category : string;
  content : string
}.
End story.

(** [load_stories] *)
Definition load_stories (f : fs) (stories_dir : string) (category : option string)
  : res (list story.t) :=
  dirs <- search_dirs f stories_dir category ;;
  for_each dirs (fun dir_path =>
    if negb (path_exists f dir_path) then Ret []
    else
      for_each (glob_suffix f dir_path ".story.md") (fun story_path =>
        text <- read_text f story_path ;;
        Ret [story.mk story_path (path_name dir_path) text])).

(** [load_examples_from_dir] *)
Definition load_examples_from_dir (f : fs) (examples_dir : string)
           (category story_id : option string) : res (list golden.Example) :=
  dirs <- search_dirs f examples_dir category ;;
  for_each dirs (fun dir_path =>
    if negb (path_exists f dir_path) then Ret []
    else
      for_each (glob_suffix f dir_path ".example.md") (fun file_path =>
        text <- read_text f file_path ;;
        let frontmatter := parse_frontmatter text in
        (* Filter by story_id if specified *)
        if given story_id
           && negb (String.eqb (dict_get frontmatter "id" "")
                               (match story_id with Some i => i | None => "" end))
        then Ret []
        else
          (* Extract problem and solution sections *)
          let problem := extract_section text "Problem" in
          let solution := extract_section text "Solution" in
          let key_techniques := extract_section text "Key Techniques" in
          Ret [golden.mk (dict_get frontmatter "id" (stem (path_name file_path)))
                         (path_name dir_path)
                         (dict_get frontmatter "source_story" "")
                         (dict_get frontmatter "tags" "")
                         problem solution key_techniques text])).

Module pair.
(** A pair as [load_story_example_pairs] returns it. *)
Record t : Type := mk {
  story_id : string;
  story_category : string;
  example_category : string;
  story_path : string;
  example_path : string;
  story_content : string;
  example_content : string
}.
End pair.

Definition story_categories : list string :=
  ["state-bridge"; "oauth"; "cli"; "translation"].
Definition example_categories : list string :=
  ["backend"; "qa"; "security"; "devops"].

(** [load_story_example_pairs] *)
Definition load_story_example_pairs (f : fs) (stories_dir examples_dir : string)
  : res (list pair.t) :=
  for_each story_categories (fun story_cat =>
    let story_cat_dir := path_join stories_dir story_cat in
    if negb (path_exists f story_cat_dir) then Ret []
    else
      for_each (glob_suffix f story_cat_dir ".story.md") (fun story_path =>
        story_content <- read_text f story_path ;;
        let story_id := str_remove ".story" (stem (path_name story_path)) in
        (* Try to find matching example in any example category *)
        for_each example_categories (fun ex_cat =>
          let example_cat_dir := path_join examples_dir ex_cat in
          if negb (path_exists f example_cat_dir) then Ret []
          else
            match glob_suffix f example_cat_dir ".example.md" with
            | [] => Ret []
            | example_path :: _ =>
                (* One example per story for now *)
                example_content <- read_text f example_path ;;
                Ret [pair.mk story_id story_cat ex_cat story_path example_path
                             story_content example_content]
            end))).

(** [category_map.get(category, 'backend')] in [run_optimization] and in
    [main]. *)
Definition example_category_of (category : string) : string :=
  if String.eqb category "state-bridge" then "backend"
  else if String.eqb category "oauth" then "security"
  else if String.eqb category "cli" then "backend"
  else if String.eqb category "translation" then "backend"
  else "backend".

Section Whole.
Variable unified_diff : string -> string -> list string.
Variable compile : Adapter -> list Example -> res Adapter.

(** [run_optimization] from its first line, on the files it reads: the
    baseline, the stories of the category, the golden examples of the
    category the map gives. *)
Definition run_optimization_on (f : fs)
           (skill_name cat repo_root : string) (max_rollouts : nat)
           (output_dir gemini_bin ts : string) (copro_available : bool)
  : io (option Summary) :=
  (* Load skill - uses adapter.md pattern *)
  let skill_dir := path_join (path_join repo_root "skills") skill_name in
  loaded <~ io_lift (load_baseline_skill f skill_dir) ;;
  let baseline_content := fst loaded in
  (* Load stories for category *)
  let stories_dir := path_join repo_root "stories" in
  stories <~ io_lift (load_stories f stories_dir (Some cat)) ;;
  match stories with
  | [] => io_ret None
  | _ =>
      (* Load golden examples - map story category to example category *)
      let example_category := example_category_of cat in
      let examples_dir := path_join repo_root "golden-examples" in
      examples <~ io_lift (load_examples_from_dir f examples_dir
                                                  (Some example_category) None) ;;
      let demos := examples_to_demos (firstn 3 examples) in
      run_optimization unified_diff compile skill_name cat repo_root max_rollouts
                       output_dir gemini_bin ts baseline_content
                       (map story.content stories) demos copro_available
  end.
End Whole.

(** The front matter of the example's file names the story. *)
Definition has_story_id (story_id : string) (ex : golden.Example) : bool :=
  String.eqb (dict_get (parse_frontmatter (golden.full_content ex)) "id" "") story_id.

(** A repository with two stories, two golden examples and one skill. *)
Definition sample_fs : fs :=
  fun path =>
    if String.eqb path "/repo/stories" then Some (Dir ["cli"])
    else if String.eqb path "/repo/stories/cli"
    then Some (Dir ["login.story.md"; "notes.txt"; "logout.story.md"])
    else if String.eqb path "/repo/stories/cli/login.story.md"
    then Some (File "As a user I log in.")
    else if String.eqb path "/repo/stories/cli/logout.story.md"
    then Some (File "As a user I log out.")
    else if String.eqb path "/repo/golden-examples" then Some (Dir ["backend"])
    else if String.eqb path "/repo/golden-examples/backend"
    then Some (Dir ["retry.example.md"; "plain.example.md"; "README.md"])
    else if String.eqb path "/repo/golden-examples/backend/retry.example.md"
    then Some (File ("---" ++ NL ++ "id: login" ++ NL ++ "tags: retry" ++ NL
                     ++ "---" ++ NL
                     ++ "## Problem" ++ NL ++ "Calls fail." ++ NL ++ NL
                     ++ "## Solution" ++ NL ++ "Retry twice." ++ NL))
    else if String.eqb path "/repo/golden-examples/backend/plain.example.md"
    then Some (File ("## Problem" ++ NL ++ "No id here." ++ NL))
    else if String.eqb path "/repo/skills/qa-engineer/SKILL.md"
    then Some (File "Write tests.")
    else None.

(** The three sections of a demo string, read with [extract_section]. *)
Definition read_demo (demo : string) : string * string * string :=
  (extract_section demo "Problem", extract_section demo "Solution",
   extract_section demo "Key Techniques").

(** The three texts of an example that go into its demo string. *)
Definition demo_fields (ex : golden.Example) : string * string * string :=
  (golden.problem ex, golden.solution ex, golden.key_techniques ex).

(** An example whose problem and solution are section texts, whose key
    techniques are empty or a section text, and whose texts do not hold the
    headers of the sections that follow them. *)
Definition readable (ex : golden.Example) : bool :=
  section_text (golden.problem ex) && section_text (golden.solution ex)
  && (is_empty (golden.key_techniques ex) || section_text (golden.key_techniques ex))
  && negb (str_in "## Solution" (golden.problem ex))
  && negb (str_in "## Key Techniques" (golden.problem ex))
  && negb (str_in "## Key Techniques" (golden.solution ex)).



(** * Properties *)

(** ** Strings *)

Lemma lstrip_all_space (s : string) : all_space s = true -> lstrip s = "".
Proof.
  induction s as [|c s IH]; simpl; [reflexivity|].
  intros H. apply andb_prop in H as [Hc Hs]. rewrite Hc. auto.
Qed.

Lemma lstrip_some_nonspace (s : string) :
  all_space s = false ->
  exists c t, lstrip s = String c t /\ isspace c = false.
Proof.
  induction s as [|c s IH]; simpl; [discriminate|].
  destruct (isspace c) eqn:Hc; simpl.
  - exact IH.
  - intros _. exists c, s. split; [reflexivity | exact Hc].
Qed.

Lemma rstrip_keeps_nonspace_head (c : ascii) (t : string) :
  isspace c = false -> rstrip (String c t) = String c (rstrip t).
Proof. intros H. simpl. rewrite H. reflexivity. Qed.

(** The first test of the metrics holds exactly of the texts made of white
    space only (the empty text among them). *)
Lemma no_content_all_space (code : string) : no_content code = all_space code.
Proof.
  unfold no_content, strip.
  destruct (all_space code) eqn:H.
  - rewrite (lstrip_all_space _ H). simpl. apply orb_true_r.
  - destruct (lstrip_some_nonspace _ H) as (c & t & Hl & Hc).
    rewrite Hl, (rstrip_keeps_nonspace_head _ _ Hc).
    destruct code; [discriminate H | reflexivity].
Qed.

(** ** Floats *)

(** Two float constants are told apart by evaluating their comparison. *)
Ltac float_neq :=
  let E := fresh "E" in
  intro E;
  match type of E with
  | ?a = ?b =>
      apply (f_equal (fun x => PrimFloat.eqb x b)) in E;
      vm_compute in E; discriminate E
  end.

(** ** The scoring functions *)

Lemma ts_call_checks (p : Prediction) :
  no_content (code_output p) = false ->
  TypeScriptMetric.call p =
  mkScore (mean_of (fst (TypeScriptMetric.run_checks (code_output p))))
          (concat NL (snd (TypeScriptMetric.run_checks (code_output p)))).
Proof. intros H. unfold TypeScriptMetric.call. rewrite H. reflexivity. Qed.

Lemma doc_call_checks (p : Prediction) :
  no_content (code_output p) = false ->
  TestDocMetric.call p =
  mkScore (mean_of (fst (TestDocMetric.run_checks (code_output p))))
          (concat NL (snd (TestDocMetric.run_checks (code_output p)))).
Proof. intros H. unfold TestDocMetric.call. rewrite H. reflexivity. Qed.

Lemma ts_partials (code : string) :
  fst (TypeScriptMetric.run_checks code) =
  [ threshold (TypeScriptMetric.has_ts_syntax code);
    hard (TypeScriptMetric.has_functions code);
    soft (TypeScriptMetric.has_error_handling code);
    soft (TypeScriptMetric.has_exports code) ].
Proof. reflexivity. Qed.

Lemma doc_partials (code : string) :
  fst (TestDocMetric.run_checks code) =
  [ hard (TestDocMetric.has_test_structure code);
    soft (TestDocMetric.has_test_content code);
    soft (TestDocMetric.has_headers code);
    soft (TestDocMetric.has_structure code) ].
Proof. reflexivity. Qed.

(** The score of a text with content, from the outcomes of its checks. *)
Lemma ts_score_outcomes (p : Prediction) :
  no_content (code_output p) = false ->
  score (TypeScriptMetric.call p) =
  mean4 (threshold (TypeScriptMetric.has_ts_syntax (code_output p)))
        (hard (TypeScriptMetric.has_functions (code_output p)))
        (soft (TypeScriptMetric.has_error_handling (code_output p)))
        (soft (TypeScriptMetric.has_exports (code_output p))).
Proof.
  intros H. rewrite (ts_call_checks _ H), ts_partials. simpl score.
  destruct (TypeScriptMetric.has_ts_syntax _), (TypeScriptMetric.has_functions _),
    (TypeScriptMetric.has_error_handling _), (TypeScriptMetric.has_exports _);
    reflexivity.
Qed.

Lemma doc_score_outcomes (p : Prediction) :
  no_content (code_output p) = false ->
  score (TestDocMetric.call p) =
  mean4 (hard (TestDocMetric.has_test_structure (code_output p)))
        (soft (TestDocMetric.has_test_content (code_output p)))
        (soft (TestDocMetric.has_headers (code_output p)))
        (soft (TestDocMetric.has_structure (code_output p))).
Proof.
  intros H. rewrite (doc_call_checks _ H), doc_partials. simpl score.
  destruct (TestDocMetric.has_test_structure _), (TestDocMetric.has_test_content _),
    (TestDocMetric.has_headers _), (TestDocMetric.has_structure _);
    reflexivity.
Qed.

Lemma blank_output_result (m : metric) (p : Prediction) :
  all_space (code_output p) = true ->
  metric_call m p = mkScore 0.0 "No content generated".
Proof.
  intros H. rewrite <- no_content_all_space in H.
  destruct m; simpl; [unfold TypeScriptMetric.call | unfold TestDocMetric.call];
    rewrite H; reflexivity.
Qed.

(** C1, as amended: for every prediction whose primary output is empty or
    made of white space only, both metrics return the score 0.0 with the
    feedback [No content generated] (capital N), and nothing else: the
    result does not depend on any check. *)
Theorem no_content_scores_zero (m : metric) (p : Prediction) :
  all_space (code_output p) = true ->
  metric_call m p = mkScore 0.0 "No content generated".
Proof.
  intros H. rewrite <- no_content_all_space in H.
  destruct m; simpl; [unfold TypeScriptMetric.call | unfold TestDocMetric.call];
    rewrite H; reflexivity.
Qed.

Lemma no_content_scores_zero_witness :
  metric_call TypeScript (mkPrediction "" None "") = mkScore 0.0 "No content generated"
  /\ metric_call TestDoc (mkPrediction (" " ++ NL) None "") = mkScore 0.0 "No content generated".
Proof.
  split; apply no_content_scores_zero; reflexivity.
Defined.

(** C1, as stated, fails on the feedback text: on the empty output the
    feedback is not the all-lower-case [no content generated]. *)
Lemma no_content_feedback_counterexample :
  all_space (code_output (mkPrediction "" None "")) = true /\
  feedback (metric_call TypeScript (mkPrediction "" None "")) <> "no content generated" /\
  feedback (metric_call TestDoc (mkPrediction "" None "")) <> "no content generated".
Proof. repeat split; discriminate. Qed.

(** The sum of the partial scores is the same with plain and with
    compensated summation. *)
Lemma sum_either_way (code : string) :
  py_sum (fst (TypeScriptMetric.run_checks code)) =
    py_sum_compensated (fst (TypeScriptMetric.run_checks code)) /\
  py_sum (fst (TestDocMetric.run_checks code)) =
    py_sum_compensated (fst (TestDocMetric.run_checks code)).
Proof.
  rewrite ts_partials, doc_partials. split.
  - destruct (TypeScriptMetric.has_ts_syntax _), (TypeScriptMetric.has_functions _),
      (TypeScriptMetric.has_error_handling _), (TypeScriptMetric.has_exports _);
      reflexivity.
  - destruct (TestDocMetric.has_test_structure _), (TestDocMetric.has_test_content _),
      (TestDocMetric.has_headers _), (TestDocMetric.has_structure _);
      reflexivity.
Qed.

(** The float mean of the partial scores is the exact mean of their
    decimal values, up to rounding. *)
Lemma mean4_rounds (a b c d : bool) :
  rounds (mean4 (threshold a) (hard b) (soft c) (soft d))
         (mean4_Q (threshold_Q a) (hard_Q b) (soft_Q c) (soft_Q d)) = true /\
  rounds (mean4 (hard a) (soft b) (soft c) (soft d))
         (mean4_Q (hard_Q a) (soft_Q b) (soft_Q c) (soft_Q d)) = true.
Proof. destruct a, b, c, d; split; vm_compute; reflexivity. Qed.

(** C2, as amended: on every output with content each metric evaluates
    exactly four checks; a hard check gives 1.0 or 0.0, a soft presence
    check 1.0 or 0.5, the keyword-count check 1.0 or else 0.3 in the code
    metric and 0.5 in the documentation metric; the score is the mean of
    the four partial scores, computed in floats, and so the exact mean of
    their decimal values up to rounding. *)
Theorem four_checks_mean (p : Prediction) :
  no_content (code_output p) = false ->
  let code := code_output p in
  let ts1 := TypeScriptMetric.has_ts_syntax code in
  let ts2 := TypeScriptMetric.has_functions code in
  let ts3 := TypeScriptMetric.has_error_handling code in
  let ts4 := TypeScriptMetric.has_exports code in
  let doc1 := TestDocMetric.has_test_structure code in
  let doc2 := TestDocMetric.has_test_content code in
  let doc3 := TestDocMetric.has_headers code in
  let doc4 := TestDocMetric.has_structure code in
  (List.length (fst (TypeScriptMetric.run_checks code)) = 4 /\
   fst (TypeScriptMetric.run_checks code) =
     [threshold ts1; hard ts2; soft ts3; soft ts4] /\
   score (TypeScriptMetric.call p) =
     mean4 (threshold ts1) (hard ts2) (soft ts3) (soft ts4) /\
   rounds (score (TypeScriptMetric.call p))
          (mean4_Q (threshold_Q ts1) (hard_Q ts2) (soft_Q ts3) (soft_Q ts4)) = true) /\
  (List.length (fst (TestDocMetric.run_checks code)) = 4 /\
   fst (TestDocMetric.run_checks code) =
     [hard doc1; soft doc2; soft doc3; soft doc4] /\
   score (TestDocMetric.call p) =
     mean4 (hard doc1) (soft doc2) (soft doc3) (soft doc4) /\
   rounds (score (TestDocMetric.call p))
          (mean4_Q (hard_Q doc1) (soft_Q doc2) (soft_Q doc3) (soft_Q doc4)) = true) /\
  (forall m x, In x (fst (match m with
                          | TypeScript => TypeScriptMetric.run_checks code
                          | TestDoc => TestDocMetric.run_checks code
                          end)) ->
               x = 0.0%float \/ x = 0.3%float \/ x = 0.5%float \/ x = 1.0%float).
Proof.
  intros H code ts1 ts2 ts3 ts4 doc1 doc2 doc3 doc4.
  repeat split; try reflexivity.
  - exact (ts_score_outcomes p H).
  - rewrite (ts_score_outcomes p H). apply mean4_rounds.
  - exact (doc_score_outcomes p H).
  - rewrite (doc_score_outcomes p H). apply mean4_rounds.
  - intros m x Hx. destruct m.
    + rewrite ts_partials in Hx. simpl in Hx. unfold threshold, hard, soft in Hx.
      destruct (TypeScriptMetric.has_ts_syntax _), (TypeScriptMetric.has_functions _),
        (TypeScriptMetric.has_error_handling _), (TypeScriptMetric.has_exports _);
        intuition (subst; auto).
    + rewrite doc_partials in Hx. simpl in Hx. unfold hard, soft in Hx.
      destruct (TestDocMetric.has_test_structure _), (TestDocMetric.has_test_content _),
        (TestDocMetric.has_headers _), (TestDocMetric.has_structure _);
        intuition (subst; auto).
Qed.

Lemma four_checks_mean_witness :
  no_content "hello" = false /\
  score (TestDocMetric.call (mkPrediction "hello" None "")) = 0.375%float /\
  score (TypeScriptMetric.call (mkPrediction "hello" None "")) = 0.325%float.
Proof.
  split; [reflexivity|].
  destruct (four_checks_mean (mkPrediction "hello" None "") eq_refl)
    as ((_ & _ & Hts & _) & (_ & _ & Hdoc & _) & _).
  split; [rewrite Hdoc | rewrite Hts]; reflexivity.
Defined.

(** C2, as stated, fails for the documentation metric: on the text [hello]
    the keyword-count check is not met, and its partial score is 0.5, not
    the 0.3 of a count threshold. *)
Lemma count_threshold_counterexample :
  no_content "hello" = false /\
  TestDocMetric.has_test_content "hello" = false /\
  nth 1 (fst (TestDocMetric.run_checks "hello")) 0%float = 0.5%float /\
  nth 1 (fst (TestDocMetric.run_checks "hello")) 0%float <> threshold false /\
  fst (TestDocMetric.run_checks "hello") <> doc_partials_threshold "hello".
Proof.
  repeat split; try reflexivity.
  - vm_compute. float_neq.
  - intros E. apply (f_equal (fun l => nth 1 l 0%float)) in E.
    vm_compute in E. revert E. float_neq.
Qed.

(** ** White space and the patterns *)

Ltac each_char c := destruct c as [[] [] [] [] [] [] [] []].

Lemma lower_of_space (c : ascii) : isspace c = true -> lower c = c.
Proof. each_char c; intros H; try reflexivity; discriminate H. Qed.

Lemma isspace_lower (c : ascii) : isspace (lower c) = isspace c.
Proof. each_char c; reflexivity. Qed.

Lemma isword_not_space (c : ascii) : isword c = true -> isspace c = false.
Proof. each_char c; intros H; try reflexivity; discriminate H. Qed.

Lemma chr_match_space (fl : flags) (a c : ascii) :
  isspace c = true -> isspace a = false -> chr_match fl a c = false.
Proof.
  intros Hc Ha. unfold chr_match. destruct (IGNORECASE fl).
  - rewrite (lower_of_space _ Hc). apply Ascii.eqb_neq. intros E.
    rewrite E, isspace_lower in Hc. congruence.
  - apply Ascii.eqb_neq. intros E. congruence.
Qed.

Lemma all_space_lower (s : string) : all_space (str_lower s) = all_space s.
Proof.
  induction s as [|c s IH]; simpl; [reflexivity|].
  rewrite isspace_lower, IH. reflexivity.
Qed.

Section BlankSubject.
Variable fl : flags.

Lemma star_blank (c : cls) (k : cont) :
  fails_on_blank k -> fails_on_blank (fun p s g => star fl c p s g k).
Proof.
  intros Hk p s. revert p. induction s as [|a s IH]; intros p g Hs; simpl.
  - apply Hk; reflexivity.
  - simpl in Hs. apply andb_prop in Hs as [Ha Hs].
    rewrite (IH _ _ Hs), (Hk p (String a s) g) by (simpl; rewrite Ha, Hs; reflexivity).
    destruct (cls_match fl c a); reflexivity.
Qed.

Lemma star_lazy_blank (c : cls) (k : cont) :
  fails_on_blank k -> fails_on_blank (fun p s g => star_lazy fl c p s g k).
Proof.
  intros Hk p s. revert p. induction s as [|a s IH]; intros p g Hs; simpl.
  - rewrite (Hk p "" g) by reflexivity. reflexivity.
  - rewrite (Hk p (String a s) g) by exact Hs.
    simpl in Hs. apply andb_prop in Hs as [Ha Hs].
    rewrite (IH _ _ Hs). destruct (cls_match fl c a); reflexivity.
Qed.

Lemma exec_blank (r : regex) :
  forall k, fails_on_blank k -> fails_on_blank (fun p s g => exec fl r p s g k).
Proof.
  induction r as [|c|r1 IH1 r2 IH2|r1 IH1 r2 IH2|c|c|n r IH| | |r IH];
    intros k Hk p s g Hs; simpl.
  - apply Hk, Hs.
  - destruct s as [|a s]; [reflexivity|].
    simpl in Hs. apply andb_prop in Hs as [_ Hs].
    rewrite (Hk _ _ _ Hs). destruct (cls_match fl c a); reflexivity.
  - apply (IH1 (fun p' s' g' => exec fl r2 p' s' g' k)); [|exact Hs].
    apply IH2, Hk.
  - rewrite (IH1 k Hk p s g Hs). apply (IH2 k Hk p s g Hs).
  - apply (star_blank c k Hk p s g Hs).
  - apply (star_lazy_blank c k Hk p s g Hs).
  - apply (IH (fun p' s' g' => k p' s' ((n, consumed s s') :: g'))); [|exact Hs].
    intros p' s' g' Hs'. apply Hk, Hs'.
  - rewrite (Hk _ _ _ Hs). destruct (at_bol fl p); reflexivity.
  - rewrite (Hk _ _ _ Hs). destruct (at_eos fl s); reflexivity.
  - destruct (exec fl r p s g (done)) as [[? ?]|]; [apply Hk, Hs | reflexivity].
Qed.

Lemma exec_eats_nonspace (r : regex) :
  eats_nonspace r = true ->
  forall k, fails_on_blank (fun p s g => exec fl r p s g k).
Proof.
  induction r as [|c|r1 IH1 r2 IH2|r1 IH1 r2 IH2|c|c|n r IH| | |r IH];
    simpl; intros He k p s g Hs; try discriminate He.
  - destruct s as [|a s]; [reflexivity|].
    simpl in Hs. apply andb_prop in Hs as [Ha _].
    assert (Hm : cls_match fl c a = false).
    { destruct c; try discriminate He; simpl.
      - destruct (isword a) eqn:Hw; [|reflexivity].
        apply isword_not_space in Hw. congruence.
      - apply chr_match_space; [exact Ha|].
        apply negb_true_iff in He. exact He.
      - induction l as [|b l IHl]; simpl; [reflexivity|].
        simpl in He. apply andb_prop in He as [Hb Hl].
        rewrite chr_match_space; [apply IHl, Hl | exact Ha |].
        apply negb_true_iff in Hb. exact Hb. }
    rewrite Hm. reflexivity.
  - apply orb_prop in He as [He|He].
    + apply (IH1 He _ p s g Hs).
    + apply (exec_blank r1 (fun p' s' g' => exec fl r2 p' s' g' k)); [|exact Hs].
      intros p' s' g' Hs'. apply (IH2 He k p' s' g' Hs').
  - apply andb_prop in He as [He1 He2].
    rewrite (IH1 He1 k p s g Hs). apply (IH2 He2 k p s g Hs).
  - apply (IH He _ p s g Hs).
Qed.

Lemma search_blank (r : regex) :
  eats_nonspace r = true ->
  forall s i p, all_space s = true -> search_from fl r i p s = None.
Proof.
  intros He s. induction s as [|a s IH]; intros i p Hs; simpl; unfold match_at;
    rewrite (exec_eats_nonspace r He done p _ [] Hs); [reflexivity|].
  simpl in Hs. apply andb_prop in Hs as [_ Hs]. apply IH, Hs.
Qed.
End BlankSubject.

Lemma str_in_blank (kw s : string) (a : ascii) (kw' : string) :
  kw = String a kw' -> isspace a = false ->
  all_space s = true -> str_in kw s = false.
Proof.
  intros -> Ha. induction s as [|c s IH]; intros Hs; [reflexivity|].
  simpl in Hs. apply andb_prop in Hs as [Hc Hs].
  simpl. destruct (ascii_dec a c) as [E|_]; [congruence|].
  simpl. apply IH, Hs.
Qed.

Ltac no_keyword Hs :=
  repeat (erewrite str_in_blank by (try exact Hs; reflexivity)).

(** A text made of white space only satisfies no check of either metric. *)
Lemma outcomes_blank (m : metric) (code : string) :
  all_space code = true -> outcomes m code = [false; false; false; false].
Proof.
  intros Hs. destruct m; unfold outcomes.
  - unfold TypeScriptMetric.has_ts_syntax, TypeScriptMetric.keyword_count,
      TypeScriptMetric.has_functions, TypeScriptMetric.has_error_handling,
      TypeScriptMetric.has_exports, re_search, count_if, TypeScriptMetric.ts_keywords.
    rewrite !search_blank by (try exact Hs; reflexivity).
    simpl filter. no_keyword Hs. reflexivity.
  - unfold TestDocMetric.has_test_structure, TestDocMetric.has_test_content,
      TestDocMetric.keyword_count, TestDocMetric.has_headers,
      TestDocMetric.has_structure, re_search, count_if, TestDocMetric.test_keywords.
    rewrite !search_blank by (try exact Hs; reflexivity).
    assert (Hl : all_space (str_lower code) = true)
      by (rewrite all_space_lower; exact Hs).
    simpl filter. no_keyword Hl. reflexivity.
Qed.

(** The scores a text with content can get, by metric. *)
Lemma ts_score_range (p : Prediction) :
  no_content (code_output p) = false ->
  (0.325 <=? score (TypeScriptMetric.call p))%float = true /\
  (score (TypeScriptMetric.call p) <=? 1.0)%float = true /\
  (0.0 <? score (TypeScriptMetric.call p))%float = true.
Proof.
  intros H. rewrite (ts_score_outcomes p H).
  destruct (TypeScriptMetric.has_ts_syntax _), (TypeScriptMetric.has_functions _),
    (TypeScriptMetric.has_error_handling _), (TypeScriptMetric.has_exports _);
    repeat split; reflexivity.
Qed.

Lemma doc_score_range (p : Prediction) :
  no_content (code_output p) = false ->
  (0.375 <=? score (TestDocMetric.call p))%float = true /\
  (score (TestDocMetric.call p) <=? 1.0)%float = true /\
  (0.0 <? score (TestDocMetric.call p))%float = true.
Proof.
  intros H. rewrite (doc_score_outcomes p H).
  destruct (TestDocMetric.has_test_structure _), (TestDocMetric.has_test_content _),
    (TestDocMetric.has_headers _), (TestDocMetric.has_structure _);
    repeat split; reflexivity.
Qed.

Lemma score_from_outcomes (m : metric) (p : Prediction) :
  no_content (code_output p) = false ->
  score (metric_call m p) = score_of_outcomes m (outcomes m (code_output p)).
Proof.
  intros H. destruct m; simpl.
  - apply ts_score_outcomes, H.
  - apply doc_score_outcomes, H.
Qed.

Lemma score_blank (m : metric) (p : Prediction) :
  no_content (code_output p) = true -> score (metric_call m p) = 0.0%float.
Proof.
  intros H. rewrite no_content_all_space in H.
  rewrite (blank_output_result m p H). reflexivity.
Qed.

Lemma differ_only_at_four (k : nat) (a1 b1 c1 d1 a2 b2 c2 d2 : bool) :
  differ_only_at k [a1; b1; c1; d1] [a2; b2; c2; d2] ->
  (k = 0 /\ a1 = true /\ a2 = false /\ b1 = b2 /\ c1 = c2 /\ d1 = d2) \/
  (k = 1 /\ b1 = true /\ b2 = false /\ a1 = a2 /\ c1 = c2 /\ d1 = d2) \/
  (k = 2 /\ c1 = true /\ c2 = false /\ a1 = a2 /\ b1 = b2 /\ d1 = d2) \/
  (k = 3 /\ d1 = true /\ d2 = false /\ a1 = a2 /\ b1 = b2 /\ c1 = c2).
Proof.
  intros (H1 & H2 & H).
  pose proof (H 0) as H0'. pose proof (H 1) as H1'.
  pose proof (H 2) as H2'. pose proof (H 3) as H3'. simpl in *.
  destruct k as [|[|[|[|k]]]]; simpl in *.
  - left. repeat split; auto.
  - right; left. repeat split; auto.
  - right; right; left. repeat split; auto.
  - right; right; right. repeat split; auto.
  - destruct k; discriminate H1.
Qed.

Lemma score_of_outcomes_monotone (m : metric) (k : nat)
      (a1 b1 c1 d1 a2 b2 c2 d2 : bool) :
  differ_only_at k [a1; b1; c1; d1] [a2; b2; c2; d2] ->
  (score_of_outcomes m [a2; b2; c2; d2] <=? score_of_outcomes m [a1; b1; c1; d1])%float
  = true.
Proof.
  intros H. apply differ_only_at_four in H.
  destruct H as [H|[H|[H|H]]]; destruct H as (_ & -> & -> & -> & -> & ->);
    destruct m; repeat match goal with b : bool |- _ => destruct b end;
    reflexivity.
Qed.

(** C8: for each metric the score is monotone in the satisfaction of a
    single check: if the four outcomes of two texts agree except for one
    check that the first text satisfies and the second does not, the score
    of the first is at least the score of the second. *)
Theorem score_monotone (m : metric) (p1 p2 : Prediction) (k : nat) :
  differ_only_at k (outcomes m (code_output p1)) (outcomes m (code_output p2)) ->
  (score (metric_call m p2) <=? score (metric_call m p1))%float = true.
Proof.
  intros H.
  destruct (no_content (code_output p1)) eqn:H1.
  - (* a blank first text satisfies no check *)
    exfalso. rewrite no_content_all_space in H1.
    rewrite (outcomes_blank m _ H1) in H. destruct H as (Hk & _).
    destruct k as [|[|[|[|[|k]]]]]; discriminate Hk.
  - destruct (no_content (code_output p2)) eqn:H2.
    + rewrite (score_blank m p2 H2), (score_from_outcomes m p1 H1).
      destruct m; simpl; unfold threshold, hard, soft;
        repeat match goal with |- context [if ?b then _ else _] => destruct b end;
        reflexivity.
    + rewrite (score_from_outcomes m p1 H1), (score_from_outcomes m p2 H2).
      destruct m; simpl in H.
      * exact (score_of_outcomes_monotone TypeScript k _ _ _ _ _ _ _ _ H).
      * exact (score_of_outcomes_monotone TestDoc k _ _ _ _ _ _ _ _ H).
Qed.

Lemma score_monotone_witness :
  differ_only_at 1 (outcomes TypeScript (code_output (with_output "class A")))
                   (outcomes TypeScript (code_output (with_output "hello"))) /\
  (score (metric_call TypeScript (with_output "hello"))
   <=? score (metric_call TypeScript (with_output "class A")))%float = true.
Proof.
  assert (H : differ_only_at 1
                (outcomes TypeScript (code_output (with_output "class A")))
                (outcomes TypeScript (code_output (with_output "hello")))).
  { split; [reflexivity|]. split; [reflexivity|].
    intros j Hj. destruct j as [|[|[|[|[|j]]]]]; try reflexivity.
    exfalso; apply Hj; reflexivity. }
  split; [exact H|]. exact (score_monotone TypeScript _ _ 1 H).
Defined.

(** C10: on every output with content the code metric scores at least
    0.325, the mean of the least partial scores 0.3, 0.0, 0.5 and 0.5, and
    the documentation metric at least 0.375, the mean of 0.0, 0.5, 0.5 and
    0.5; both score at most 1.0, and neither scores 0.0, so a score of 0.0
    occurs only for an empty or white-space-only output. *)
Theorem score_bounds_with_content (p : Prediction) :
  all_space (code_output p) = false ->
  ((0.325 <=? score (TypeScriptMetric.call p))%float = true /\
   (score (TypeScriptMetric.call p) <=? 1.0)%float = true /\
   (0.0 <? score (TypeScriptMetric.call p))%float = true /\
   score (TypeScriptMetric.call p) <> 0.0%float) /\
  ((0.375 <=? score (TestDocMetric.call p))%float = true /\
   (score (TestDocMetric.call p) <=? 1.0)%float = true /\
   (0.0 <? score (TestDocMetric.call p))%float = true /\
   score (TestDocMetric.call p) <> 0.0%float) /\
  mean4 0.3 0.0 0.5 0.5 = 0.325%float /\
  mean4 0.0 0.5 0.5 0.5 = 0.375%float.
Proof.
  intros H. rewrite <- no_content_all_space in H.
  destruct (ts_score_range p H) as (T1 & T2 & T3).
  destruct (doc_score_range p H) as (D1 & D2 & D3).
  repeat split; try assumption; try reflexivity.
  - rewrite (ts_score_outcomes p H). unfold threshold, hard, soft.
    repeat match goal with |- context [if ?b then _ else _] => destruct b end;
      float_neq.
  - rewrite (doc_score_outcomes p H). unfold hard, soft.
    repeat match goal with |- context [if ?b then _ else _] => destruct b end;
      float_neq.
Qed.

Lemma score_bounds_with_content_witness :
  all_space (code_output (with_output "hello")) = false /\
  score (TypeScriptMetric.call (with_output "hello")) = 0.325%float /\
  score (TestDocMetric.call (with_output "hello")) = 0.375%float /\
  (0.325 <=? score (TypeScriptMetric.call (with_output "hello")))%float = true /\
  (0.375 <=? score (TestDocMetric.call (with_output "hello")))%float = true.
Proof.
  split; [reflexivity|]. split; [reflexivity|]. split; [reflexivity|].
  destruct (score_bounds_with_content (with_output "hello") eq_refl)
    as ((T & _) & (D & _) & _).
  split; assumption.
Defined.

(** ** Occurrences and searches *)

Lemma append_assoc (a b c : string) : (a ++ b) ++ c = a ++ (b ++ c).
Proof. induction a as [|x a IH]; simpl; [reflexivity | rewrite IH; reflexivity]. Qed.

Lemma append_nil_r (a : string) : a ++ "" = a.
Proof. induction a as [|x a IH]; simpl; [reflexivity | rewrite IH; reflexivity]. Qed.

Lemma prefix_app (sub post : string) : prefix sub (sub ++ post) = true.
Proof.
  induction sub as [|a sub IH]; simpl; [destruct post; reflexivity|].
  destruct (ascii_dec a a) as [_|N]; [exact IH | contradiction N; reflexivity].
Qed.

Lemma str_in_app (sub pre t : string) :
  str_in sub t = true -> str_in sub (pre ++ t) = true.
Proof.
  intros H. induction pre as [|c pre IH]; simpl; [exact H|].
  rewrite IH. apply orb_true_r.
Qed.

Lemma str_in_unfold (sub s : string) :
  str_in sub s =
  prefix sub s || match s with "" => false | String _ s' => str_in sub s' end.
Proof. destruct s; reflexivity. Qed.

Lemma str_in_here (sub post : string) : str_in sub (sub ++ post) = true.
Proof. rewrite str_in_unfold, prefix_app. reflexivity. Qed.

(** The test [sub in s] holds when [sub] occurs in [s]. *)
Lemma str_in_contains (sub s : string) : contains sub s -> str_in sub s = true.
Proof.
  intros (pre & post & ->). apply str_in_app, str_in_here.
Qed.

Lemma contains_app_l (sub pre s : string) :
  contains sub s -> contains sub (pre ++ s).
Proof.
  intros (a & b & ->). exists (pre ++ a), b. rewrite append_assoc. reflexivity.
Qed.

Lemma contains_app_r (sub s post : string) :
  contains sub s -> contains sub (s ++ post).
Proof.
  intros (a & b & ->). exists a, (b ++ post). rewrite !append_assoc. reflexivity.
Qed.

Lemma all_space_app (a b : string) :
  all_space (a ++ b) = all_space a && all_space b.
Proof.
  induction a as [|x a IH]; simpl; [reflexivity|].
  rewrite IH, andb_assoc. reflexivity.
Qed.

Lemma contains_not_blank (sub s : string) :
  all_space sub = false -> contains sub s -> all_space s = false.
Proof.
  intros H (pre & post & ->). rewrite !all_space_app, H.
  rewrite andb_false_r. reflexivity.
Qed.

Lemma truthy_match_at (fl : flags) (r : regex) (i : nat) (p : option ascii)
      (s : string) :
  truthy (match_at fl r i p s) = matches_here fl r p s.
Proof.
  unfold match_at, matches_here.
  destruct (exec fl r p s [] done) as [[? ?]|]; reflexivity.
Qed.

(** A search succeeds as soon as the pattern matches at some position. *)
Lemma search_finds (fl : flags) (r : regex) (pre t : string) :
  forall i p,
    matches_here fl r (prev_after p pre) t = true ->
    truthy (search_from fl r i p (pre ++ t)) = true.
Proof.
  induction pre as [|c pre IH]; intros i p H; simpl in *.
  - destruct t; simpl; rewrite <- (truthy_match_at fl r i) in H;
      destruct (match_at fl r i p _); try reflexivity; discriminate H.
  - destruct (match_at fl r i p (String c (pre ++ t))); [reflexivity|].
    apply IH, H.
Qed.

Lemma re_search_finds (fl : flags) (r : regex) (s pre t : string) :
  s = pre ++ t ->
  matches_here fl r (prev_after None pre) t = true ->
  truthy (re_search r s fl) = true.
Proof. intros -> H. apply search_finds, H. Qed.

Lemma take_drop (n : nat) (s : string) : str_take n s ++ str_drop n s = s.
Proof.
  revert s. induction n as [|n IH]; intros [|c s]; simpl; try reflexivity.
  rewrite IH. reflexivity.
Qed.

(** An occurrence of [w], cut after its first [n] characters. *)
Lemma split_occurrence (n : nat) (pre w post : string) :
  pre ++ w ++ post = (pre ++ str_take n w) ++ (str_drop n w ++ post).
Proof.
  rewrite <- (take_drop n w) at 1. rewrite !append_assoc. reflexivity.
Qed.

(** A search succeeds when the pattern matches [n] characters into an
    occurrence of [w], whatever comes before and after. *)
Lemma re_search_in_occurrence (fl : flags) (r : regex) (n : nat) (w s : string) :
  contains w s ->
  (forall q post, matches_here fl r q (str_drop n w ++ post) = true) ->
  truthy (re_search r s fl) = true.
Proof.
  intros (pre & post & ->) H.
  apply (re_search_finds fl r _ _ _ (split_occurrence n pre w post)), H.
Qed.

Lemma ts_keyword_count_sample (text : string) :
  contains ts_snippet text -> contains "interface" text ->
  contains "type" text -> contains "async" text ->
  TypeScriptMetric.has_ts_syntax text = true.
Proof.
  intros Hs Hi Ht Ha.
  unfold TypeScriptMetric.has_ts_syntax, TypeScriptMetric.keyword_count,
    count_if, TypeScriptMetric.ts_keywords.
  simpl filter.
  rewrite (str_in_contains _ _ Hi), (str_in_contains _ _ Ht),
    (str_in_contains _ _ Ha).
  destruct (str_in "export" text), (str_in "import" text),
    (str_in "await" text), (str_in "Promise" text); reflexivity.
Qed.

(** C4: a text that contains
    [export function foo() { try {} catch(e) { throw new Error(e) } }]
    and the keywords [interface], [type] and [async] satisfies the four
    checks of the code metric and scores exactly 1.0. *)
Theorem ts_sample_scores_one (text : string) :
  contains ts_snippet text -> contains "interface" text ->
  contains "type" text -> contains "async" text ->
  outcomes TypeScript text = [true; true; true; true] /\
  score (TypeScriptMetric.call (with_output text)) = 1.0%float.
Proof.
  intros Hs Hi Ht Ha.
  assert (H1 : TypeScriptMetric.has_ts_syntax text = true)
    by (apply ts_keyword_count_sample; assumption).
  assert (H2 : TypeScriptMetric.has_functions text = true).
  { apply (re_search_in_occurrence no_flags _ 7 ts_snippet text Hs).
    intros q post. reflexivity. }
  assert (H3 : TypeScriptMetric.has_error_handling text = true).
  { apply (re_search_in_occurrence no_flags _ 24 ts_snippet text Hs).
    intros q post. reflexivity. }
  assert (H4 : TypeScriptMetric.has_exports text = true).
  { apply (re_search_in_occurrence no_flags _ 0 ts_snippet text Hs).
    intros q post. reflexivity. }
  assert (Hn : no_content (code_output (with_output text)) = false).
  { rewrite no_content_all_space.
    apply (contains_not_blank ts_snippet); [reflexivity | exact Hs]. }
  split.
  - simpl. rewrite H1, H2, H3, H4. reflexivity.
  - rewrite (ts_score_outcomes _ Hn). simpl code_output.
    rewrite H1, H2, H3, H4. reflexivity.
Qed.

Lemma ts_sample_scores_one_witness :
  contains ts_snippet ts_sample /\ contains "interface" ts_sample /\
  contains "type" ts_sample /\ contains "async" ts_sample /\
  score (TypeScriptMetric.call (with_output ts_sample)) = 1.0%float.
Proof.
  assert (Hs : contains ts_snippet ts_sample)
    by (exists "interface Foo {} type T = Foo; async ", ""; reflexivity).
  assert (Hi : contains "interface" ts_sample)
    by (exists "", (" Foo {} type T = Foo; async " ++ ts_snippet); reflexivity).
  assert (Ht : contains "type" ts_sample)
    by (exists "interface Foo {} ", (" T = Foo; async " ++ ts_snippet); reflexivity).
  assert (Ha : contains "async" ts_sample)
    by (exists "interface Foo {} type T = Foo; ", (" " ++ ts_snippet); reflexivity).
  repeat (split; [assumption|]).
  exact (proj2 (ts_sample_scores_one ts_sample Hs Hi Ht Ha)).
Defined.

Lemma prev_after_app (p : option ascii) (a b : string) :
  prev_after p (a ++ b) = prev_after (prev_after p a) b.
Proof. revert p. induction a as [|c a IH]; intros p; simpl; [reflexivity | apply IH]. Qed.

Lemma line_start_bol (fl : flags) (pre : string) :
  MULTILINE fl = true -> line_start pre ->
  at_bol fl (prev_after None pre) = true.
Proof.
  intros Hm [->|(pre' & ->)]; [reflexivity|].
  rewrite prev_after_app. simpl. rewrite Hm. reflexivity.
Qed.

(** The header check finds a level-one header line. *)
Lemma has_headers_header_line (text : string) :
  has_header_line text -> TestDocMetric.has_headers text = true.
Proof.
  intros (pre & w & rest & E & Hl & Hw).
  apply (re_search_finds _ _ _ _ _ E).
  unfold matches_here, TestDocMetric.headers_re.
  cbn -[at_bol isspace isword].
  rewrite (line_start_bol (Flags false true false) pre eq_refl Hl).
  cbn -[isspace isword]. rewrite (isword_not_space _ Hw), Hw. reflexivity.
Qed.

(** The list and code block check finds a fence. *)
Lemma has_structure_fenced_block (text : string) :
  has_fenced_block text -> TestDocMetric.has_structure text = true.
Proof.
  intros (pre & body & post & E).
  apply (re_search_finds _ _ _ _ _ E).
  unfold matches_here, TestDocMetric.structure_re.
  cbn -[at_bol]. destruct (at_bol _ _); reflexivity.
Qed.

(** C3, as amended: a text that contains
    [describe("x", () => { it("y", () => { expect(1).toBe(1) }) })], a
    level-one [#] header line and a fenced code block satisfies the
    structure, header and block checks of the documentation metric; it
    scores exactly 1.0 when at least three of the test keywords occur in it
    (the sample itself brings only [expect]), and 0.875 otherwise. *)
Theorem doc_sample_score (text : string) :
  contains doc_snippet text -> has_header_line text -> has_fenced_block text ->
  outcomes TestDoc text =
    [true; (3 <=? TestDocMetric.keyword_count text)%nat; true; true] /\
  score (TestDocMetric.call (with_output text)) =
    (if (3 <=? TestDocMetric.keyword_count text)%nat then 1.0 else 0.875)%float.
Proof.
  intros Hs Hh Hf.
  assert (H1 : TestDocMetric.has_test_structure text = true).
  { apply (re_search_in_occurrence _ _ 0 doc_snippet text Hs).
    intros q post. reflexivity. }
  assert (H3 : TestDocMetric.has_headers text = true)
    by (apply has_headers_header_line, Hh).
  assert (H4 : TestDocMetric.has_structure text = true)
    by (apply has_structure_fenced_block, Hf).
  assert (Hn : no_content (code_output (with_output text)) = false).
  { rewrite no_content_all_space.
    apply (contains_not_blank doc_snippet); [reflexivity | exact Hs]. }
  split.
  - simpl. rewrite H1, H3, H4. reflexivity.
  - rewrite (doc_score_outcomes _ Hn). simpl code_output.
    rewrite H1, H3, H4. unfold TestDocMetric.has_test_content.
    destruct (3 <=? TestDocMetric.keyword_count text)%nat; reflexivity.
Qed.

Lemma doc_sample_plain_shape :
  contains doc_snippet doc_sample_plain /\ has_header_line doc_sample_plain /\
  has_fenced_block doc_sample_plain.
Proof.
  split; [|split].
  - exists ("# Title" ++ NL ++ "```" ++ NL), (NL ++ "```"). reflexivity.
  - exists "", "T"%char, ("itle" ++ NL ++ "```" ++ NL ++ doc_snippet ++ NL ++ "```").
    split; [reflexivity|]. split; [left; reflexivity | reflexivity].
  - exists ("# Title" ++ NL), (NL ++ doc_snippet ++ NL), "". reflexivity.
Qed.

Lemma doc_sample_rich_shape :
  contains doc_snippet doc_sample_rich /\ has_header_line doc_sample_rich /\
  has_fenced_block doc_sample_rich.
Proof.
  split; [|split].
  - exists ("# Test checks" ++ NL ++ "```" ++ NL), (NL ++ "```"). reflexivity.
  - exists "", "T"%char,
      ("est checks" ++ NL ++ "```" ++ NL ++ doc_snippet ++ NL ++ "```").
    split; [reflexivity|]. split; [left; reflexivity | reflexivity].
  - exists ("# Test checks" ++ NL), (NL ++ doc_snippet ++ NL), "". reflexivity.
Qed.

Lemma doc_sample_score_witness :
  (contains doc_snippet doc_sample_rich /\ has_header_line doc_sample_rich /\
   has_fenced_block doc_sample_rich) /\
  score (TestDocMetric.call (with_output doc_sample_rich)) = 1.0%float.
Proof.
  split; [exact doc_sample_rich_shape|].
  destruct doc_sample_rich_shape as (Hs & Hh & Hf).
  rewrite (proj2 (doc_sample_score doc_sample_rich Hs Hh Hf)). reflexivity.
Defined.

(** C3, as stated, fails: this text contains the sample, a [#] header line
    and a fenced code block, and scores 0.875. *)
Lemma doc_sample_counterexample :
  (contains doc_snippet doc_sample_plain /\ has_header_line doc_sample_plain /\
   has_fenced_block doc_sample_plain) /\
  score (TestDocMetric.call (with_output doc_sample_plain)) = 0.875%float /\
  score (TestDocMetric.call (with_output doc_sample_plain)) <> 1.0%float.
Proof.
  split; [exact doc_sample_plain_shape|].
  split; [reflexivity|]. vm_compute. float_neq.
Qed.

(** ** The model adapters *)

Lemma adapter_forward_returns (k : adapter_kind) (run : process) (self : Adapter)
      (story tech : string) :
  exists p, adapter_forward k run self story tech = Ret p.
Proof.
  destruct k; simpl;
    [unfold TypeScriptCodeAdapter.forward | unfold TestDocAdapter.forward];
    match goal with |- context [run ?a] => destruct (run a) end;
    simpl; eexists; reflexivity.
Qed.

(** C5: whatever exception the external invocation raises (a timeout, a
    missing binary, ...), [forward] of either adapter does not raise: it
    returns a prediction whose [code_output] is empty and whose [reasoning]
    is the non-empty text [Error: ] followed by the description of the
    exception.  It returns a prediction for every behaviour of the
    process. *)
Theorem adapter_never_raises (k : adapter_kind) (run : process) (self : Adapter)
        (story tech : string) (e : exn) :
  run (adapter_argv k self story tech) = Raise e ->
  (exists p, adapter_forward k run self story tech = Ret p /\
             code_output p = "" /\
             reasoning p = "Error: " ++ str_exn e /\
             reasoning p <> "") /\
  (forall run', exists p, adapter_forward k run' self story tech = Ret p).
Proof.
  intros H. split; [|intros run'; apply adapter_forward_returns].
  destruct k; simpl in *;
    [unfold TypeScriptCodeAdapter.forward | unfold TestDocAdapter.forward];
    rewrite H; simpl; eexists; (split; [reflexivity|]); simpl;
    repeat split; discriminate.
Qed.

Lemma adapter_never_raises_witness :
  missing_binary (adapter_argv TestDocumentation (mkAdapter "/no/such/gemini" [] "Be brief.")
                               "story" "Jest") =
    Raise (Exception "FileNotFoundError"
                     "[Errno 2] No such file or directory: '/no/such/gemini'") /\
  exists p, adapter_forward TestDocumentation missing_binary
                            (mkAdapter "/no/such/gemini" [] "Be brief.") "story" "Jest"
            = Ret p /\
            code_output p = "" /\
            reasoning p = "Error: [Errno 2] No such file or directory: '/no/such/gemini'" /\
            reasoning p <> "".
Proof.
  split; [reflexivity|].
  exact (proj1 (adapter_never_raises TestDocumentation missing_binary
                  (mkAdapter "/no/such/gemini" [] "Be brief.") "story" "Jest"
                  _ eq_refl)).
Defined.

(** ** The evolution driver *)

Lemma last_char_app_cons (a : string) (c : ascii) (b : string) :
  last_char (a ++ String c b) = last_char (String c b).
Proof.
  induction a as [|x a IH]; [reflexivity|].
  simpl append. rewrite <- IH. simpl.
  destruct (a ++ String c b) eqn:E; [|reflexivity].
  destruct a; discriminate E.
Qed.

Lemma last_char_app_nonempty (a b : string) :
  b <> "" -> last_char (a ++ b) = last_char b.
Proof.
  destruct b as [|c b]; [intros H; contradiction H; reflexivity|].
  intros _. apply last_char_app_cons.
Qed.

Lemma last_char_app_some (a b : string) (c : ascii) :
  last_char b = Some c -> last_char (a ++ b) = Some c.
Proof.
  intros H. rewrite last_char_app_nonempty; [exact H|].
  intros ->. discriminate H.
Qed.

Ltac last_char_of := unfold path_join; repeat apply last_char_app_some; reflexivity.

Lemma results_path_last (output_dir skill_name ts : string) :
  last_char (results_path_of output_dir skill_name ts) = Some "n"%char.
Proof. unfold results_path_of. last_char_of. Qed.

Lemma target_path_last (repo_root skill_name : string) :
  last_char (target_path_of repo_root skill_name) = Some "d"%char.
Proof. unfold target_path_of. last_char_of. Qed.

Lemma diff_path_last (repo_root skill_name ts : string) :
  last_char (diff_path_of repo_root skill_name ts) = Some "f"%char.
Proof. unfold diff_path_of. last_char_of. Qed.

(** The summary is never written over the instruction or the diff. *)
Lemma results_path_apart (output_dir repo_root skill_name ts : string) :
  results_path_of output_dir skill_name ts <> target_path_of repo_root skill_name /\
  results_path_of output_dir skill_name ts <> diff_path_of repo_root skill_name ts.
Proof.
  split; intros E; apply (f_equal last_char) in E;
    rewrite results_path_last in E;
    [rewrite target_path_last in E | rewrite diff_path_last in E];
    discriminate E.
Qed.

Section DriverFacts.
Variable unified_diff : string -> string -> list string.
Variable compile : Adapter -> list Example -> res Adapter.
Variables skill_name cat repo_root output_dir gemini_bin ts : string.
Variable max_rollouts : nat.
Variables (baseline_content : string) (stories demo_strings : list string).
Variable optimized : Adapter.

Hypothesis some_story : stories <> [].
Hypothesis compiled :
  compile (mkAdapter gemini_bin demo_strings baseline_content)
          (firstn max_rollouts (trainset_of stories)) = Ret optimized.

(** The log and the result when the optimizer hands back the baseline. *)
Lemma run_unchanged :
  instructions optimized = baseline_content ->
  run_optimization unified_diff compile skill_name cat repo_root max_rollouts
                   output_dir gemini_bin ts baseline_content stories
                   demo_strings true =
  ([Mkdir output_dir;
    WriteText (results_path_of output_dir skill_name ts)
              (dumps_summary (summary_of skill_name cat ts baseline_content
                                         (instructions optimized)))],
   Ret (Some (summary_of skill_name cat ts baseline_content
                         (instructions optimized)))).
Proof.
  intros E. unfold run_optimization.
  destruct stories as [|st sts]; [contradiction some_story; reflexivity|].
  cbv beta iota zeta. simpl negb. cbv iota. rewrite compiled.
  unfold io_lift, io_bind at 1, io_try. cbv beta iota.
  unfold summary_of. rewrite E, String.eqb_refl. reflexivity.
Qed.

(** The log and the result when the optimizer hands back another text. *)
Lemma run_changed :
  instructions optimized <> baseline_content ->
  run_optimization unified_diff compile skill_name cat repo_root max_rollouts
                   output_dir gemini_bin ts baseline_content stories
                   demo_strings true =
  (([WriteText (target_path_of repo_root skill_name) (instructions optimized);
     Mkdir (path_join output_dir "skill_versions");
     WriteText (path_join (path_join output_dir "skill_versions")
                          ("adapter_md_" ++ ts ++ ".md")) (instructions optimized);
     Mkdir (path_join (path_join (path_join repo_root "skills") skill_name) "diffs")]
    ++ match unified_diff baseline_content (instructions optimized) with
       | [] => []
       | d => [WriteText (diff_path_of repo_root skill_name ts) (concat "" d)]
       end
    ++ [Mkdir output_dir;
        WriteText (results_path_of output_dir skill_name ts)
                  (dumps_summary (summary_of skill_name cat ts baseline_content
                                             (instructions optimized)))])%list,
   Ret (Some (summary_of skill_name cat ts baseline_content
                         (instructions optimized)))).
Proof.
  intros N. unfold run_optimization.
  destruct stories as [|st sts]; [contradiction some_story; reflexivity|].
  cbv beta iota zeta. simpl negb. cbv iota. rewrite compiled.
  unfold io_lift, io_bind at 1, io_try. cbv beta iota.
  unfold summary_of.
  apply String.eqb_neq in N. rewrite N.
  unfold save_optimized_skill.
  destruct (unified_diff baseline_content (instructions optimized)); reflexivity.
Qed.
End DriverFacts.

(** C7: when the optimizer returns, the [changed] field of the summary (the
    dictionary returned and dumped as JSON) is true exactly when the final
    instruction differs from the baseline as a string; the instruction file
    [adapter.md] and the diff file are written only in that case, and when
    the two texts are identical the only file written is the summary. *)
Theorem changed_flag_and_writes
        (unified_diff : string -> string -> list string)
        (compile : Adapter -> list Example -> res Adapter)
        (skill_name cat repo_root output_dir gemini_bin ts : string)
        (max_rollouts : nat) (baseline_content : string)
        (stories demo_strings : list string) (optimized : Adapter) :
  stories <> [] ->
  compile (mkAdapter gemini_bin demo_strings baseline_content)
          (firstn max_rollouts (trainset_of stories)) = Ret optimized ->
  let final_instruction := instructions optimized in
  let sm := summary_of skill_name cat ts baseline_content final_instruction in
  exists log,
    run_optimization unified_diff compile skill_name cat repo_root max_rollouts
                     output_dir gemini_bin ts baseline_content stories
                     demo_strings true = (log, Ret (Some sm)) /\
    (changed sm = true <-> final_instruction <> baseline_content) /\
    (changed sm = false <-> final_instruction = baseline_content) /\
    In (WriteText (results_path_of output_dir skill_name ts) (dumps_summary sm)) log /\
    (forall content,
        In (WriteText (target_path_of repo_root skill_name) content) log ->
        final_instruction <> baseline_content) /\
    (forall content,
        In (WriteText (diff_path_of repo_root skill_name ts) content) log ->
        final_instruction <> baseline_content) /\
    (final_instruction <> baseline_content ->
     In (WriteText (target_path_of repo_root skill_name) final_instruction) log) /\
    (final_instruction = baseline_content ->
     log = [Mkdir output_dir;
            WriteText (results_path_of output_dir skill_name ts) (dumps_summary sm)]).
Proof.
  intros Hs Hc final_instruction sm.
  assert (Hflag : (changed sm = true <-> final_instruction <> baseline_content) /\
                  (changed sm = false <-> final_instruction = baseline_content)).
  { unfold sm, summary_of; simpl.
    destruct (String.eqb_spec final_instruction baseline_content) as [E|N]; simpl;
      split; split; intros; try congruence; try reflexivity; try contradiction. }
  destruct (string_dec final_instruction baseline_content) as [E|N].
  - eexists. split.
    { apply (run_unchanged unified_diff compile skill_name cat repo_root output_dir
                           gemini_bin ts max_rollouts baseline_content stories
                           demo_strings optimized Hs Hc E). }
    split; [apply Hflag|]. split; [apply Hflag|].
    destruct (results_path_apart output_dir repo_root skill_name ts) as [Nt Nd].
    repeat split.
    + right; left; reflexivity.
    + intros content [H|[H|[]]]; [discriminate H|]. congruence.
    + intros content [H|[H|[]]]; [discriminate H|]. congruence.
    + intros N. contradiction.
  - eexists. split.
    { apply (run_changed unified_diff compile skill_name cat repo_root output_dir
                         gemini_bin ts max_rollouts baseline_content stories
                         demo_strings optimized Hs Hc N). }
    split; [apply Hflag|]. split; [apply Hflag|].
    repeat split.
    + apply in_or_app. right. apply in_or_app. right. right; left; reflexivity.
    + intros _ _. exact N.
    + intros _ _. exact N.
    + intros _. left; reflexivity.
    + intros E. contradiction.
Qed.

Lemma changed_flag_and_writes_witness :
  exists log,
    run_optimization two_line_diff (compile_to "Write tests first.")
                     "qa-engineer" "cli" "/repo" 10 "/out" "gemini" "20260101_120000"
                     "Write tests." ["story one"] [] true
    = (log, Ret (Some (summary_of "qa-engineer" "cli" "20260101_120000"
                                  "Write tests." "Write tests first."))) /\
    In (WriteText "/repo/skills/qa-engineer/adapter.md" "Write tests first.") log /\
    In (WriteText "/repo/skills/qa-engineer/diffs/run_20260101_120000.diff"
                  "-Write tests.+Write tests first.") log.
Proof.
  destruct (changed_flag_and_writes two_line_diff (compile_to "Write tests first.")
              "qa-engineer" "cli" "/repo" "/out" "gemini" "20260101_120000" 10
              "Write tests." ["story one"] []
              (mkAdapter "gemini" [] "Write tests first."))
    as (log & Hrun & _ & _ & _ & _ & _ & Hw & _).
  - discriminate.
  - reflexivity.
  - exists log. split; [exact Hrun|]. split.
    + apply Hw. discriminate.
    + vm_compute in Hrun. injection Hrun as <-. vm_compute. tauto.
Defined.

(** ** What a successful run of the matcher has read *)

Lemma append_length (a b : string) :
  String.length (a ++ b) = String.length a + String.length b.
Proof. induction a as [|x a IH]; simpl; [reflexivity | rewrite IH; reflexivity]. Qed.

Lemma str_take_app (w t : string) : str_take (String.length w) (w ++ t) = w.
Proof. induction w as [|x w IH]; simpl; [destruct t; reflexivity | rewrite IH; reflexivity]. Qed.

(** The text between the cursor before [w ++ t] and the cursor before [t]. *)
Lemma consumed_app (w t : string) : consumed (w ++ t) t = w.
Proof.
  unfold consumed. rewrite append_length.
  replace (String.length w + String.length t - String.length t)
    with (String.length w) by lia.
  apply str_take_app.
Qed.

Lemma exec_lit_app (fl : flags) (w : string) :
  IGNORECASE fl = false ->
  forall p t g k, exec fl (lit w) p (w ++ t) g k = k (prev_after p w) t g.
Proof.
  intros Hi. induction w as [|c w IH]; intros p t g k; [reflexivity|].
  assert (Hc : chr_match fl c c = true).
  { unfold chr_match. rewrite Hi. apply Ascii.eqb_refl. }
  destruct w as [|d w].
  - simpl. rewrite Hc. reflexivity.
  - change (lit (String c (String d w)))
      with (Seq (One (CChar c)) (lit (String d w))).
    change (String c (String d w) ++ t) with (String c (String d w ++ t)).
    cbn [exec cls_match]. rewrite Hc. apply IH.
Qed.

Lemma exec_lit_inv (fl : flags) (w : string) :
  IGNORECASE fl = false ->
  forall p s g k res,
    exec fl (lit w) p s g k = Some res ->
    exists t, s = w ++ t /\ k (prev_after p w) t g = Some res.
Proof.
  intros Hi. induction w as [|c w IH]; intros p s g k res H.
  - exists s. split; [reflexivity | exact H].
  - assert (Hone : forall k', exec fl (One (CChar c)) p s g k' = Some res ->
                              exists s1, s = String c s1 /\ k' (Some c) s1 g = Some res).
    { intros k' H'. simpl in H'. destruct s as [|x s1]; [discriminate H'|].
      unfold chr_match in H'. rewrite Hi in H'.
      destruct (Ascii.eqb_spec x c) as [->|_]; [|discriminate H'].
      exists s1. split; [reflexivity | exact H']. }
    destruct w as [|d w].
    + destruct (Hone k H) as (s1 & -> & Hk). exists s1. split; [reflexivity | exact Hk].
    + change (lit (String c (String d w)))
        with (Seq (One (CChar c)) (lit (String d w))) in H.
      destruct (Hone (fun p' s' g' => exec fl (lit (String d w)) p' s' g' k) H)
        as (s1 & -> & Hk).
      destruct (IH _ _ _ _ _ Hk) as (t & -> & Hk').
      exists t. split; [reflexivity | exact Hk'].
Qed.

Lemma star_inv (fl : flags) (c : cls) (k : cont) :
  forall s p g res,
    star fl c p s g k = Some res ->
    exists a t, s = a ++ t /\ str_forall (cls_match fl c) a = true /\
                k (prev_after p a) t g = Some res.
Proof.
  induction s as [|x s IH]; intros p g res H; simpl in H.
  - exists "", "". repeat split. exact H.
  - destruct (cls_match fl c x) eqn:Hx.
    + destruct (star fl c (Some x) s g k) as [r|] eqn:Hs.
      * injection H as <-. destruct (IH _ _ _ Hs) as (a & t & -> & Ha & Hk).
        exists (String x a), t. simpl. rewrite Hx, Ha. repeat split. exact Hk.
      * exists "", (String x s). repeat split. exact H.
    + exists "", (String x s). repeat split. exact H.
Qed.

Lemma star_finds (fl : flags) (c : cls) (k : cont) :
  forall a p t g,
    str_forall (cls_match fl c) a = true ->
    k (prev_after p a) t g <> None ->
    star fl c p (a ++ t) g k <> None.
Proof.
  induction a as [|x a IH]; intros p t g Ha Hk; simpl in *.
  - destruct t as [|y t]; simpl; [exact Hk|].
    destruct (cls_match fl c y); [|exact Hk].
    destruct (star fl c (Some y) t g k); [discriminate | exact Hk].
  - apply andb_prop in Ha as [Hx Ha]. rewrite Hx.
    specialize (IH (Some x) t g Ha Hk).
    destruct (star fl c (Some x) (a ++ t) g k); [discriminate | contradiction IH; reflexivity].
Qed.

(** A successful search has matched at the start of some suffix. *)
Lemma search_from_inv (fl : flags) (r : regex) :
  forall s i p m,
    search_from fl r i p s = Some m ->
    exists pre t, s = pre ++ t /\
                  match_at fl r (i + String.length pre) (prev_after p pre) t = Some m.
Proof.
  induction s as [|c s IH]; intros i p m H; simpl in H.
  - exists "", "". split; [reflexivity|]. rewrite Nat.add_0_r. simpl.
    destruct (match_at fl r i p "") eqn:Hm; [exact H | discriminate H].
  - destruct (match_at fl r i p (String c s)) eqn:Hm.
    + exists "", (String c s). split; [reflexivity|]. rewrite Nat.add_0_r.
      simpl. rewrite Hm. exact H.
    + destruct (IH _ _ _ H) as (pre & t & -> & Ht).
      exists (String c pre), t. split; [reflexivity|].
      simpl. rewrite Nat.add_succ_r. exact Ht.
Qed.

Lemma search_from_none (fl : flags) (r : regex) :
  forall pre t i p,
    search_from fl r i p (pre ++ t) = None ->
    matches_here fl r (prev_after p pre) t = false.
Proof.
  intros pre t i p H.
  destruct (matches_here fl r (prev_after p pre) t) eqn:E; [|reflexivity].
  pose proof (search_finds fl r pre t i p E) as F. rewrite H in F. discriminate F.
Qed.

(** ** The reflection LM *)

Lemma json_re_unfold :
  CLIReflectionLM.json_re =
  Seq (lit "{")
      (Seq (Star (CNoneOf ["{"; "}"]%char))
           (Seq (lit field_name)
                (Seq (Star (CNoneOf ["{"; "}"]%char)) (lit "}")))).
Proof. reflexivity. Qed.

Lemma not_brace_class (c : ascii) :
  cls_match reflection_flags (CNoneOf ["{"; "}"]%char) c = not_brace c.
Proof.
  unfold not_brace. simpl. unfold chr_match. simpl.
  destruct (Ascii.eqb c "{"), (Ascii.eqb c "}"); reflexivity.
Qed.

Lemma str_forall_ext (f h : ascii -> bool) (s : string) :
  (forall c, f c = h c) -> str_forall f s = str_forall h s.
Proof.
  intros E. induction s as [|c s IH]; simpl; [reflexivity|].
  rewrite E, IH. reflexivity.
Qed.

(** What the reflection pattern matches is a span of the looked-for shape. *)
Lemma json_re_inv (p : option ascii) (t rest : string) (g : caps) :
  exec reflection_flags CLIReflectionLM.json_re p t [] done = Some (rest, g) ->
  exists w, t = w ++ rest /\ json_shaped w.
Proof.
  rewrite json_re_unfold. intros H. cbn [exec] in H.
  apply (exec_lit_inv reflection_flags "{" eq_refl) in H.
  destruct H as (t1 & -> & H).
  apply star_inv in H. destruct H as (a & t2 & -> & Ha & H).
  apply (exec_lit_inv reflection_flags field_name eq_refl) in H.
  destruct H as (t3 & -> & H).
  apply star_inv in H. destruct H as (b & t4 & -> & Hb & H).
  apply (exec_lit_inv reflection_flags "}" eq_refl) in H.
  destruct H as (t5 & -> & H).
  unfold done in H. injection H as <- _.
  exists ("{" ++ a ++ field_name ++ b ++ "}"). split.
  - rewrite !append_assoc. reflexivity.
  - exists a, b. split; [reflexivity|].
    rewrite <- (str_forall_ext _ _ a not_brace_class).
    rewrite <- (str_forall_ext _ _ b not_brace_class). split; assumption.
Qed.

(** The reflection pattern matches at every span of that shape. *)
Lemma json_re_finds (p : option ascii) (w post : string) :
  json_shaped w ->
  matches_here reflection_flags CLIReflectionLM.json_re p (w ++ post) = true.
Proof.
  intros (a & b & -> & Ha & Hb).
  unfold matches_here.
  assert (H : exec reflection_flags CLIReflectionLM.json_re p
                   (("{" ++ a ++ field_name ++ b ++ "}") ++ post) [] done <> None).
  { rewrite json_re_unfold. rewrite !append_assoc. cbn [exec].
    rewrite (exec_lit_app reflection_flags "{" eq_refl).
    apply star_finds.
    { rewrite (str_forall_ext _ _ a not_brace_class). exact Ha. }
    rewrite (exec_lit_app reflection_flags field_name eq_refl).
    apply star_finds.
    { rewrite (str_forall_ext _ _ b not_brace_class). exact Hb. }
    rewrite (exec_lit_app reflection_flags "}" eq_refl).
    discriminate. }
  destruct (exec _ _ _ _ _ _); [reflexivity | contradiction H; reflexivity].
Qed.

Lemma json_shaped_names_field (w : string) : json_shaped w -> contains field_name w.
Proof.
  intros (a & b & -> & _). exists ("{" ++ a), (b ++ "}").
  rewrite !append_assoc. reflexivity.
Qed.

Lemma json_shaped_not_empty (w : string) : json_shaped w -> is_empty w = false.
Proof. intros (a & b & -> & _). reflexivity. Qed.

(** A search with the reflection pattern returns a span of the shape that
    occurs in the subject, and finds one whenever one occurs. *)
Lemma json_search_some (out : string) (m : rmatch) :
  re_search CLIReflectionLM.json_re out reflection_flags = Some m ->
  json_shaped (group0 m) /\ contains (group0 m) out.
Proof.
  intros H. apply search_from_inv in H. destruct H as (pre & t & -> & H).
  unfold match_at in H.
  destruct (exec reflection_flags CLIReflectionLM.json_re _ t [] done)
    as [[rest g]|] eqn:He; [|discriminate H].
  injection H as <-. simpl.
  destruct (json_re_inv _ _ _ _ He) as (w & -> & Hw).
  rewrite consumed_app. split; [exact Hw|].
  exists pre, rest. reflexivity.
Qed.

Lemma json_search_none (out : string) :
  re_search CLIReflectionLM.json_re out reflection_flags = None ->
  ~ exists w, json_shaped w /\ contains w out.
Proof.
  intros H (w & Hw & pre & post & ->).
  apply search_from_none in H. rewrite (json_re_finds _ w post Hw) in H.
  discriminate H.
Qed.

Lemma dumps_proposal_fields (instruction : string) :
  contains field_name (dumps_proposal instruction) /\
  contains prefix_field_name (dumps_proposal instruction) /\
  is_empty (dumps_proposal instruction) = false.
Proof.
  split; [|split].
  - exists "{", (": " ++ json_string instruction ++ ", " ++ prefix_field_name
                 ++ ": " ++ json_string "" ++ "}"). reflexivity.
  - exists ("{" ++ field_name ++ ": " ++ json_string instruction ++ ", "),
      (": " ++ json_string "" ++ "}").
    unfold dumps_proposal, json_string. rewrite !append_assoc. reflexivity.
  - reflexivity.
Qed.

Lemma reflection_forward_unfold (run : process) (binary_path : string)
      (model_env : option string) (prompt messages : option string) :
  CLIReflectionLM.forward run binary_path model_env prompt messages =
  try_except
    (result <- run (reflection_argv binary_path model_env
                                    (CLIReflectionLM.prompt_of prompt messages)) ;;
     Ret [CLIReflectionLM.content_of
            (CLIReflectionLM.is_copro_request
               (CLIReflectionLM.prompt_of prompt messages))
            (stdout result)])
    (fun e => Ret [dumps_proposal "Follow the task requirements."]).
Proof.
  unfold CLIReflectionLM.forward, reflection_argv.
  destruct model_env as [m|]; [destruct (is_empty m)|]; reflexivity.
Qed.

Lemma is_empty_true (s : string) : is_empty s = true <-> s = "".
Proof. destruct s; split; intros H; try reflexivity; discriminate H. Qed.

Lemma content_of_request_eq (out : string) :
  CLIReflectionLM.content_of true out =
  if is_empty (strip out)
  then dumps_proposal "Follow the task requirements carefully."
  else match re_search CLIReflectionLM.json_re (strip out) reflection_flags with
       | Some m => if is_empty (group0 m)
                   then dumps_proposal "Follow the task requirements carefully."
                   else group0 m
       | None => dumps_proposal (str_take 2000 (strip out))
       end.
Proof.
  unfold CLIReflectionLM.content_of. fold reflection_flags.
  destruct (is_empty (strip out)) eqn:He; simpl.
  - rewrite He. reflexivity.
  - destruct (re_search _ _ _); reflexivity.
Qed.

(** The three answers [content_of] can give to a reflection request. *)
Lemma content_of_request (out : string) :
  (strip out = "" ->
   CLIReflectionLM.content_of true out =
   dumps_proposal "Follow the task requirements carefully.") /\
  (strip out <> "" -> (exists w, json_shaped w /\ contains w (strip out)) ->
   json_shaped (CLIReflectionLM.content_of true out) /\
   contains (CLIReflectionLM.content_of true out) (strip out)) /\
  (strip out <> "" -> ~ (exists w, json_shaped w /\ contains w (strip out)) ->
   CLIReflectionLM.content_of true out = dumps_proposal (str_take 2000 (strip out))).
Proof.
  rewrite content_of_request_eq.
  destruct (is_empty (strip out)) eqn:He.
  - apply is_empty_true in He. repeat split; intros; try contradiction; reflexivity.
  - assert (Hne : strip out <> "") by (intros E; rewrite E in He; discriminate He).
    destruct (re_search CLIReflectionLM.json_re (strip out) reflection_flags)
      as [m|] eqn:Hs.
    + destruct (json_search_some _ _ Hs) as (Hshape & Hin).
      rewrite (json_shaped_not_empty _ Hshape).
      repeat split; intros; try contradiction; try assumption.
      exfalso. apply H0. exists (group0 m). split; assumption.
    + pose proof (json_search_none _ Hs) as Hnone.
      repeat split; intros; try contradiction; reflexivity.
Qed.

Lemma content_of_names_field (out : string) :
  contains field_name (CLIReflectionLM.content_of true out).
Proof.
  rewrite content_of_request_eq.
  destruct (is_empty (strip out)); [apply dumps_proposal_fields|].
  destruct (re_search CLIReflectionLM.json_re (strip out) reflection_flags)
    as [m|] eqn:Hs; [|apply dumps_proposal_fields].
  destruct (json_search_some _ _ Hs) as (Hshape & _).
  rewrite (json_shaped_not_empty _ Hshape).
  apply json_shaped_names_field, Hshape.
Qed.

(** C9, as amended: for every reflection request, [forward] returns a
    one-element list, whatever the process does, and its element names the
    field [proposed_instruction].  When the stripped output holds a
    brace-delimited span without inner braces that names that field, such a
    span is returned as it is (it need not name
    [proposed_prefix_for_output_field]); when the output holds none, is
    empty, or the invocation raises, a synthesized JSON object with both
    fields is returned. *)
Theorem reflection_answer (run : process) (binary_path : string)
        (model_env : option string) (prompt messages : option string) :
  CLIReflectionLM.is_copro_request (CLIReflectionLM.prompt_of prompt messages) = true ->
  (exists content,
      CLIReflectionLM.forward run binary_path model_env prompt messages
      = Ret [content] /\
      contains field_name content /\
      match run (reflection_argv binary_path model_env
                                 (CLIReflectionLM.prompt_of prompt messages)) with
      | Raise e => content = dumps_proposal "Follow the task requirements."
      | Ret result =>
          let out := strip (stdout result) in
          (out = "" ->
           content = dumps_proposal "Follow the task requirements carefully.") /\
          (out <> "" -> (exists w, json_shaped w /\ contains w out) ->
           json_shaped content /\ contains content out) /\
          (out <> "" -> ~ (exists w, json_shaped w /\ contains w out) ->
           content = dumps_proposal (str_take 2000 out))
      end) /\
  (forall text, contains field_name (dumps_proposal text) /\
                contains prefix_field_name (dumps_proposal text)).
Proof.
  intros Hreq. split.
  2:{ intros text. destruct (dumps_proposal_fields text) as (H1 & H2 & _).
      split; assumption. }
  rewrite reflection_forward_unfold, Hreq.
  destruct (run _) as [result|e]; simpl.
  - eexists. split; [reflexivity|].
    split; [apply content_of_names_field|].
    apply content_of_request.
  - eexists. split; [reflexivity|]. split; [|reflexivity].
    apply dumps_proposal_fields.
Qed.

Lemma reflection_answer_witness :
  CLIReflectionLM.is_copro_request
    (CLIReflectionLM.prompt_of (Some "Propose a better instruction.") None) = true /\
  exists content,
    CLIReflectionLM.forward (prints "Keep answers short.") "gemini" None
                            (Some "Propose a better instruction.") None
    = Ret [content] /\
    contains field_name content.
Proof.
  split; [reflexivity|].
  destruct (proj1 (reflection_answer (prints "Keep answers short.") "gemini" None
                     (Some "Propose a better instruction.") None eq_refl))
    as (content & Hf & Hc & _).
  exists content. split; assumption.
Defined.

(** C9, as stated, fails: on a reflection request whose output is a JSON
    object with the field [proposed_instruction] alone, [forward] returns
    that object, which has no field [proposed_prefix_for_output_field]. *)
Lemma reflection_one_field_counterexample :
  CLIReflectionLM.is_copro_request
    (CLIReflectionLM.prompt_of (Some "Propose a better instruction.") None) = true /\
  json_shaped one_field_answer /\
  CLIReflectionLM.forward (prints one_field_answer) "gemini" None
                          (Some "Propose a better instruction.") None
  = Ret [one_field_answer] /\
  ~ contains "proposed_prefix_for_output_field" one_field_answer.
Proof.
  split; [reflexivity|]. split; [|split].
  - exists "", (": " ++ dq ++ "Be terse." ++ dq). repeat split.
  - reflexivity.
  - intros H. apply str_in_contains in H. discriminate H.
Qed.

(** ** Lazy repetition, and searches that do not depend on the position *)

(** Lazy repetition runs over a stretch on which the continuation fails. *)
Lemma star_lazy_skip (fl : flags) (c : cls) (k : cont) :
  forall a p t g,
    str_forall (cls_match fl c) a = true ->
    (forall a1 a2, a = a1 ++ a2 -> a2 <> "" ->
                   k (prev_after p a1) (a2 ++ t) g = None) ->
    star_lazy fl c p (a ++ t) g k = star_lazy fl c (prev_after p a) t g k.
Proof.
  induction a as [|x a IH]; intros p t g Ha Hk; [reflexivity|].
  simpl in Ha. apply andb_prop in Ha as [Hx Ha].
  assert (H0 : k p (String x a ++ t) g = None)
    by (apply (Hk "" (String x a) eq_refl); discriminate).
  change (String x a ++ t) with (String x (a ++ t)) in *.
  cbn [star_lazy prev_after]. rewrite H0, Hx.
  apply IH; [exact Ha|].
  intros a1 a2 -> Hne. apply (Hk (String x a1) a2 eq_refl Hne).
Qed.

Lemma star_lazy_here (fl : flags) (c : cls) (k : cont) (p : option ascii)
      (t : string) (g : caps) (res : string * caps) :
  k p t g = Some res -> star_lazy fl c p t g k = Some res.
Proof. intros H. destruct t; simpl; rewrite H; reflexivity. Qed.

Section PrevIrrelevant.
Variable fl : flags.

Lemma star_same (c : cls) (k k' : cont) :
  same_cont k k' ->
  same_cont (fun p s g => star fl c p s g k) (fun p s g => star fl c p s g k').
Proof.
  intros Hk q q' s. revert q q'.
  induction s as [|x s IH]; intros q q' g; simpl; [apply Hk|].
  rewrite (IH (Some x) (Some x) g), (Hk q q' (String x s) g). reflexivity.
Qed.

Lemma star_lazy_same (c : cls) (k k' : cont) :
  same_cont k k' ->
  same_cont (fun p s g => star_lazy fl c p s g k)
            (fun p s g => star_lazy fl c p s g k').
Proof.
  intros Hk q q' s. revert q q'.
  induction s as [|x s IH]; intros q q' g; simpl.
  - rewrite (Hk q q' "" g). reflexivity.
  - rewrite (IH (Some x) (Some x) g), (Hk q q' (String x s) g). reflexivity.
Qed.

Lemma exec_same (r : regex) :
  no_bol r = true ->
  forall k k', same_cont k k' ->
  same_cont (fun p s g => exec fl r p s g k) (fun p s g => exec fl r p s g k').
Proof.
  induction r as [|c|r1 IH1 r2 IH2|r1 IH1 r2 IH2|c|c|n r IH| | |r IH];
    simpl; intros Hb k k' Hk q q' s g; try discriminate Hb.
  - apply Hk.
  - destruct s as [|x s]; [reflexivity|].
    rewrite (Hk (Some x) (Some x) s g). reflexivity.
  - apply andb_prop in Hb as [Hb1 Hb2].
    apply (IH1 Hb1). apply (IH2 Hb2), Hk.
  - apply andb_prop in Hb as [Hb1 Hb2].
    rewrite (IH1 Hb1 k k' Hk q q' s g), (IH2 Hb2 k k' Hk q q' s g). reflexivity.
  - apply (star_same c k k' Hk).
  - apply (star_lazy_same c k k' Hk).
  - apply (IH Hb). intros p1 p2 s' g'. apply Hk.
  - rewrite (Hk q q' s g). reflexivity.
  - assert (Hd : same_cont done done) by (intros ? ? ? ?; reflexivity).
    rewrite (IH Hb done done Hd q q' s g).
    destruct (exec fl r q' s g done) as [[? g']|]; [apply Hk | reflexivity].
Qed.

(** Without [^], a match depends on the cursor only through its start. *)
Lemma match_at_same (r : regex) (i i' : nat) (p p' : option ascii) (s : string) :
  no_bol r = true ->
  match_at fl r i p s =
  match match_at fl r i' p' s with
  | Some m => Some (RMatch i (m_text m) (m_groups m))
  | None => None
  end.
Proof.
  intros Hb. unfold match_at.
  assert (Hd : same_cont done done) by (intros ? ? ? ?; reflexivity).
  rewrite (exec_same r Hb done done Hd p p' s []).
  destruct (exec fl r p' s [] done) as [[? ?]|]; reflexivity.
Qed.

Lemma groups_from_same (r : regex) :
  no_bol r = true ->
  forall s skip i i' p p',
    groups_from fl r skip i p s = groups_from fl r skip i' p' s.
Proof.
  intros Hb. unfold groups_from.
  induction s as [|x s IH]; intros skip i i' p p'; simpl;
    destruct skip as [|skip]; try reflexivity.
  - rewrite (match_at_same r i i' p p' _ Hb).
    destruct (match_at fl r i' p' _) as [m|]; reflexivity.
  - rewrite (match_at_same r i i' p p' _ Hb).
    destruct (match_at fl r i' p' _) as [m|]; simpl.
    + f_equal. apply IH.
    + apply IH.
  - apply IH.
Qed.

(** The positions a match covers are passed over. *)
Lemma groups_from_skip (r : regex) :
  forall w i p t,
    groups_from fl r (String.length w) i p (w ++ t) =
    groups_from fl r 0 (i + String.length w) (prev_after p w) t.
Proof.
  unfold groups_from.
  induction w as [|x w IH]; intros i p t.
  - simpl. rewrite Nat.add_0_r. reflexivity.
  - simpl. rewrite Nat.sub_0_r, IH, Nat.add_succ_r. reflexivity.
Qed.

(** A stretch where the pattern matches nowhere yields no group. *)
Lemma groups_from_pass (r : regex) :
  forall pre i p t,
    (forall a1 a2 j q, pre = a1 ++ a2 -> a2 <> "" ->
                       match_at fl r j q (a2 ++ t) = None) ->
    groups_from fl r 0 i p (pre ++ t) =
    groups_from fl r 0 (i + String.length pre) (prev_after p pre) t.
Proof.
  unfold groups_from.
  induction pre as [|x pre IH]; intros i p t H.
  - simpl. rewrite Nat.add_0_r. reflexivity.
  - assert (H0 : match_at fl r i p (String x (pre ++ t)) = None)
      by (apply (H "" (String x pre) i p eq_refl); discriminate).
    simpl. rewrite H0, Nat.add_succ_r. apply IH.
    intros a1 a2 j q -> Hne. apply (H (String x a1) a2 j q eq_refl Hne).
Qed.

(** The groups found once a match has been made at the cursor. *)
Lemma groups_from_match (r : regex) (c : ascii) (w t : string) (i : nat)
      (p : option ascii) (g : caps) :
  match_at fl r i p (String c w ++ t) = Some (RMatch i (String c w) g) ->
  groups_from fl r 0 i p (String c w ++ t) =
  group 1 (RMatch i (String c w) g)
  :: groups_from fl r 0 (i + String.length (String c w))
                 (prev_after p (String c w)) t.
Proof.
  intros H. unfold groups_from at 1. simpl finditer_from. simpl in H. rewrite H.
  simpl. f_equal. rewrite Nat.sub_0_r.
  fold (groups_from fl r (String.length w) (S i) (Some c) (w ++ t)).
  rewrite groups_from_skip, Nat.add_succ_r. reflexivity.
Qed.
End PrevIrrelevant.

(** ** First occurrences *)

Lemma str_take_length (n : nat) (s : string) :
  String.length (str_take n s) = Nat.min n (String.length s).
Proof.
  revert s. induction n as [|n IH]; intros [|c s]; simpl; try reflexivity.
  rewrite IH. reflexivity.
Qed.

Lemma prefix_nil (s : string) : prefix "" s = true.
Proof. destruct s; reflexivity. Qed.

Lemma prefix_cons (c x : ascii) (w s : string) :
  prefix (String c w) (String x s) = Ascii.eqb c x && prefix w s.
Proof.
  simpl. destruct (ascii_dec c x) as [->|N].
  - rewrite Ascii.eqb_refl. reflexivity.
  - apply Ascii.eqb_neq in N. rewrite N. reflexivity.
Qed.

(** A prefix of [u ++ v] no longer than [u] is a prefix of [u]. *)
Lemma prefix_within (w : string) :
  forall u v, prefix w (u ++ v) = true -> String.length w <= String.length u ->
              prefix w u = true.
Proof.
  induction w as [|c w IH]; intros u v H L; [apply prefix_nil|].
  destruct u as [|x u]; [simpl in L; lia|].
  change (String x u ++ v) with (String x (u ++ v)) in H.
  rewrite prefix_cons in *. apply andb_prop in H as [Hc H]. rewrite Hc. simpl.
  apply (IH u v H). simpl in L. lia.
Qed.

Lemma str_in_prefix (w s : string) : prefix w s = true -> str_in w s = true.
Proof. intros H. rewrite str_in_unfold, H. reflexivity. Qed.

Lemma str_in_false_prefix (w s : string) : str_in w s = false -> prefix w s = false.
Proof.
  intros H. rewrite str_in_unfold in H. apply orb_false_elim in H as [H _]. exact H.
Qed.

Lemma str_in_tail (w a b : string) : str_in w (a ++ b) = false -> str_in w b = false.
Proof.
  intros H. destruct (str_in w b) eqn:E; [|reflexivity].
  rewrite (str_in_app w a b E) in H. discriminate H.
Qed.

(** When the occurrence of [w] after [pre] is the first, [w] starts at no
    position inside [pre]. *)
Lemma occurs_first_suffix (w pre : string) :
  w <> "" -> occurs_first w pre = true ->
  forall a1 a2 rest, pre = a1 ++ a2 -> a2 <> "" ->
                     prefix w (a2 ++ w ++ rest) = false.
Proof.
  intros Hw Hf a1 a2 rest -> Hne.
  destruct (prefix w (a2 ++ w ++ rest)) eqn:E; [|reflexivity]. exfalso.
  apply negb_true_iff in Hf.
  assert (Ew : a2 ++ w ++ rest =
               (a2 ++ str_init w) ++ (str_drop (String.length w - 1) w ++ rest)).
  { unfold str_init. rewrite append_assoc.
    rewrite <- (append_assoc (str_take _ w)), take_drop. reflexivity. }
  rewrite Ew in E. apply prefix_within in E.
  - apply str_in_prefix in E. apply (str_in_app w a1) in E.
    rewrite <- append_assoc in E. rewrite E in Hf. discriminate Hf.
  - rewrite append_length. unfold str_init. rewrite str_take_length.
    destruct a2; [contradiction Hne; reflexivity|].
    destruct w; [contradiction Hw; reflexivity|]. simpl. lia.
Qed.

Lemma exec_lit_none (fl : flags) (w s : string) (p : option ascii) (g : caps)
      (k : cont) :
  IGNORECASE fl = false -> prefix w s = false ->
  exec fl (lit w) p s g k = None.
Proof.
  intros Hi H. destruct (exec fl (lit w) p s g k) eqn:E; [|reflexivity].
  apply (exec_lit_inv fl w Hi) in E. destruct E as (t & -> & _).
  rewrite prefix_app in H. discriminate H.
Qed.

(** ** Fenced code blocks *)

Lemma code_block_re_unfold :
  TypeScriptCodeAdapter.code_block_re = Seq (lit fence) (Seq tag_re block_tail_re).
Proof. reflexivity. Qed.

Lemma any_matches_all (s : string) :
  str_forall (cls_match adapter_flags CAny) s = true.
Proof. induction s as [|x s IH]; simpl; [reflexivity | exact IH]. Qed.

(** After the tag: the newline, the body up to the next fence, the fence. *)
Lemma block_tail_match (body post : string) (p : option ascii) (g0 : caps) :
  occurs_first fence body = true ->
  exec adapter_flags block_tail_re p (NL ++ body ++ fence ++ post) g0 done
  = Some (post, (1, body) :: g0).
Proof.
  intros Hb. unfold block_tail_re. cbn [exec].
  change (NL ++ body ++ fence ++ post) with (String nl (body ++ fence ++ post)).
  cbn [cls_match].
  replace (chr_match adapter_flags nl nl) with true by reflexivity.
  rewrite star_lazy_skip.
  - apply star_lazy_here.
    rewrite (exec_lit_app adapter_flags fence eq_refl).
    unfold done. rewrite consumed_app. reflexivity.
  - apply any_matches_all.
  - intros a1 a2 E Hne. apply (exec_lit_none adapter_flags fence); [reflexivity|].
    apply (occurs_first_suffix fence body (ltac:(discriminate)) Hb a1 a2 post E Hne).
Qed.

(** The optional tag, before a newline. *)
Lemma tag_re_match (tag rest : string) (p : option ascii) (g : caps) (k : cont)
      (res : string * caps) :
  In tag fence_tags ->
  k (prev_after p tag) (NL ++ rest) g = Some res ->
  exec adapter_flags tag_re p (tag ++ NL ++ rest) g k = Some res.
Proof.
  intros Ht Hk. unfold fence_tags in Ht. simpl in Ht.
  destruct Ht as [<-|[<-|[<-|[<-|[<-|[]]]]]]; simpl in *; rewrite Hk; reflexivity.
Qed.

(** The code-block pattern matches a fenced block whose closing fence is
    the first fence after the opening line, and captures the body. *)
Lemma fenced_match (tag body post : string) (i : nat) (p : option ascii) :
  In tag fence_tags -> occurs_first fence body = true ->
  match_at adapter_flags TypeScriptCodeAdapter.code_block_re i p
           (fenced tag body ++ post)
  = Some (RMatch i (fenced tag body) [(1, body)]).
Proof.
  intros Ht Hb. unfold match_at.
  assert (E : fenced tag body ++ post = fence ++ tag ++ NL ++ body ++ fence ++ post)
    by (unfold fenced; rewrite !append_assoc; reflexivity).
  assert (H : exec adapter_flags TypeScriptCodeAdapter.code_block_re p
                   (fence ++ tag ++ NL ++ body ++ fence ++ post) [] done
              = Some (post, [(1, body)])).
  { rewrite code_block_re_unfold. cbn [exec].
    rewrite (exec_lit_app adapter_flags fence eq_refl).
    apply tag_re_match; [exact Ht|].
    apply block_tail_match, Hb. }
  rewrite E, H, <- E, consumed_app. reflexivity.
Qed.

Lemma match_at_needs_fence (s : string) (i : nat) (p : option ascii) :
  prefix fence s = false ->
  match_at adapter_flags TypeScriptCodeAdapter.code_block_re i p s = None.
Proof.
  intros H. unfold match_at.
  rewrite code_block_re_unfold. cbn [exec].
  rewrite (exec_lit_none adapter_flags fence s p [] _ eq_refl H). reflexivity.
Qed.

Lemma finditer_no_fence (out : string) :
  forall skip i p,
    str_in fence out = false ->
    finditer_from adapter_flags TypeScriptCodeAdapter.code_block_re skip i p out = [].
Proof.
  induction out as [|x out IH]; intros skip i p H;
    rewrite str_in_unfold in H; apply orb_false_elim in H as [Hp Hs];
    cbn [finditer_from].
  - rewrite (match_at_needs_fence "" i p Hp). destruct skip; reflexivity.
  - rewrite (match_at_needs_fence _ i p Hp). destruct skip; apply IH, Hs.
Qed.

(** Without a fence in the text the code-block pattern finds nothing. *)
Lemma code_blocks_no_fence (out : string) :
  str_in fence out = false -> code_blocks out = [].
Proof.
  intros H. unfold code_blocks, re_findall.
  rewrite finditer_no_fence by exact H. reflexivity.
Qed.

(** The blocks of a text whose first fence opens a fenced block: the body
    of that block, then the blocks of what follows it. *)
Lemma code_blocks_fenced (pre tag body post : string) :
  occurs_first fence pre = true -> In tag fence_tags ->
  occurs_first fence body = true ->
  code_blocks (pre ++ fenced tag body ++ post) = body :: code_blocks post.
Proof.
  intros Hpre Ht Hb. unfold code_blocks, re_findall.
  fold (groups_from adapter_flags TypeScriptCodeAdapter.code_block_re 0 0 None
                    (pre ++ fenced tag body ++ post)).
  fold (groups_from adapter_flags TypeScriptCodeAdapter.code_block_re 0 0 None post).
  rewrite groups_from_pass.
  2:{ intros a1 a2 j q E Hne. apply match_at_needs_fence.
      apply (occurs_first_suffix fence pre (ltac:(discriminate)) Hpre a1 a2
               ((tag ++ NL ++ body ++ fence) ++ post) E Hne). }
  pose proof (fenced_match tag body post (0 + String.length pre)
                           (prev_after None pre) Ht Hb) as Hm.
  change (fenced tag body) with (String "`" ("``" ++ tag ++ NL ++ body ++ fence))
    in Hm |- *.
  rewrite (groups_from_match _ _ _ _ _ _ _ _ Hm).
  f_equal. apply groups_from_same. reflexivity.
Qed.

(** ** The reasoning section *)

Lemma reasoning_re_unfold :
  reasoning_re =
  Seq (lit "## Reasoning")
      (Seq (One (CChar nl)) (Seq (Grp 1 (StarLazy CAny)) section_end_re)).
Proof. reflexivity. Qed.

Lemma rstrip_app_space (b : string) (c : ascii) :
  isspace c = true -> rstrip (b ++ String c "") = rstrip b.
Proof.
  intros Hc. induction b as [|x b IH]; simpl.
  - rewrite Hc. reflexivity.
  - rewrite IH. reflexivity.
Qed.

Lemma lstrip_app_nonblank (b t : string) :
  all_space b = false -> lstrip (b ++ t) = lstrip b ++ t.
Proof.
  induction b as [|x b IH]; simpl; [discriminate|].
  destruct (isspace x); simpl; [exact IH | reflexivity].
Qed.

(** A trailing newline does not change what [strip] returns. *)
Lemma strip_app_newline (b : string) : strip (b ++ NL) = strip b.
Proof.
  unfold strip. destruct (all_space b) eqn:Hb.
  - rewrite (lstrip_all_space b Hb).
    rewrite (lstrip_all_space (b ++ NL)); [reflexivity|].
    rewrite all_space_app, Hb. reflexivity.
  - rewrite (lstrip_app_nonblank b NL Hb). apply rstrip_app_space. reflexivity.
Qed.

(** A string ends with a given character or it does not. *)
Lemma ends_with_dec (c : ascii) (body : string) :
  (exists b, body = b ++ String c "") \/
  (forall a1 a2, body = a1 ++ a2 -> a2 <> String c "").
Proof.
  induction body as [|x body IH].
  - right. intros a1 a2 E. destruct a1; [|discriminate E].
    simpl in E. subst a2. discriminate.
  - destruct IH as [(b & ->)|IH].
    + left. exists (String x b). reflexivity.
    + destruct body as [|y body].
      * destruct (Ascii.eqb_spec x c) as [->|N].
        -- left. exists "". reflexivity.
        -- right. intros a1 a2 E. destruct a1 as [|z a1]; simpl in E.
           ++ subst a2. intros E'. injection E' as E'. contradiction.
           ++ injection E as _ E. destruct a1; [|discriminate E].
              simpl in E. subst a2. discriminate.
      * right. intros a1 a2 E. destruct a1 as [|z a1]; simpl in E.
        -- subst a2. discriminate.
        -- injection E as _ E. apply (IH a1 a2 E).
Qed.

Lemma section_end_fails (s : string) (p : option ascii) (g : caps) (k : cont) :
  prefix "##" s = false -> at_eos adapter_flags s = false ->
  exec adapter_flags section_end_re p s g k = None.
Proof.
  intros Hp He. unfold section_end_re. cbn [exec].
  rewrite (exec_lit_none adapter_flags "##" s p g done eq_refl Hp), He.
  reflexivity.
Qed.

Lemma section_end_hash (r : string) (p : option ascii) (g : caps) (k : cont) :
  exec adapter_flags section_end_re p ("##" ++ r) g k = k p ("##" ++ r) g.
Proof. reflexivity. Qed.

Lemma section_end_eos (r : string) (p : option ascii) (g : caps) (k : cont) :
  r = "" \/ r = NL ->
  exec adapter_flags section_end_re p r g k = k p r g.
Proof. intros [->| ->]; reflexivity. Qed.

Lemma at_eos_longer (x : ascii) (a t : string) :
  a <> "" \/ t <> "" -> at_eos adapter_flags (String x (a ++ t)) = false.
Proof.
  intros H. simpl. destruct (a ++ t) eqn:E; [|apply andb_false_r].
  destruct a; [|discriminate E]. simpl in E. subst t.
  destruct H as [H|H]; contradiction H; reflexivity.
Qed.

(** The lazy group of the reasoning pattern stops at the next [##], at the
    end of the text, or before a newline that ends the text; in each case
    it holds the body up to white space at its end. *)
Lemma reasoning_group (body tail : string) (p : option ascii) :
  reasoning_ends body tail ->
  exists rest grp,
    exec adapter_flags (Seq (Grp 1 (StarLazy CAny)) section_end_re) p
         (body ++ tail) [] done = Some (rest, [(1, grp)]) /\
    strip grp = strip body.
Proof.
  intros [(-> & Hb)|(t & -> & Hb)]; cbn [exec].
  - rewrite append_nil_r.
    destruct (ends_with_dec nl body) as [(b & ->)|Hend].
    + exists NL, b. split; [|symmetry; apply strip_app_newline].
      rewrite star_lazy_skip.
      * apply star_lazy_here.
        rewrite section_end_eos by (right; reflexivity).
        unfold done. rewrite consumed_app. reflexivity.
      * apply any_matches_all.
      * intros a1 a2 E Hne. subst b.
        destruct a2 as [|x a2]; [contradiction Hne; reflexivity|].
        apply section_end_fails.
        -- apply str_in_false_prefix. rewrite append_assoc in Hb.
           apply (str_in_tail _ _ _ Hb).
        -- apply (at_eos_longer x a2 NL). right. discriminate.
    + exists "", body. split; [|reflexivity].
      rewrite <- (append_nil_r body) at 1.
      rewrite star_lazy_skip.
      * apply star_lazy_here.
        rewrite section_end_eos by (left; reflexivity).
        unfold done.
        rewrite <- (append_nil_r body) at 1. rewrite consumed_app. reflexivity.
      * apply any_matches_all.
      * intros a1 a2 E Hne. rewrite append_nil_r.
        destruct a2 as [|x a2]; [contradiction Hne; reflexivity|].
        apply section_end_fails.
        -- apply str_in_false_prefix. rewrite E in Hb.
           apply (str_in_tail _ _ _ Hb).
        -- destruct a2 as [|y a2]; [|simpl; apply andb_false_r].
           simpl. destruct (Ascii.eqb_spec x nl) as [->|_]; [|reflexivity].
           exfalso. apply (Hend a1 NL E). reflexivity.
  - exists ("##" ++ t), body. split; [|reflexivity].
    rewrite star_lazy_skip.
    + apply star_lazy_here. rewrite section_end_hash.
      unfold done. rewrite consumed_app. reflexivity.
    + apply any_matches_all.
    + intros a1 a2 E Hne. apply section_end_fails.
      * apply (occurs_first_suffix "##" body (ltac:(discriminate)) Hb a1 a2 t E Hne).
      * destruct a2 as [|x a2']; [contradiction Hne; reflexivity|].
        apply (at_eos_longer x a2' ("##" ++ t)). right. discriminate.
Qed.

Lemma exec_seq (fl : flags) (r1 r2 : regex) (p : option ascii) (s : string)
      (g : caps) (k : cont) :
  exec fl (Seq r1 r2) p s g k =
  exec fl r1 p s g (fun p' s' g' => exec fl r2 p' s' g' k).
Proof. reflexivity. Qed.

Lemma exec_newline (s : string) (p : option ascii) (g : caps) (k : cont) :
  exec adapter_flags (One (CChar nl)) p (NL ++ s) g k = k (Some nl) s g.
Proof. reflexivity. Qed.

(** A stretch where the pattern matches nowhere is searched through. *)
Lemma search_pass (fl : flags) (r : regex) :
  forall pre i p t,
    (forall a1 a2 j q, pre = a1 ++ a2 -> a2 <> "" ->
                       match_at fl r j q (a2 ++ t) = None) ->
    search_from fl r i p (pre ++ t) =
    search_from fl r (i + String.length pre) (prev_after p pre) t.
Proof.
  induction pre as [|x pre IH]; intros i p t H.
  - simpl. rewrite Nat.add_0_r. reflexivity.
  - assert (H0 : match_at fl r i p (String x (pre ++ t)) = None)
      by (apply (H "" (String x pre) i p eq_refl); discriminate).
    simpl. rewrite H0, Nat.add_succ_r. apply IH.
    intros a1 a2 j q -> Hne. apply (H (String x a1) a2 j q eq_refl Hne).
Qed.

Lemma search_from_here (fl : flags) (r : regex) (i : nat) (p : option ascii)
      (s : string) (m : rmatch) :
  match_at fl r i p s = Some m -> search_from fl r i p s = Some m.
Proof. intros H. destruct s; simpl; rewrite H; reflexivity. Qed.

Lemma reasoning_needs_header (s : string) (i : nat) (p : option ascii) :
  prefix reasoning_header s = false ->
  match_at adapter_flags reasoning_re i p s = None.
Proof.
  intros H. unfold match_at.
  destruct (exec adapter_flags reasoning_re p s [] done) as [[rest g]|] eqn:He;
    [|reflexivity].
  rewrite reasoning_re_unfold, exec_seq in He.
  apply (exec_lit_inv adapter_flags "## Reasoning" eq_refl) in He.
  destruct He as (t & -> & He). rewrite exec_seq in He.
  apply (exec_lit_inv adapter_flags NL eq_refl) in He.
  destruct He as (t' & -> & _).
  rewrite <- append_assoc in H. fold reasoning_header in H.
  rewrite prefix_app in H. discriminate H.
Qed.

(** Without the header line there is no reasoning. *)
Lemma reasoning_absent (out : string) :
  str_in reasoning_header out = false -> _extract_reasoning out = "".
Proof.
  intros H. unfold _extract_reasoning, re_search. fold adapter_flags.
  assert (Hs : forall s i p, str_in reasoning_header s = false ->
                             search_from adapter_flags reasoning_re i p s = None).
  { induction s as [|x s IH]; intros i p Hin;
      rewrite str_in_unfold in Hin; apply orb_false_elim in Hin as [Hp Hin];
      cbn [search_from]; rewrite (reasoning_needs_header _ i p Hp); [reflexivity|].
    apply IH, Hin. }
  rewrite (Hs out 0 None H). reflexivity.
Qed.

(** The reasoning of a response: the text between the first header line and
    the next [##] or the end, stripped. *)
Lemma reasoning_present (pre body tail : string) :
  occurs_first reasoning_header pre = true -> reasoning_ends body tail ->
  _extract_reasoning (pre ++ reasoning_header ++ body ++ tail) = strip body.
Proof.
  intros Hpre Hends. unfold _extract_reasoning, re_search. fold adapter_flags.
  rewrite search_pass.
  2:{ intros a1 a2 j q E Hne. apply reasoning_needs_header.
      apply (occurs_first_suffix reasoning_header pre (ltac:(discriminate)) Hpre
               a1 a2 (body ++ tail) E Hne). }
  destruct (reasoning_group body tail (Some nl) Hends) as (rest & grp & He & Hs).
  assert (Hm : match_at adapter_flags reasoning_re (0 + String.length pre)
                        (prev_after None pre) (reasoning_header ++ body ++ tail)
               = Some (RMatch (0 + String.length pre)
                              (consumed (reasoning_header ++ body ++ tail) rest)
                              [(1, grp)])).
  { unfold match_at. rewrite reasoning_re_unfold, exec_seq.
    unfold reasoning_header. rewrite append_assoc.
    rewrite (exec_lit_app adapter_flags "## Reasoning" eq_refl).
    rewrite exec_seq, exec_newline, He. reflexivity. }
  rewrite (search_from_here _ _ _ _ _ _ Hm). simpl. exact Hs.
Qed.

(** ** What the adapters make of a response *)

Lemma ts_forward_completed (run : process) (self : Adapter) (story tech : string)
      (result : CompletedProcess) :
  run (adapter_argv TypeScriptCode self story tech) = Ret result ->
  TypeScriptCodeAdapter.forward run self story tech =
  Ret (mkPrediction (TypeScriptCodeAdapter._extract_code (stdout result)) None
                    (_extract_reasoning (stdout result))).
Proof. intros H. unfold TypeScriptCodeAdapter.forward. simpl in H. rewrite H. reflexivity. Qed.

Lemma doc_forward_completed (run : process) (self : Adapter) (story tech : string)
      (result : CompletedProcess) :
  run (adapter_argv TestDocumentation self story tech) = Ret result ->
  TestDocAdapter.forward run self story tech =
  Ret (mkPrediction (stdout result) (Some (stdout result))
                    (_extract_reasoning (stdout result))).
Proof. intros H. unfold TestDocAdapter.forward. simpl in H. rewrite H. reflexivity. Qed.

Lemma extract_code_blocks (out : string) :
  TypeScriptCodeAdapter._extract_code out =
  match code_blocks out with
  | [] => out
  | blocks => concat (NL ++ NL) blocks
  end.
Proof.
  unfold TypeScriptCodeAdapter._extract_code, code_blocks. fold adapter_flags.
  destruct (re_findall _ out adapter_flags); reflexivity.
Qed.

(** C6, as amended: when the process returns, the reasoning of either
    adapter is the stripped text between the first line [## Reasoning] and
    the next [##] or the end of the response, and empty without that line.
    The primary output of the documentation adapter is always the raw
    response.  The primary output of the code adapter is the raw response
    when the pattern finds no block, in particular when the response holds
    no fence, and else the bodies of the blocks joined by a blank line;
    where the first fence of a text opens a fenced block (a fence, an
    optional tag [typescript], [ts], [javascript] or [js], a newline, the
    body, the next fence), the blocks are that body and the blocks of the
    text after the closing fence. *)
Theorem adapter_post_processing (k : adapter_kind) (run : process) (self : Adapter)
        (story tech : string) (result : CompletedProcess) :
  run (adapter_argv k self story tech) = Ret result ->
  let out := stdout result in
  (exists p,
      adapter_forward k run self story tech = Ret p /\
      code_output p =
        match k with
        | TestDocumentation => out
        | TypeScriptCode =>
            match code_blocks out with
            | [] => out
            | blocks => concat (NL ++ NL) blocks
            end
        end /\
      (str_in reasoning_header out = false -> reasoning p = "") /\
      (forall pre body tail,
          out = pre ++ reasoning_header ++ body ++ tail ->
          occurs_first reasoning_header pre = true -> reasoning_ends body tail ->
          reasoning p = strip body)) /\
  (forall text, str_in fence text = false -> code_blocks text = []) /\
  (forall pre tag body post,
      occurs_first fence pre = true -> In tag fence_tags ->
      occurs_first fence body = true ->
      code_blocks (pre ++ fenced tag body ++ post) = body :: code_blocks post).
Proof.
  intros H out. subst out. set (out := stdout result).
  split; [|split; [apply code_blocks_no_fence | apply code_blocks_fenced]].
  assert (Hr1 : str_in reasoning_header out = false -> _extract_reasoning out = "")
    by apply reasoning_absent.
  assert (Hr2 : forall pre body tail,
             out = pre ++ reasoning_header ++ body ++ tail ->
             occurs_first reasoning_header pre = true -> reasoning_ends body tail ->
             _extract_reasoning out = strip body).
  { intros pre body tail -> Hp He. apply reasoning_present; assumption. }
  destruct k.
  - eexists. split; [apply (ts_forward_completed _ _ _ _ _ H)|].
    cbn [code_output reasoning]. fold out.
    split; [apply extract_code_blocks|]. split; assumption.
  - eexists. split; [apply (doc_forward_completed _ _ _ _ _ H)|].
    cbn [code_output reasoning]. fold out.
    split; [reflexivity|]. split; assumption.
Qed.

Lemma adapter_post_processing_witness :
  prints one_block_response
         (adapter_argv TypeScriptCode (mkAdapter "gemini" [] "Be brief.") "story" "TS")
  = Ret (mkCompleted one_block_response "") /\
  exists p,
    adapter_forward TypeScriptCode (prints one_block_response)
                    (mkAdapter "gemini" [] "Be brief.") "story" "TS" = Ret p /\
    code_output p = "let x = 1;" ++ NL.
Proof.
  split; [reflexivity|].
  destruct (adapter_post_processing TypeScriptCode (prints one_block_response)
              (mkAdapter "gemini" [] "Be brief.") "story" "TS"
              (mkCompleted one_block_response "") eq_refl)
    as ((p & Hf & Hc & _) & Hnone & Hblock).
  exists p. split; [exact Hf|]. rewrite Hc.
  change (stdout (mkCompleted one_block_response ""))
    with (("Here it is:" ++ NL) ++ fenced "ts" ("let x = 1;" ++ NL) ++ (NL ++ "Done.")).
  rewrite Hblock; [|reflexivity | right; left; reflexivity | reflexivity].
  rewrite Hnone; reflexivity.
Defined.

(** C6, as stated, fails.  The documentation adapter returns a response
    with a fenced block as it is, fences included; the code adapter puts a
    blank line between two blocks; the reasoning is stripped. *)
Lemma primary_output_counterexample :
  (exists p,
      adapter_forward TestDocumentation (prints one_block_response)
                      (mkAdapter "gemini" [] "Be brief.") "story" "Jest" = Ret p /\
      code_output p = one_block_response /\
      primary_as_stated one_block_response = "let x = 1;" ++ NL /\
      code_output p <> primary_as_stated one_block_response) /\
  (exists p,
      adapter_forward TypeScriptCode (prints two_block_response)
                      (mkAdapter "gemini" [] "Be brief.") "story" "TS" = Ret p /\
      code_output p = "a" ++ NL ++ NL ++ "b" /\
      primary_as_stated two_block_response = "ab" /\
      code_output p <> primary_as_stated two_block_response) /\
  (exists p,
      adapter_forward TypeScriptCode (prints reasoned_response)
                      (mkAdapter "gemini" [] "Be brief.") "story" "TS" = Ret p /\
      reasoning p = "because" /\
      reasoning p <> "  because " ++ NL).
Proof.
  split; [|split]; eexists; (split; [reflexivity|]); repeat split; discriminate.
Qed.

(** * Further properties of the code *)

(** ** Dispatch on the skill name *)

(** X1: [get_adapter_for_skill] and [get_metric_for_skill] never
    mismatch: the name [qa-engineer] gets the documentation adapter and the
    documentation metric, and every other name, recognised or not, gets the
    code adapter and the code metric. *)
Theorem skill_dispatch_agrees (skill_name : string) :
  (skill_name = "qa-engineer" ->
   get_adapter_for_skill skill_name = TestDocumentation /\
   get_metric_for_skill skill_name = TestDoc) /\
  (skill_name <> "qa-engineer" ->
   get_adapter_for_skill skill_name = TypeScriptCode /\
   get_metric_for_skill skill_name = TypeScript).
Proof.
  unfold get_adapter_for_skill, get_metric_for_skill. split.
  - intros ->. split; reflexivity.
  - intros N. apply String.eqb_neq in N. rewrite N.
    destruct (String.eqb skill_name "backend-engineer"); split; reflexivity.
Qed.

(** ** Scores *)

Lemma score_of_outcomes_perfect (m : metric) (a b c d : bool) :
  score_of_outcomes m [a; b; c; d] = 1.0%float <-> [a; b; c; d] = [true; true; true; true].
Proof.
  destruct m, a, b, c, d; split; intros E;
    try reflexivity; try discriminate E;
    exfalso; revert E; vm_compute; float_neq.
Qed.

(** X2: on an output with content, either metric gives the score 1.0
    exactly when all four of its checks are satisfied. *)
Theorem perfect_score_iff (m : metric) (p : Prediction) :
  no_content (code_output p) = false ->
  (score (metric_call m p) = 1.0%float <->
   outcomes m (code_output p) = [true; true; true; true]).
Proof.
  intros H. rewrite (score_from_outcomes m p H).
  destruct m; apply score_of_outcomes_perfect.
Qed.

Lemma perfect_score_iff_witness :
  no_content (code_output (with_output ts_sample)) = false /\
  (score (metric_call TypeScript (with_output ts_sample)) = 1.0%float <->
   outcomes TypeScript (code_output (with_output ts_sample)) = [true; true; true; true]).
Proof.
  split; [reflexivity|].
  exact (perfect_score_iff TypeScript (with_output ts_sample) eq_refl).
Defined.

(** ** Adapter and metric together *)

Lemma blank_prediction_scores_zero (m : metric) (co : string) (d : option string)
      (r : string) :
  all_space co = true ->
  metric_call m (mkPrediction co d r) = mkScore 0.0 "No content generated".
Proof. intros H. apply blank_output_result. exact H. Qed.

(** X3: when the external invocation raises, the prediction either
    adapter returns gets the score 0.0 and the feedback
    [No content generated] from either metric. *)
Theorem failed_invocation_scores_zero (k : adapter_kind) (m : metric) (run : process)
        (self : Adapter) (story tech : string) (e : exn) :
  run (adapter_argv k self story tech) = Raise e ->
  exists p,
    adapter_forward k run self story tech = Ret p /\
    metric_call m p = mkScore 0.0 "No content generated".
Proof.
  intros H. destruct k; simpl in H; eexists.
  - split.
    + simpl. unfold TypeScriptCodeAdapter.forward. rewrite H. reflexivity.
    + apply blank_prediction_scores_zero. reflexivity.
  - split.
    + simpl. unfold TestDocAdapter.forward. rewrite H. reflexivity.
    + apply blank_prediction_scores_zero. reflexivity.
Qed.

Lemma failed_invocation_scores_zero_witness :
  missing_binary (adapter_argv TypeScriptCode (mkAdapter "/no/such/gemini" [] "Be brief.")
                               "story" "TS") =
    Raise (Exception "FileNotFoundError"
                     "[Errno 2] No such file or directory: '/no/such/gemini'") /\
  exists p,
    adapter_forward TypeScriptCode missing_binary
                    (mkAdapter "/no/such/gemini" [] "Be brief.") "story" "TS" = Ret p /\
    metric_call TestDoc p = mkScore 0.0 "No content generated".
Proof.
  split; [reflexivity|].
  exact (failed_invocation_scores_zero TypeScriptCode TestDoc missing_binary
           (mkAdapter "/no/such/gemini" [] "Be brief.") "story" "TS" _ eq_refl).
Defined.

(** X4: when the process returns, the prediction of the documentation
    adapter gets the score 0.0 from the documentation metric exactly when
    the captured output is empty or white space; any other output scores at
    least 0.375. *)
Theorem doc_response_score (run : process) (self : Adapter) (story tech : string)
        (result : CompletedProcess) :
  run (adapter_argv TestDocumentation self story tech) = Ret result ->
  exists p,
    TestDocAdapter.forward run self story tech = Ret p /\
    (all_space (stdout result) = true -> score (TestDocMetric.call p) = 0.0%float) /\
    (all_space (stdout result) = false ->
     (0.375 <=? score (TestDocMetric.call p))%float = true) /\
    (score (TestDocMetric.call p) = 0.0%float <-> all_space (stdout result) = true).
Proof.
  intros H. eexists. split; [apply (doc_forward_completed _ _ _ _ _ H)|].
  set (p := mkPrediction (stdout result) (Some (stdout result))
                         (_extract_reasoning (stdout result))).
  assert (Hz : all_space (stdout result) = true -> score (TestDocMetric.call p) = 0.0%float).
  { intros Hb. change (TestDocMetric.call p) with (metric_call TestDoc p).
    unfold p. rewrite blank_prediction_scores_zero by exact Hb. reflexivity. }
  assert (Hn : all_space (stdout result) = false ->
               (0.375 <=? score (TestDocMetric.call p))%float = true /\
               score (TestDocMetric.call p) <> 0.0%float).
  { intros Hb. rewrite <- no_content_all_space in Hb.
    destruct (doc_score_range p Hb) as (L & _ & _). split; [exact L|].
    rewrite (doc_score_outcomes p Hb). unfold hard, soft.
    repeat match goal with |- context [if ?b then _ else _] => destruct b end;
      float_neq. }
  split; [exact Hz|]. split; [apply Hn|].
  split.
  - intros E. destruct (all_space (stdout result)) eqn:Hb; [reflexivity|].
    exfalso. apply (proj2 (Hn eq_refl)), E.
  - exact Hz.
Qed.

Lemma doc_response_score_witness :
  prints "   " (adapter_argv TestDocumentation (mkAdapter "gemini" [] "Be brief.")
                             "story" "Jest") = Ret (mkCompleted "   " "") /\
  exists p,
    TestDocAdapter.forward (prints "   ") (mkAdapter "gemini" [] "Be brief.")
                           "story" "Jest" = Ret p /\
    score (TestDocMetric.call p) = 0.0%float.
Proof.
  split; [reflexivity|].
  destruct (doc_response_score (prints "   ") (mkAdapter "gemini" [] "Be brief.")
              "story" "Jest" (mkCompleted "   " "") eq_refl)
    as (p & Hf & Hz & _).
  exists p. split; [exact Hf|]. apply Hz. reflexivity.
Defined.

(** ** Prompts *)

Lemma demos_text_first_two (ds : list string) :
  demos_text (firstn 2 ds) = demos_text ds.
Proof. destruct ds as [|d1 [|d2 ds]]; reflexivity. Qed.

(** X5: only the first two demos reach a prompt: whatever the adapter
    holds beyond them, both adapters build the prompt they would build from
    the first two alone, and so hand the same arguments to the process. *)
Theorem prompt_takes_two_demos (k : adapter_kind) (self : Adapter)
        (story tech : string) :
  adapter_argv k (with_demos self (firstn 2 (demos self))) story tech =
  adapter_argv k self story tech.
Proof.
  destruct k; unfold adapter_argv, with_demos,
    TypeScriptCodeAdapter._prepare_prompt, TestDocAdapter._prepare_prompt;
    cbn [gemini_binary demos instructions];
    rewrite demos_text_first_two; reflexivity.
Qed.

(** ** The reflection LM on any prompt *)

Lemma content_of_plain_eq (out : string) :
  CLIReflectionLM.content_of false out =
  if is_empty (strip out)
  then dumps_proposal "Follow the task requirements carefully."
  else match re_search CLIReflectionLM.json_re (strip out) reflection_flags with
       | Some m => if is_empty (group0 m)
                   then dumps_proposal "Follow the task requirements carefully."
                   else group0 m
       | None => strip out
       end.
Proof.
  unfold CLIReflectionLM.content_of. fold reflection_flags.
  destruct (is_empty (strip out)) eqn:He; simpl.
  - rewrite He. reflexivity.
  - destruct (re_search _ _ _); [reflexivity|]. rewrite He. reflexivity.
Qed.

Lemma content_of_not_empty (is_copro : bool) (out : string) :
  is_empty (CLIReflectionLM.content_of is_copro out) = false.
Proof.
  destruct is_copro; [rewrite content_of_request_eq | rewrite content_of_plain_eq];
    destruct (is_empty (strip out)) eqn:He; try reflexivity;
    destruct (re_search CLIReflectionLM.json_re (strip out) reflection_flags)
      as [m|] eqn:Hs; try reflexivity; try exact He;
    destruct (json_search_some _ _ Hs) as (Hshape & _);
    rewrite (json_shaped_not_empty _ Hshape); apply json_shaped_not_empty, Hshape.
Qed.

(** X6: for every prompt, reflection request or not, and whatever the
    process does, [CLIReflectionLM.forward] returns a list with exactly one
    string, and that string is not empty.  For a prompt that is not a
    reflection request, an output that is not blank and holds no JSON span
    with [proposed_instruction] is returned stripped and otherwise
    unchanged. *)
Theorem reflection_one_nonempty_string (run : process) (binary_path : string)
        (model_env : option string) (prompt messages : option string) :
  (exists content,
      CLIReflectionLM.forward run binary_path model_env prompt messages
      = Ret [content] /\ content <> "") /\
  (forall result,
      CLIReflectionLM.is_copro_request (CLIReflectionLM.prompt_of prompt messages)
      = false ->
      run (reflection_argv binary_path model_env
                           (CLIReflectionLM.prompt_of prompt messages)) = Ret result ->
      strip (stdout result) <> "" ->
      ~ (exists w, json_shaped w /\ contains w (strip (stdout result))) ->
      CLIReflectionLM.forward run binary_path model_env prompt messages
      = Ret [strip (stdout result)]).
Proof.
  rewrite reflection_forward_unfold. split.
  - destruct (run _) as [result|e]; simpl; eexists; (split; [reflexivity|]).
    + intros E. pose proof (content_of_not_empty
                              (CLIReflectionLM.is_copro_request
                                 (CLIReflectionLM.prompt_of prompt messages))
                              (stdout result)) as H.
      rewrite E in H. discriminate H.
    + discriminate.
  - intros result Hreq Hrun Hne Hnone. rewrite Hrun, Hreq. simpl.
    rewrite content_of_plain_eq.
    destruct (is_empty (strip (stdout result))) eqn:He.
    { apply is_empty_true in He. contradiction. }
    destruct (re_search CLIReflectionLM.json_re (strip (stdout result)) reflection_flags)
      as [m|] eqn:Hs; [|reflexivity].
    exfalso. apply Hnone. exists (group0 m). apply (json_search_some _ _ Hs).
Qed.

(** ** Runs that do not end with a summary *)


(** ** Loading the baseline *)

Lemma path_exists_none (f : fs) (path : string) :
  path_exists f path = false <-> f path = None.
Proof.
  unfold path_exists. destruct (f path); simpl; split; congruence.
Qed.

Lemma load_reads_adapter_md (f : fs) (skill_dir text : string) :
  f (path_join skill_dir "adapter.md") = Some (File text) ->
  load_baseline_skill f skill_dir = Ret (text, "adapter.md").
Proof.
  unfold load_baseline_skill, path_exists, read_text. intros ->. reflexivity.
Qed.

Lemma load_not_found_iff (f : fs) (skill_dir : string) :
  load_baseline_skill f skill_dir
  = Raise (Exception "FileNotFoundError" ("Skill not found: " ++ skill_dir))
  <-> f (path_join skill_dir "adapter.md") = None /\
      f (path_join skill_dir "SKILL.md") = None.
Proof.
  unfold load_baseline_skill, path_exists, read_text.
  destruct (f (path_join skill_dir "adapter.md")) as [[text|names]|]; simpl.
  - split; [discriminate | intros [H _]; discriminate H].
  - split; [|intros [H _]; discriminate H].
    intros H. discriminate H.
  - destruct (f (path_join skill_dir "SKILL.md")) as [[content|names']|]; simpl.
    + split; [|intros [_ H]; discriminate H].
      destruct (re_match _ _ _); discriminate.
    + split; [|intros [_ H]; discriminate H].
      intros H. discriminate H.
    + split; [auto | reflexivity].
Qed.

(** X8: [load_baseline_skill] reads [adapter.md] whenever that path exists,
    whatever [SKILL.md] holds; every result it returns names [adapter.md]
    as the target; and it raises [FileNotFoundError] with the message
    [Skill not found: <skill_dir>] exactly when neither of the two paths
    exists. *)
Theorem load_baseline_precedence (f : fs) (skill_dir : string) :
  (forall text, f (path_join skill_dir "adapter.md") = Some (File text) ->
                load_baseline_skill f skill_dir = Ret (text, "adapter.md")) /\
  (forall r, load_baseline_skill f skill_dir = Ret r -> snd r = "adapter.md") /\
  (load_baseline_skill f skill_dir
   = Raise (Exception "FileNotFoundError" ("Skill not found: " ++ skill_dir))
   <-> f (path_join skill_dir "adapter.md") = None /\
       f (path_join skill_dir "SKILL.md") = None).
Proof.
  split; [|split].
  - intros text. apply load_reads_adapter_md.
  - intros r. unfold load_baseline_skill, path_exists, read_text.
    destruct (f (path_join skill_dir "adapter.md")) as [[text|names]|]; simpl;
      try discriminate.
    { intros [= <-]. reflexivity. }
    destruct (f (path_join skill_dir "SKILL.md")) as [[content|names']|]; simpl;
      try discriminate.
    destruct (re_match _ _ _); intros [= <-]; reflexivity.
  - apply load_not_found_iff.
Qed.

(** X9: the skill check of a dry run ends the program with status 1
    exactly when [load_baseline_skill] on the same directory raises its
    [Skill not found] error. *)
Theorem dry_run_exit_iff_skill_not_found (f : fs) (skill_dir : string) :
  dry_run_skill_check f skill_dir = Some 1 <->
  load_baseline_skill f skill_dir
  = Raise (Exception "FileNotFoundError" ("Skill not found: " ++ skill_dir)).
Proof.
  rewrite load_not_found_iff.
  unfold dry_run_skill_check.
  rewrite <- !path_exists_none.
  destruct (path_exists f (path_join skill_dir "adapter.md")),
           (path_exists f (path_join skill_dir "SKILL.md"));
    split; try discriminate; try tauto; intros [? ?]; discriminate.
Qed.

(** ** White space before a line end, and the front matter pattern *)

Lemma str_forall_space (fl : flags) (a : string) :
  str_forall (cls_match fl CSpace) a = all_space a.
Proof. induction a as [|c a IH]; [reflexivity|]. simpl. rewrite IH. reflexivity. Qed.

Lemma lstrip_app_space (a t : string) :
  all_space a = true -> lstrip (a ++ t) = lstrip t.
Proof.
  induction a as [|c a IH]; [reflexivity|]. simpl.
  intros H. apply andb_prop in H. destruct H as [Hc Ha]. rewrite Hc. auto.
Qed.

Lemma strip_app_space (a t : string) :
  all_space a = true -> strip (a ++ t) = strip t.
Proof. intros H. unfold strip. rewrite lstrip_app_space by exact H. reflexivity. Qed.

Lemma star_backtrack_once (fl : flags) (k : cls) (kont : cont) (c : ascii)
      (s : string) (g : caps) (res : string * caps) :
  cls_match fl k c = true ->
  match s with "" => True | String x _ => cls_match fl k x = false end ->
  kont (Some c) s g = None ->
  forall a p,
    str_forall (cls_match fl k) a = true ->
    kont (prev_after p a) (String c s) g = Some res ->
    star fl k p (a ++ String c s) g kont = Some res.
Proof.
  intros Hc Hs Hk. induction a as [|x a IH]; intros p Ha Hres.
  - cbn [String.append star]. rewrite Hc.
    assert (star fl k (Some c) s g kont = None) as ->.
    { destruct s as [|y s']; [exact Hk|]. cbn [star]. rewrite Hs. exact Hk. }
    exact Hres.
  - cbn [String.append star]. cbn [str_forall] in Ha. apply andb_prop in Ha.
    destruct Ha as [Hx Ha]. rewrite Hx. rewrite (IH (Some x) Ha Hres). reflexivity.
Qed.

Lemma star_any_all (kont : cont) (g : caps) (res : string * caps) :
  forall t p,
    kont (prev_after p t) "" g = Some res ->
    star dotall_flags CAny p t g kont = Some res.
Proof.
  induction t as [|c t IH]; intros p H; [exact H|].
  cbn [star cls_match DOTALL dotall_flags orb]. rewrite (IH (Some c) H). reflexivity.
Qed.

Lemma str_take_all (t : string) : str_take (String.length t) t = t.
Proof. induction t as [|c t IH]; [reflexivity|]. simpl. rewrite IH. reflexivity. Qed.

Lemma group_rest (p : option ascii) (t : string) (g : caps) :
  exec dotall_flags (Grp 1 (Star CAny)) p t g done = Some ("", (1, t) :: g).
Proof.
  cbn [exec]. apply star_any_all. unfold done, consumed.
  cbn [String.length]. rewrite Nat.sub_0_r, str_take_all. reflexivity.
Qed.

Lemma frontmatter_tail (ws2 body : string) (p : option ascii) (g : caps) :
  all_space ws2 = true ->
  exists t,
    star dotall_flags CSpace p (ws2 ++ NL ++ body) g
         (fun p' s' g' =>
            exec dotall_flags (One (CChar nl)) p' s' g'
                 (fun p'' s'' g'' =>
                    exec dotall_flags (Grp 1 (Star CAny)) p'' s'' g'' done))
    = Some ("", (1, t) :: g) /\ strip t = strip body.
Proof.
  intros Hws.
  destruct (star _ _ _ _ _ _) as [res|] eqn:E.
  - apply star_inv in E. destruct E as (a & t' & Hsplit & Ha & Hk).
    destruct t' as [|c t'']; [discriminate Hk|].
    cbn [exec cls_match chr_match IGNORECASE dotall_flags] in Hk.
    destruct (Ascii.eqb c nl) eqn:Hc; [|discriminate Hk].
    apply Ascii.eqb_eq in Hc. subst c.
    change (star dotall_flags CAny (Some nl) t'' g
              (fun p' s' g' => done p' s' ((1, consumed t'' s') :: g')))
      with (exec dotall_flags (Grp 1 (Star CAny)) (Some nl) t'' g done) in Hk.
    rewrite group_rest in Hk. injection Hk as <-.
    exists t''. split; [reflexivity|].
    rewrite str_forall_space in Ha.
    transitivity (strip (ws2 ++ NL ++ body)).
    + rewrite Hsplit. symmetry.
      change (a ++ String nl t'') with (a ++ NL ++ t'').
      rewrite <- append_assoc. apply strip_app_space.
      rewrite all_space_app, Ha. reflexivity.
    + rewrite <- append_assoc. apply strip_app_space.
      rewrite all_space_app, Hws. reflexivity.
  - exfalso. revert E. apply star_finds.
    + rewrite str_forall_space. exact Hws.
    + cbn [NL String.append exec cls_match chr_match IGNORECASE dotall_flags].
      rewrite Ascii.eqb_refl.
      change (star dotall_flags CAny (Some nl) body g
              (fun p' s' g' => done p' s' ((1, consumed body s') :: g')))
        with (exec dotall_flags (Grp 1 (Star CAny)) (Some nl) body g done).
      rewrite group_rest. discriminate.
Qed.

Lemma exec_bol_start (fl : flags) (s : string) (g : caps) (k : cont) :
  exec fl Bol None s g k = k None s g.
Proof. reflexivity. Qed.

Lemma exec_star (fl : flags) (c : cls) (p : option ascii) (s : string)
      (g : caps) (k : cont) :
  exec fl (Star c) p s g k = star fl c p s g k.
Proof. reflexivity. Qed.

Lemma exec_star_lazy (fl : flags) (c : cls) (p : option ascii) (s : string)
      (g : caps) (k : cont) :
  exec fl (StarLazy c) p s g k = star_lazy fl c p s g k.
Proof. reflexivity. Qed.

Lemma nonspace_not_newline (c : ascii) : isspace c = false -> Ascii.eqb c nl = false.
Proof.
  intros H. destruct (Ascii.eqb c nl) eqn:E; [|reflexivity].
  apply Ascii.eqb_eq in E. subst c. discriminate H.
Qed.

Lemma frontmatter_match (ws1 fm ws2 body : string) :
  all_space ws1 = true -> all_space ws2 = true ->
  starts_with_text fm = true ->
  occurs_first (String nl "---") fm = true ->
  exists m,
    re_match skill_frontmatter_re
             ("---" ++ ws1 ++ NL ++ fm ++ NL ++ "---" ++ ws2 ++ NL ++ body)
             dotall_flags = Some m /\
    strip (group 1 m) = strip body.
Proof.
  intros H1 H2 Hfm Hocc.
  destruct fm as [|c fm']; [discriminate Hfm|].
  cbn [starts_with_text] in Hfm. apply negb_true_iff in Hfm.
  destruct (frontmatter_tail ws2 body (Some "-"%char) [] H2) as (t & Ht & Hstrip).
  set (rest := ws2 ++ NL ++ body) in *.
  assert (exec dotall_flags skill_frontmatter_re None
               ("---" ++ ws1 ++ NL ++ String c fm' ++ NL ++ "---" ++ rest) [] done
          = Some ("", [(1, t)])) as Hexec.
  { unfold skill_frontmatter_re. cbn [seqs].
    rewrite exec_seq, exec_bol_start.
    rewrite exec_seq, (exec_lit_app dotall_flags "---" eq_refl).
    rewrite exec_seq, exec_star.
    change (ws1 ++ NL ++ String c fm' ++ NL ++ "---" ++ rest)
      with (ws1 ++ String nl (String c fm' ++ NL ++ "---" ++ rest)).
    apply star_backtrack_once.
    - reflexivity.
    - cbn [String.append cls_match]. exact Hfm.
    - rewrite exec_seq. cbn [String.append exec cls_match chr_match IGNORECASE dotall_flags].
      rewrite (nonspace_not_newline c Hfm). reflexivity.
    - rewrite str_forall_space. exact H1.
    - rewrite exec_seq.
      change (exec dotall_flags (One (CChar nl)) ?p (String nl ?x) ?g ?k)
        with (k (Some nl) x g).
      cbv beta.
      rewrite exec_seq, exec_star_lazy.
      rewrite star_lazy_skip.
      + apply star_lazy_here.
        change (NL ++ "---" ++ rest) with (String nl "---" ++ rest).
        rewrite exec_seq, (exec_lit_app dotall_flags (String nl "---") eq_refl).
        rewrite exec_seq, exec_star. exact Ht.
      + apply any_matches_all.
      + intros a1 a2 E Hne. cbv beta.
        change (NL ++ "---" ++ rest) with (String nl "---" ++ rest).
        rewrite exec_seq. apply exec_lit_none; [reflexivity|].
        apply (occurs_first_suffix (String nl "---") (String c fm')
                 ltac:(discriminate) Hocc a1 a2 rest E Hne). }
  unfold re_match, match_at. rewrite Hexec.
  eexists. split; [reflexivity|]. exact Hstrip.
Qed.

Lemma no_frontmatter_no_match (content : string) :
  prefix "---" content = false ->
  re_match skill_frontmatter_re content dotall_flags = None.
Proof.
  intros H. unfold re_match, match_at, skill_frontmatter_re. cbn [seqs].
  rewrite exec_seq, exec_bol_start, exec_seq.
  rewrite (exec_lit_none dotall_flags "---" content None [] _ eq_refl H).
  reflexivity.
Qed.

(** X10: without [adapter.md], a [SKILL.md] that opens with a front matter
    block (a line of three dashes, the block, a line of three dashes; white
    space may follow the dashes) yields the text after the block with the
    white space at both ends removed.  The block starts with text and has
    no line that starts with three dashes. *)
Theorem skill_md_frontmatter_dropped (f : fs) (skill_dir ws1 fm ws2 body : string) :
  f (path_join skill_dir "adapter.md") = None ->
  f (path_join skill_dir "SKILL.md")
  = Some (File ("---" ++ ws1 ++ NL ++ fm ++ NL ++ "---" ++ ws2 ++ NL ++ body)) ->
  all_space ws1 = true -> all_space ws2 = true ->
  starts_with_text fm = true ->
  occurs_first (String nl "---") fm = true ->
  load_baseline_skill f skill_dir = Ret (strip body, "adapter.md").
Proof.
  intros Ha Hs H1 H2 Hfm Hocc.
  unfold load_baseline_skill, path_exists, read_text. rewrite Ha, Hs.
  cbn [truthy bind].
  destruct (frontmatter_match ws1 fm ws2 body H1 H2 Hfm Hocc) as (m & -> & ->).
  reflexivity.
Qed.

Lemma skill_md_frontmatter_dropped_witness :
  load_baseline_skill
    (only_skill_md "/repo/skills/qa-engineer"
       ("---" ++ " " ++ NL ++ "name: qa-engineer" ++ NL ++ "---" ++ "" ++ NL
        ++ String nl "# QA" ++ NL ++ "Write tests first." ++ NL))
    "/repo/skills/qa-engineer"
  = Ret ("# QA" ++ NL ++ "Write tests first.", "adapter.md").
Proof.
  apply (skill_md_frontmatter_dropped
           (only_skill_md "/repo/skills/qa-engineer"
              ("---" ++ " " ++ NL ++ "name: qa-engineer" ++ NL ++ "---" ++ "" ++ NL
               ++ String nl "# QA" ++ NL ++ "Write tests first." ++ NL))
           "/repo/skills/qa-engineer" " " "name: qa-engineer" ""
           (String nl "# QA" ++ NL ++ "Write tests first." ++ NL));
    reflexivity.
Defined.

(** X11: without [adapter.md], a [SKILL.md] that does not start with three
    dashes is returned as it is: white space at its ends is kept, unlike in
    the text that follows a front matter block. *)
Theorem skill_md_without_frontmatter (f : fs) (skill_dir content : string) :
  f (path_join skill_dir "adapter.md") = None ->
  f (path_join skill_dir "SKILL.md") = Some (File content) ->
  prefix "---" content = false ->
  load_baseline_skill f skill_dir = Ret (content, "adapter.md").
Proof.
  intros Ha Hs Hp.
  unfold load_baseline_skill, path_exists, read_text. rewrite Ha, Hs.
  cbn [truthy bind]. rewrite (no_frontmatter_no_match content Hp). reflexivity.
Qed.

Lemma skill_md_without_frontmatter_witness :
  load_baseline_skill
    (only_skill_md "/repo/skills/qa-engineer" (String nl "  # QA  " ++ NL))
    "/repo/skills/qa-engineer"
  = Ret (String nl "  # QA  " ++ NL, "adapter.md").
Proof.
  apply (skill_md_without_frontmatter
           (only_skill_md "/repo/skills/qa-engineer" (String nl "  # QA  " ++ NL))
           "/repo/skills/qa-engineer" (String nl "  # QA  " ++ NL));
    reflexivity.
Defined.






(** ** Sections of a markdown text *)

Lemma prefix_split (w : string) :
  forall s, prefix w s = true -> exists t, s = w ++ t.
Proof.
  induction w as [|c w IH]; intros s H.
  - exists s. reflexivity.
  - destruct s as [|x s]; [discriminate H|].
    rewrite prefix_cons in H. apply andb_prop in H. destruct H as [Hc Hw].
    apply Ascii.eqb_eq in Hc. subst x.
    destruct (IH s Hw) as (t & ->). exists t. reflexivity.
Qed.

Lemma prefix_app_r (w s t : string) :
  prefix w s = true -> prefix w (s ++ t) = true.
Proof.
  intros H. destruct (prefix_split _ _ H) as (t0 & ->).
  rewrite append_assoc. apply prefix_app.
Qed.

Lemma str_in_app_r (w s t : string) :
  str_in w s = true -> str_in w (s ++ t) = true.
Proof.
  induction s as [|c s IH]; intros H.
  - rewrite str_in_unfold in H. rewrite orb_false_r in H.
    rewrite str_in_unfold. rewrite (prefix_app_r _ _ t H). reflexivity.
  - rewrite str_in_unfold in H. apply orb_true_iff in H.
    rewrite str_in_unfold. destruct H as [Hp | Hr].
    + rewrite (prefix_app_r _ _ t Hp). reflexivity.
    + cbn [String.append]. rewrite (IH Hr). apply orb_true_r.
Qed.

Lemma section_stop_eq (p : option ascii) (s : string) (g : caps) :
  section_stop p s g =
  if prefix (String nl "## ") s || is_empty s then Some (s, g) else None.
Proof.
  unfold section_stop.
  change (exec dotall_flags (Ahead (lit (String nl "## "))) p s g done)
    with (match exec dotall_flags (lit (String nl "## ")) p s g done with
          | Some (_, g') => done p s g'
          | None => None
          end).
  destruct (prefix (String nl "## ") s) eqn:E.
  - destruct (prefix_split _ _ E) as (t & ->).
    rewrite (exec_lit_app dotall_flags (String nl "## ") eq_refl). reflexivity.
  - rewrite (exec_lit_none dotall_flags _ _ p g done eq_refl E). reflexivity.
Qed.

Lemma search_then_pass (fl : flags) (r : regex) (stop : cont) :
  forall pre i p t,
    (forall a1 a2 j q, pre = a1 ++ a2 -> a2 <> "" ->
                       match_at_then fl r stop j q (a2 ++ t) = None) ->
    search_from_then fl r stop i p (pre ++ t) =
    search_from_then fl r stop (i + String.length pre) (prev_after p pre) t.
Proof.
  induction pre as [|x pre IH]; intros i p t H.
  - simpl. rewrite Nat.add_0_r. reflexivity.
  - assert (H0 : match_at_then fl r stop i p (String x (pre ++ t)) = None)
      by (apply (H "" (String x pre) i p eq_refl); discriminate).
    simpl. rewrite H0, Nat.add_succ_r. apply IH.
    intros a1 a2 j q -> Hne. apply (H (String x a1) a2 j q eq_refl Hne).
Qed.

Lemma search_then_here (fl : flags) (r : regex) (stop : cont) (i : nat)
      (p : option ascii) (s : string) (m : rmatch) :
  match_at_then fl r stop i p s = Some m ->
  search_from_then fl r stop i p s = Some m.
Proof. intros H. destruct s; simpl; rewrite H; reflexivity. Qed.

Lemma search_then_none (fl : flags) (r : regex) (stop : cont) :
  forall s i p,
    (forall a1 a2 j q, s = a1 ++ a2 -> match_at_then fl r stop j q a2 = None) ->
    search_from_then fl r stop i p s = None.
Proof.
  induction s as [|x s IH]; intros i p H.
  - simpl. rewrite (H "" "" i p eq_refl). reflexivity.
  - simpl. rewrite (H "" (String x s) i p eq_refl). apply IH.
    intros a1 a2 j q ->. apply (H (String x a1) a2 j q eq_refl).
Qed.

Lemma section_needs_header (section_name s : string) (i : nat) (p : option ascii) :
  prefix ("## " ++ section_name) s = false ->
  match_at_then dotall_flags (section_re section_name) section_stop i p s = None.
Proof.
  intros H. unfold match_at_then, section_re. cbn [seqs].
  rewrite exec_seq.
  rewrite (exec_lit_none dotall_flags _ _ p [] _ eq_refl H). reflexivity.
Qed.

Lemma section_group (body tail : string) (p : option ascii) (g : caps) :
  section_ends body tail ->
  exec dotall_flags (Grp 1 (StarLazy CAny)) p (body ++ tail) g section_stop
  = Some (tail, (1, body) :: g).
Proof.
  intros [Hocc Htail].
  change (exec dotall_flags (Grp 1 (StarLazy CAny)) p (body ++ tail) g section_stop)
    with (star_lazy dotall_flags CAny p (body ++ tail) g
            (fun p' s' g' => section_stop p' s' ((1, consumed (body ++ tail) s') :: g'))).
  rewrite star_lazy_skip.
  - apply star_lazy_here. rewrite section_stop_eq, consumed_app.
    destruct Htail as [-> | (t & ->)]; [reflexivity|].
    rewrite prefix_app. reflexivity.
  - apply any_matches_all.
  - intros a1 a2 E Hne. cbv beta. rewrite section_stop_eq.
    assert (is_empty (a2 ++ tail) = false) as ->.
    { destruct a2; [contradiction Hne; reflexivity | reflexivity]. }
    rewrite orb_false_r.
    assert (prefix (String nl "## ") (a2 ++ tail) = false) as ->; [|reflexivity].
    destruct Htail as [-> | (t & ->)].
    + rewrite append_nil_r.
      apply str_in_false_prefix. apply (str_in_tail _ a1).
      rewrite <- E. unfold occurs_first in Hocc. apply negb_true_iff in Hocc.
      destruct (str_in (String nl "## ") body) eqn:Hin; [|reflexivity].
      exfalso.
      rewrite (str_in_app_r _ _ (str_init (String nl "## ")) Hin) in Hocc.
      discriminate Hocc.
    + apply (occurs_first_suffix (String nl "## ") body ltac:(discriminate) Hocc
               a1 a2 t E Hne).
Qed.

Lemma section_match (section_name ws body tail : string) (i : nat) (p : option ascii) :
  all_space ws = true -> starts_with_text body = true -> section_ends body tail ->
  exists txt,
    match_at_then dotall_flags (section_re section_name) section_stop i p
                  (("## " ++ section_name) ++ ws ++ NL ++ body ++ tail)
    = Some (RMatch i txt [(1, body)]).
Proof.
  intros Hws Hbody Hends.
  destruct body as [|c body']; [discriminate Hbody|].
  cbn [starts_with_text] in Hbody. apply negb_true_iff in Hbody.
  assert (exec dotall_flags (section_re section_name) p
               (("## " ++ section_name) ++ ws ++ NL ++ String c body' ++ tail)
               [] section_stop
          = Some (tail, [(1, String c body')])) as Hexec.
  { unfold section_re. cbn [seqs].
    rewrite exec_seq, (exec_lit_app dotall_flags ("## " ++ section_name) eq_refl).
    rewrite exec_seq, exec_star.
    change (ws ++ NL ++ String c body' ++ tail)
      with (ws ++ String nl (String c body' ++ tail)).
    apply star_backtrack_once.
    - reflexivity.
    - cbn [String.append cls_match]. exact Hbody.
    - rewrite exec_seq.
      cbn [String.append exec cls_match chr_match IGNORECASE dotall_flags].
      rewrite (nonspace_not_newline c Hbody). reflexivity.
    - rewrite str_forall_space. exact Hws.
    - rewrite exec_seq.
      change (exec dotall_flags (One (CChar nl)) ?p (String nl ?x) ?g ?k)
        with (k (Some nl) x g).
      cbv beta. apply section_group. exact Hends. }
  unfold match_at_then. rewrite Hexec. eexists. reflexivity.
Qed.

Lemma section_found (pre section_name ws body tail : string) :
  plain_name section_name = true ->
  occurs_first ("## " ++ section_name) pre = true ->
  all_space ws = true -> starts_with_text body = true ->
  section_ends body tail ->
  extract_section (pre ++ ("## " ++ section_name) ++ ws ++ NL ++ body ++ tail)
                  section_name
  = strip body.
Proof.
  intros _ Hpre Hws Hbody Hends. unfold extract_section.
  rewrite search_then_pass.
  2:{ intros a1 a2 j q E Hne. apply section_needs_header.
      rewrite append_assoc.
      apply (occurs_first_suffix ("## " ++ section_name) pre ltac:(discriminate) Hpre
               a1 a2 _ E Hne). }
  destruct (section_match section_name ws body tail (0 + String.length pre)
              (prev_after None pre) Hws Hbody Hends) as (txt & Hm).
  rewrite (search_then_here _ _ _ _ _ _ _ Hm). reflexivity.
Qed.

Lemma section_missing (content section_name : string) :
  plain_name section_name = true ->
  str_in ("## " ++ section_name) content = false ->
  extract_section content section_name = "".
Proof.
  intros _ H. unfold extract_section.
  rewrite search_then_none; [reflexivity|].
  intros a1 a2 j q E. apply section_needs_header.
  apply str_in_false_prefix. apply (str_in_tail _ a1). rewrite <- E. exact H.
Qed.



Lemma star_lazy_inv (fl : flags) (c : cls) (k : cont) :
  forall s p g res,
    star_lazy fl c p s g k = Some res ->
    exists a t, s = a ++ t /\ k (prev_after p a) t g = Some res /\
                forall a1 a2, a = a1 ++ a2 -> a2 <> "" ->
                              k (prev_after p a1) (a2 ++ t) g = None.
Proof.
  induction s as [|x s IH]; intros p g res H.
  - cbn [star_lazy] in H. destruct (k p "" g) eqn:E; [|discriminate H].
    exists "", "". split; [reflexivity|]. split; [cbn [prev_after]; congruence|].
    intros a1 a2 E' Hne. destruct a1; destruct a2; try discriminate E'.
    contradiction Hne; reflexivity.
  - cbn [star_lazy] in H. destruct (k p (String x s) g) eqn:E.
    + exists "", (String x s). split; [reflexivity|]. split; [cbn [prev_after]; congruence|].
      intros a1 a2 E' Hne. destruct a1; destruct a2; try discriminate E'.
      contradiction Hne; reflexivity.
    + destruct (cls_match fl c x); [|discriminate H].
      destruct (IH _ _ _ H) as (a & t & -> & Hk & Hall).
      exists (String x a), t. split; [reflexivity|]. split; [exact Hk|].
      intros a1 a2 E' Hne. destruct a1 as [|y a1].
      * cbn [String.append] in E'. subst a2. exact E.
      * cbn [String.append] in E'. injection E' as -> ->.
        apply (Hall a1 a2 eq_refl Hne).
Qed.


Lemma no_prefix_no_occurrence (w a t : string) :
  w <> "" ->
  (forall a1 a2, a = a1 ++ a2 -> a2 <> "" -> prefix w (a2 ++ t) = false) ->
  str_in w a = false.
Proof.
  intros Hw. induction a as [|x a IH]; intros H.
  - destruct w; [contradiction Hw; reflexivity | reflexivity].
  - rewrite str_in_unfold. rewrite IH.
    + rewrite orb_false_r. destruct (prefix w (String x a)) eqn:E; [|reflexivity].
      rewrite <- (H "" (String x a) eq_refl ltac:(discriminate)).
      symmetry. apply prefix_app_r. exact E.
    + intros a1 a2 -> Hne. apply (H (String x a1) a2 eq_refl Hne).
Qed.

Lemma lstrip_suffix (a : string) : exists l, a = l ++ lstrip a.
Proof.
  induction a as [|c a IH].
  - exists "". reflexivity.
  - cbn [lstrip]. destruct (isspace c).
    + destruct IH as (l & E). exists (String c l). cbn [String.append].
      rewrite <- E. reflexivity.
    + exists "". reflexivity.
Qed.

Lemma rstrip_prefix (b : string) : exists r, b = rstrip b ++ r.
Proof.
  induction b as [|c b IH].
  - exists "". reflexivity.
  - cbn [rstrip]. destruct IH as (r & E).
    destruct (isspace c && is_empty (rstrip b)).
    + exists (String c b). reflexivity.
    + exists r. cbn [String.append]. rewrite <- E. reflexivity.
Qed.

Lemma str_in_strip (w a : string) :
  str_in w a = false -> str_in w (strip a) = false.
Proof.
  intros H. destruct (str_in w (strip a)) eqn:E; [|reflexivity].
  unfold strip in E.
  destruct (rstrip_prefix (lstrip a)) as (r & Er).
  apply (str_in_app_r _ _ r) in E. rewrite <- Er in E.
  destruct (lstrip_suffix a) as (l & El).
  apply (str_in_app _ l) in E. rewrite <- El in E. congruence.
Qed.

Lemma rstrip_idem (b : string) : rstrip (rstrip b) = rstrip b.
Proof.
  induction b as [|c b IH]; [reflexivity|].
  cbn [rstrip]. destruct (isspace c && is_empty (rstrip b)) eqn:E; [reflexivity|].
  cbn [rstrip]. rewrite IH, E. reflexivity.
Qed.

Lemma strip_shape (a : string) :
  strip a = "" \/
  exists c t, strip a = String c t /\ isspace c = false /\ rstrip t = t.
Proof.
  unfold strip. destruct (all_space a) eqn:E.
  - left. rewrite (lstrip_all_space a E). reflexivity.
  - right. destruct (lstrip_some_nonspace a E) as (c & t & -> & Hc).
    rewrite (rstrip_keeps_nonspace_head c t Hc).
    exists c, (rstrip t). split; [reflexivity|]. split; [exact Hc|].
    apply rstrip_idem.
Qed.

Lemma strip_idem (a : string) : strip (strip a) = strip a.
Proof.
  destruct (strip_shape a) as [-> | (c & t & -> & Hc & Ht)]; [reflexivity|].
  unfold strip. cbn [lstrip]. rewrite Hc.
  rewrite (rstrip_keeps_nonspace_head c t Hc), Ht. reflexivity.
Qed.





Lemma prefix_before_sep (c : ascii) (t' : string) :
  forall w u, lacks c w = true ->
              prefix w (u ++ String c t') = true -> prefix w u = true.
Proof.
  induction w as [|y w IH]; intros u Hw H.
  - apply prefix_nil.
  - cbn [lacks str_forall] in Hw. apply andb_prop in Hw. destruct Hw as [Hy Hw].
    destruct u as [|a u].
    + cbn [String.append] in H. rewrite prefix_cons in H.
      apply andb_prop in H. destruct H as [H _].
      rewrite H in Hy. discriminate Hy.
    + cbn [String.append] in H. rewrite prefix_cons in H |- *.
      apply andb_prop in H. destruct H as [Ha H].
      rewrite Ha. apply (IH u Hw H).
Qed.

Lemma str_in_app_sep (c0 : ascii) (w' : string) (c : ascii) (t' : string) :
  lacks c w' = true ->
  forall x,
    str_in (String c0 w') (x ++ String c t') =
    str_in (String c0 w') x || str_in (String c0 w') (String c t').
Proof.
  intros Hw. induction x as [|a x IH].
  - reflexivity.
  - cbn [String.append]. rewrite (str_in_unfold _ (String a (x ++ String c t'))).
    rewrite (str_in_unfold _ (String a x)). rewrite IH.
    rewrite orb_assoc. f_equal.
    rewrite !prefix_cons.
    destruct (Ascii.eqb c0 a); [|reflexivity]. cbn [andb].
    destruct (prefix w' (x ++ String c t')) eqn:E.
    + rewrite (prefix_before_sep c t' w' x Hw E). reflexivity.
    + destruct (prefix w' x) eqn:E'; [|reflexivity].
      rewrite (prefix_app_r _ _ (String c t') E') in E. discriminate E.
Qed.

Lemma str_in_lines (w x y : string) :
  w <> "" -> lacks nl w = true ->
  str_in w (x ++ String nl y) = str_in w x || str_in w y.
Proof.
  intros Hne Hw. destruct w as [|c0 w']; [contradiction Hne; reflexivity|].
  cbn [lacks str_forall] in Hw. apply andb_prop in Hw. destruct Hw as [H0 Hw].
  rewrite (str_in_app_sep c0 w' nl y Hw). f_equal.
  rewrite (str_in_unfold _ (String nl y)), prefix_cons.
  apply negb_true_iff in H0. rewrite H0. reflexivity.
Qed.

Lemma section_text_parts (x : string) :
  section_text x = true ->
  starts_with_text x = true /\ strip x = x /\ str_in (String nl "## ") x = false.
Proof.
  unfold section_text. intros H.
  apply andb_prop in H. destruct H as [H H3].
  apply andb_prop in H. destruct H as [H1 H2].
  apply String.eqb_eq in H2. apply negb_true_iff in H3. auto.
Qed.

Lemma starts_with_text_app (x t : string) :
  starts_with_text x = true -> starts_with_text (x ++ t) = true.
Proof. destruct x; [discriminate | intros H; exact H]. Qed.

Lemma body_line_ends (x t : string) :
  str_in (String nl "## ") x = false ->
  section_ends (x ++ NL) (String nl "## " ++ t).
Proof.
  intros H. split; [|right; exists t; reflexivity].
  unfold occurs_first. apply negb_true_iff.
  rewrite append_assoc.
  change (NL ++ str_init (String nl "## ")) with (String nl (String nl "##")).
  rewrite (str_in_app_sep nl "## " nl (String nl "##") eq_refl), H. reflexivity.
Qed.

Lemma body_last_ends (x : string) :
  str_in (String nl "## ") x = false -> section_ends x "".
Proof.
  intros H. split; [|left; reflexivity].
  unfold occurs_first. apply negb_true_iff.
  change (str_init (String nl "## ")) with (String nl "##").
  rewrite (str_in_app_sep nl "## " nl "##" eq_refl), H. reflexivity.
Qed.

Lemma demo_shape (ex : golden.Example) :
  demo_of ex =
  "## Problem" ++ String nl (golden.problem ex ++ String nl (String nl
     ("## Solution" ++ String nl (golden.solution ex
                                  ++ techniques_tail (golden.key_techniques ex))))).
Proof.
  unfold demo_of, techniques_tail.
  destruct (negb (is_empty (golden.key_techniques ex))).
  - rewrite !append_assoc. reflexivity.
  - rewrite append_nil_r. reflexivity.
Qed.

Lemma str_in_after_nl (w y : string) :
  w <> "" -> lacks nl w = true ->
  str_in w (String nl y) = str_in w y.
Proof.
  intros Hne Hw. change (String nl y) with ("" ++ String nl y).
  rewrite (str_in_lines w "" y Hne Hw).
  destruct w; [contradiction Hne; reflexivity | reflexivity].
Qed.

Ltac str_assoc :=
  repeat first [rewrite append_assoc | progress cbn [String.append NL]].

Ltac by_lines :=
  repeat first
    [ rewrite str_in_lines by (discriminate || reflexivity)
    | rewrite str_in_after_nl by (discriminate || reflexivity) ].

Lemma demo_sections (ex : golden.Example) :
  section_text (golden.problem ex) = true ->
  section_text (golden.solution ex) = true ->
  golden.key_techniques ex = "" \/ section_text (golden.key_techniques ex) = true ->
  str_in "## Solution" (golden.problem ex) = false ->
  str_in "## Key Techniques" (golden.problem ex) = false ->
  str_in "## Key Techniques" (golden.solution ex) = false ->
  extract_section (demo_of ex) "Problem" = golden.problem ex /\
  extract_section (demo_of ex) "Solution" = golden.solution ex /\
  extract_section (demo_of ex) "Key Techniques" = golden.key_techniques ex.
Proof.
  intros Hp Hs Hk Hps Hpk Hsk.
  destruct (section_text_parts _ Hp) as (Hp1 & Hp2 & Hp3).
  destruct (section_text_parts _ Hs) as (Hs1 & Hs2 & Hs3).
  rewrite demo_shape.
  set (p := golden.problem ex) in *. set (s := golden.solution ex) in *.
  set (k := golden.key_techniques ex) in *.
  assert (Hpre : occurs_first "## Solution"
                   ("## Problem" ++ String nl (p ++ String nl NL)) = true).
  { unfold occurs_first. apply negb_true_iff.
    change (str_init "## Solution") with "## Solutio".
    replace (("## Problem" ++ String nl (p ++ String nl NL)) ++ "## Solutio")
      with ("## Problem" ++ String nl (p ++ String nl (String nl "## Solutio")))
      by (str_assoc; reflexivity).
    by_lines. rewrite Hps. reflexivity. }
  split; [|split].
  - change ("## Problem" ++ String nl (p ++ String nl (String nl
              ("## Solution" ++ String nl (s ++ techniques_tail k)))))
      with ("" ++ ("## " ++ "Problem") ++ "" ++ NL ++ p ++ NL
               ++ (String nl "## " ++ ("Solution" ++ String nl (s ++ techniques_tail k)))).
    rewrite <- (append_assoc p NL).
    rewrite section_found.
    + rewrite strip_app_newline. exact Hp2.
    + reflexivity.
    + reflexivity.
    + reflexivity.
    + apply starts_with_text_app. exact Hp1.
    + apply body_line_ends. exact Hp3.
  - unfold techniques_tail. destruct (is_empty k) eqn:Ek; cbn [negb].
    + transitivity (extract_section
                      (("## Problem" ++ String nl (p ++ String nl NL))
                         ++ ("## " ++ "Solution") ++ "" ++ NL ++ s ++ "") "Solution").
      { f_equal; str_assoc; reflexivity. }
      rewrite section_found; try reflexivity; try assumption.
      apply body_last_ends. exact Hs3.
    + transitivity (extract_section
                      (("## Problem" ++ String nl (p ++ String nl NL))
                         ++ ("## " ++ "Solution") ++ "" ++ NL ++ (s ++ NL)
                         ++ (String nl "## " ++ ("Key Techniques" ++ String nl k)))
                      "Solution").
      { f_equal; str_assoc; reflexivity. }
      rewrite section_found; try reflexivity; try assumption.
      * rewrite strip_app_newline. exact Hs2.
      * apply starts_with_text_app. exact Hs1.
      * apply body_line_ends. exact Hs3.
  - unfold techniques_tail. destruct (is_empty k) eqn:Ek; cbn [negb].
    + destruct k; [|discriminate Ek].
      apply section_missing; [reflexivity|].
      change ("## " ++ "Key Techniques") with "## Key Techniques".
      rewrite append_nil_r. by_lines. rewrite Hpk, Hsk. reflexivity.
    + destruct Hk as [Hk | Hk]; [rewrite Hk in Ek; discriminate Ek|].
      destruct (section_text_parts _ Hk) as (Hk1 & Hk2 & Hk3).
      transitivity (extract_section
                      (("## Problem" ++ String nl (p ++ String nl (String nl
                          ("## Solution" ++ String nl (s ++ String nl NL)))))
                         ++ ("## " ++ "Key Techniques") ++ "" ++ NL ++ k ++ "")
                      "Key Techniques").
      { f_equal. rewrite append_nil_r. str_assoc. reflexivity. }
      rewrite section_found; try reflexivity; try assumption.
      * unfold occurs_first. apply negb_true_iff.
        change ("## " ++ "Key Techniques") with "## Key Techniques".
        change (str_init "## Key Techniques") with "## Key Technique".
        replace (("## Problem" ++ String nl (p ++ String nl (String nl
                    ("## Solution" ++ String nl (s ++ String nl NL)))))
                   ++ "## Key Technique")
          with ("## Problem" ++ String nl (p ++ String nl (String nl
                  ("## Solution" ++ String nl (s ++ String nl (String nl
                     "## Key Technique"))))))
          by (str_assoc; reflexivity).
        by_lines. rewrite Hpk, Hsk. reflexivity.
      * apply body_last_ends. exact Hk3.
Qed.

(** X15: the demo strings [examples_to_demos] builds can be read back with
    [extract_section]: for examples whose problem and solution are section
    texts, whose key techniques are empty or a section text, and whose
    texts do not hold the headers of the later sections, the [Problem],
    [Solution] and [Key Techniques] sections of each demo are the three
    fields of its example. *)
Theorem demos_round_trip (examples : list golden.Example) :
  forallb readable examples = true ->
  map read_demo (examples_to_demos examples) = map demo_fields examples.
Proof.
  unfold examples_to_demos. rewrite map_map. intros H.
  apply map_ext_in. intros ex Hin.
  rewrite forallb_forall in H. specialize (H ex Hin).
  unfold readable in H.
  apply andb_prop in H. destruct H as [H H6]. apply negb_true_iff in H6.
  apply andb_prop in H. destruct H as [H H5]. apply negb_true_iff in H5.
  apply andb_prop in H. destruct H as [H H4]. apply negb_true_iff in H4.
  apply andb_prop in H. destruct H as [H H3].
  apply andb_prop in H. destruct H as [H1 H2].
  unfold read_demo, demo_fields.
  assert (Hk : golden.key_techniques ex = ""
               \/ section_text (golden.key_techniques ex) = true).
  { apply orb_true_iff in H3. destruct H3 as [E | E]; [left | right; exact E].
    destruct (golden.key_techniques ex); [reflexivity | discriminate E]. }
  destruct (demo_sections ex H1 H2 Hk H4 H5 H6) as (-> & -> & ->). reflexivity.
Qed.

Lemma demos_round_trip_witness :
  map read_demo
      (examples_to_demos
         [golden.mk "ex-1" "backend" "story-1" "retry"
                    "Calls fail." ("Retry twice." ++ NL ++ "Then give up.") ""
                    "whole file";
          golden.mk "ex-2" "backend" "story-2" ""
                    "Slow start." "Cache it." "Memoize." "whole file"])
  = [("Calls fail.", "Retry twice." ++ NL ++ "Then give up.", "");
     ("Slow start.", "Cache it.", "Memoize.")].
Proof.
  apply (demos_round_trip
           [golden.mk "ex-1" "backend" "story-1" "retry"
                      "Calls fail." ("Retry twice." ++ NL ++ "Then give up.") ""
                      "whole file";
            golden.mk "ex-2" "backend" "story-2" ""
                      "Slow start." "Cache it." "Memoize." "whole file"]).
  reflexivity.
Defined.








(** ** Front matter *)

Lemma split_on_nonempty (sep : ascii) (s : string) : split_on sep s <> [].
Proof.
  destruct s as [|c s]; cbn [split_on]; [discriminate|].
  destruct (Ascii.eqb c sep); [discriminate|].
  destruct (split_on sep s); discriminate.
Qed.

Lemma split_on_line (sep : ascii) (x : string) :
  lacks sep x = true -> split_on sep x = [x].
Proof.
  induction x as [|c x IH]; intros H; [reflexivity|].
  cbn [lacks str_forall] in H. apply andb_prop in H. destruct H as [Hc Hx].
  apply negb_true_iff in Hc. cbn [split_on]. rewrite Hc, (IH Hx). reflexivity.
Qed.

Lemma split_on_app (sep : ascii) (x rest : string) :
  lacks sep x = true ->
  split_on sep (x ++ String sep rest) = x :: split_on sep rest.
Proof.
  induction x as [|c x IH]; intros H.
  - cbn [String.append split_on]. rewrite Ascii.eqb_refl. reflexivity.
  - cbn [lacks str_forall] in H. apply andb_prop in H. destruct H as [Hc Hx].
    apply negb_true_iff in Hc. cbn [String.append split_on].
    rewrite Hc, (IH Hx). reflexivity.
Qed.

Lemma split_on_concat (ls : list string) :
  ls <> [] -> Forall (fun x => lacks nl x = true) ls ->
  split_on nl (concat NL ls) = ls.
Proof.
  induction ls as [|x ls IH]; intros Hne H; [contradiction Hne; reflexivity|].
  inversion H as [|? ? Hx Hls]; subst.
  destruct ls as [|y ls].
  - cbn [concat]. apply split_on_line. exact Hx.
  - change (concat NL (x :: y :: ls)) with (x ++ String nl (concat NL (y :: ls))).
    rewrite (split_on_app nl x _ Hx). rewrite IH; [reflexivity | discriminate | exact Hls].
Qed.

Lemma lacks_app (c : ascii) (a b : string) :
  lacks c (a ++ b) = lacks c a && lacks c b.
Proof.
  induction a as [|x a IH]; [reflexivity|].
  cbn [String.append lacks str_forall]. fold (lacks c (a ++ b)). fold (lacks c a).
  rewrite IH, andb_assoc. reflexivity.
Qed.

Lemma str_in_needs_head (c : ascii) (w' x : string) :
  lacks c x = true -> str_in (String c w') x = false.
Proof.
  induction x as [|a x IH]; intros H; [reflexivity|].
  cbn [lacks str_forall] in H. apply andb_prop in H. destruct H as [Ha Hx].
  rewrite str_in_unfold, prefix_cons, (IH Hx).
  apply negb_true_iff in Ha. rewrite Ascii.eqb_sym, Ha. reflexivity.
Qed.

Lemma split_once_app (sep : ascii) (k rest : string) :
  lacks sep k = true -> split_once sep (k ++ String sep rest) = (k, rest).
Proof.
  induction k as [|c k IH]; intros H.
  - cbn [String.append split_once]. rewrite Ascii.eqb_refl. reflexivity.
  - cbn [lacks str_forall] in H. apply andb_prop in H. destruct H as [Hc Hk].
    apply negb_true_iff in Hc. cbn [String.append split_once].
    rewrite Hc, (IH Hk). reflexivity.
Qed.

Lemma plain_key_parts (k : string) :
  plain_key k = true ->
  strip k = k /\ lacks ":" k = true /\ lacks nl k = true /\ prefix "---" k = false.
Proof.
  unfold plain_key. intros H.
  apply andb_prop in H. destruct H as [H H4].
  apply andb_prop in H. destruct H as [H H3].
  apply andb_prop in H. destruct H as [H1 H2].
  apply String.eqb_eq in H1. apply negb_true_iff in H4. auto.
Qed.

Lemma plain_value_parts (v : string) :
  plain_value v = true ->
  strip v = v /\ lacks nl v = true /\ strip_chars quotes v = v.
Proof.
  unfold plain_value. intros H.
  apply andb_prop in H. destruct H as [H H3].
  apply andb_prop in H. destruct H as [H1 H2].
  apply String.eqb_eq in H1. apply String.eqb_eq in H3. auto.
Qed.

Lemma render_line_shape (k v : string) :
  render_line (k, v) = k ++ String ":" (String " " v).
Proof. reflexivity. Qed.

Lemma frontmatter_line_render (fm : dict) (k v : string) :
  plain_key k = true -> plain_value v = true ->
  frontmatter_line fm (render_line (k, v)) = dict_set fm k v.
Proof.
  intros Hk Hv.
  destruct (plain_key_parts k Hk) as (Hk1 & Hk2 & _ & _).
  destruct (plain_value_parts v Hv) as (Hv1 & _ & Hv3).
  unfold frontmatter_line. rewrite render_line_shape.
  assert (str_in ":" (k ++ String ":" (String " " v)) = true) as ->.
  { apply str_in_app. apply str_in_prefix. reflexivity. }
  rewrite (split_once_app ":" k _ Hk2), Hk1.
  change (String " " v) with (" " ++ v).
  rewrite (strip_app_space " " v eq_refl), Hv1, Hv3. reflexivity.
Qed.

Lemma dict_set_fresh (d : dict) (k v : string) :
  ~ In k (map fst d) -> dict_set d k v = (d ++ [(k, v)])%list.
Proof.
  induction d as [|[k' v'] d IH]; intros H; [reflexivity|].
  cbn [dict_set]. destruct (String.eqb_spec k' k) as [E|N].
  - exfalso. apply H. left. exact E.
  - cbn [List.app]. rewrite IH; [reflexivity|].
    intros Hin. apply H. right. exact Hin.
Qed.

Lemma fold_rendered_lines (d : dict) :
  forall acc,
    forallb plain_entry d = true ->
    NoDup (map fst (acc ++ d)%list) ->
    fold_left frontmatter_line (map render_line d) acc = (acc ++ d)%list.
Proof.
  induction d as [|[k v] d IH]; intros acc Hd Hnd.
  - cbn [map fold_left]. rewrite app_nil_r. reflexivity.
  - cbn [forallb] in Hd. apply andb_prop in Hd. destruct Hd as [Hkv Hd].
    unfold plain_entry in Hkv. cbn [fst snd] in Hkv.
    apply andb_prop in Hkv. destruct Hkv as [Hk Hv].
    cbn [map fold_left]. rewrite (frontmatter_line_render acc k v Hk Hv).
    assert (Hfresh : ~ In k (map fst acc)).
    { rewrite map_app in Hnd. cbn [map fst] in Hnd.
      apply NoDup_remove_2 in Hnd. intros Hin. apply Hnd.
      apply in_or_app. left. exact Hin. }
    rewrite (dict_set_fresh acc k v Hfresh).
    rewrite IH; [|exact Hd|].
    + rewrite <- app_assoc. reflexivity.
    + rewrite <- app_assoc. exact Hnd.
Qed.

Lemma frontmatter_close (ws2 rest : string) (p : option ascii) (g : caps) :
  all_space ws2 = true ->
  exists t,
    star dotall_flags CSpace p (ws2 ++ NL ++ rest) g
         (fun p' s' g' => exec dotall_flags (One (CChar nl)) p' s' g' done)
    = Some (t, g).
Proof.
  intros Hws.
  destruct (star _ _ _ _ _ _) as [res|] eqn:E.
  - apply star_inv in E. destruct E as (a & t' & _ & _ & Hk).
    destruct t' as [|c t'']; [discriminate Hk|].
    cbn [exec] in Hk. destruct (cls_match dotall_flags (CChar nl) c); [|discriminate Hk].
    injection Hk as <-. exists t''. reflexivity.
  - exfalso. revert E. apply star_finds.
    + rewrite str_forall_space. exact Hws.
    + cbn [NL String.append exec cls_match chr_match IGNORECASE dotall_flags].
      rewrite Ascii.eqb_refl. discriminate.
Qed.

Lemma frontmatter_block_match (ws1 block ws2 rest : string) :
  all_space ws1 = true -> all_space ws2 = true ->
  starts_with_text block = true ->
  occurs_first (String nl "---") block = true ->
  exists m,
    re_match frontmatter_re
             ("---" ++ ws1 ++ NL ++ block ++ NL ++ "---" ++ ws2 ++ NL ++ rest)
             dotall_flags = Some m /\
    group 1 m = block.
Proof.
  intros H1 H2 Hb Hocc.
  destruct block as [|c b']; [discriminate Hb|].
  cbn [starts_with_text] in Hb. apply negb_true_iff in Hb.
  set (block := String c b') in *.
  set (tail := ws2 ++ NL ++ rest) in *.
  destruct (frontmatter_close ws2 rest (Some "-"%char) [(1, block)] H2) as (t & Ht).
  fold tail in Ht.
  assert (exec dotall_flags frontmatter_re None
               ("---" ++ ws1 ++ NL ++ block ++ NL ++ "---" ++ tail) [] done
          = Some (t, [(1, block)])) as Hexec.
  { unfold frontmatter_re. cbn [seqs].
    rewrite exec_seq, exec_bol_start.
    rewrite exec_seq, (exec_lit_app dotall_flags "---" eq_refl).
    rewrite exec_seq, exec_star.
    change (ws1 ++ NL ++ block ++ NL ++ "---" ++ tail)
      with (ws1 ++ String nl (String c (b' ++ NL ++ "---" ++ tail))).
    apply star_backtrack_once.
    - reflexivity.
    - cbn [cls_match]. exact Hb.
    - rewrite exec_seq. cbn [exec cls_match chr_match IGNORECASE dotall_flags].
      rewrite (nonspace_not_newline c Hb). reflexivity.
    - rewrite str_forall_space. exact H1.
    - rewrite exec_seq.
      change (exec dotall_flags (One (CChar nl)) ?p (String nl ?x) ?g ?k)
        with (k (Some nl) x g).
      cbv beta. rewrite exec_seq.
      change (String c (b' ++ NL ++ "---" ++ tail))
        with (block ++ String nl "---" ++ tail).
      change (exec dotall_flags (Grp 1 (StarLazy CAny)) ?p ?s ?g ?k)
        with (star_lazy dotall_flags CAny p s g
                (fun p' s' g' => k p' s' ((1, consumed s s') :: g'))).
      rewrite star_lazy_skip.
      + apply star_lazy_here. rewrite consumed_app.
        rewrite exec_seq, (exec_lit_app dotall_flags (String nl "---") eq_refl).
        rewrite exec_seq, exec_star. exact Ht.
      + apply any_matches_all.
      + intros a1 a2 E Hne. cbv beta.
        rewrite exec_seq. apply exec_lit_none; [reflexivity|].
        apply (occurs_first_suffix (String nl "---") block
                 ltac:(discriminate) Hocc a1 a2 tail E Hne). }
  unfold re_match, match_at. rewrite Hexec.
  eexists. split; reflexivity.
Qed.

Lemma stripped_starts (k t : string) :
  strip k = k -> isspace "058" = false -> starts_with_text (k ++ String ":" t) = true.
Proof.
  intros Hk _. destruct (strip_shape k) as [E | (c & r & E & Hc & _)].
  - rewrite Hk in E. subst k. reflexivity.
  - rewrite Hk in E. subst k. cbn [String.append starts_with_text].
    rewrite Hc. reflexivity.
Qed.

Lemma block_head (kv : string * string) (d : dict) :
  exists t,
    concat NL (map render_line (kv :: d)) = fst kv ++ String ":" t.
Proof.
  destruct kv as [k v]. destruct d as [|kv2 d].
  - exists (String " " v). reflexivity.
  - exists (String " " v ++ NL ++ concat NL (map render_line (kv2 :: d))).
    change (concat NL (map render_line ((k, v) :: kv2 :: d)))
      with (render_line (k, v) ++ NL ++ concat NL (map render_line (kv2 :: d))).
    rewrite render_line_shape, append_assoc. reflexivity.
Qed.

Lemma render_line_lacks_nl (kv : string * string) :
  plain_entry kv = true -> lacks nl (render_line kv) = true.
Proof.
  destruct kv as [k v]. unfold plain_entry. cbn [fst snd]. intros H.
  apply andb_prop in H. destruct H as [Hk Hv].
  destruct (plain_key_parts k Hk) as (_ & _ & Hk3 & _).
  destruct (plain_value_parts v Hv) as (_ & Hv2 & _).
  rewrite render_line_shape, lacks_app, Hk3.
  cbn [lacks str_forall andb]. exact Hv2.
Qed.

Lemma block_no_dashes (d : dict) (t : string) :
  forallb plain_entry d = true ->
  str_in (String nl "---") (String nl t) = false ->
  str_in (String nl "---") (concat NL (map render_line d) ++ String nl t) = false.
Proof.
  intros Hd Ht. induction d as [|kv d IH].
  - exact Ht.
  - cbn [forallb] in Hd. apply andb_prop in Hd. destruct Hd as [Hkv Hd].
    specialize (IH Hd).
    pose proof (render_line_lacks_nl kv Hkv) as Hl.
    destruct d as [|kv2 d].
    + cbn [map concat].
      rewrite (str_in_app_sep nl "---" nl t eq_refl), Ht.
      rewrite (str_in_needs_head nl "---" _ Hl). reflexivity.
    + change (concat NL (map render_line (kv :: kv2 :: d)))
        with (render_line kv ++ NL ++ concat NL (map render_line (kv2 :: d))).
      rewrite !append_assoc.
      change (NL ++ concat NL (map render_line (kv2 :: d)) ++ String nl t)
        with (String nl (concat NL (map render_line (kv2 :: d)) ++ String nl t)).
      rewrite (str_in_app_sep nl "---" nl _ eq_refl).
      rewrite (str_in_needs_head nl "---" _ Hl). cbn [orb].
      rewrite str_in_unfold, IH, orb_false_r, prefix_cons.
      cbn [forallb] in Hd. apply andb_prop in Hd. destruct Hd as [Hkv2 _].
      unfold plain_entry in Hkv2. apply andb_prop in Hkv2. destruct Hkv2 as [Hk2 _].
      destruct (plain_key_parts _ Hk2) as (_ & _ & _ & Hk24).
      destruct (block_head kv2 d) as (t2 & ->).
      rewrite append_assoc.
      destruct (prefix "---" (fst kv2 ++ String ":" t2 ++ String nl t)) eqn:E.
      * apply (prefix_before_sep ":" _ "---" (fst kv2) eq_refl) in E. congruence.
      * apply andb_false_r.
Qed.

(** X17: [parse_frontmatter] reads back a front matter block as it is
    written: for entries with distinct keys, keys and values without white
    space at their ends and without line ends, keys without a colon and not
    starting with three dashes, and values without a quote at either end,
    the block of lines [key: value] between two lines of three dashes parses
    to these entries, in their order, whatever follows the block. *)
Theorem parse_rendered_frontmatter (d : dict) (rest : string) :
  d <> [] -> NoDup (map fst d) -> forallb plain_entry d = true ->
  parse_frontmatter (render_frontmatter d ++ rest) = d.
Proof.
  intros Hne Hnd Hd.
  assert (Hlines : Forall (fun x => lacks nl x = true) (map render_line d)).
  { apply Forall_forall. intros x Hx. apply in_map_iff in Hx.
    destruct Hx as (kv & <- & Hin). apply render_line_lacks_nl.
    rewrite forallb_forall in Hd. apply Hd. exact Hin. }
  set (block := concat NL (map render_line d)).
  assert (Hstart : starts_with_text block = true).
  { destruct d as [|kv d']; [contradiction Hne; reflexivity|].
    unfold block. destruct (block_head kv d') as (t & ->).
    apply stripped_starts; [|reflexivity].
    cbn [forallb] in Hd. apply andb_prop in Hd. destruct Hd as [Hkv _].
    unfold plain_entry in Hkv. apply andb_prop in Hkv. destruct Hkv as [Hk _].
    apply (plain_key_parts _ Hk). }
  assert (Hocc : occurs_first (String nl "---") block = true).
  { unfold occurs_first. apply negb_true_iff.
    change (str_init (String nl "---")) with (String nl "--").
    apply block_no_dashes; [exact Hd | reflexivity]. }
  destruct (frontmatter_block_match "" block "" rest eq_refl eq_refl Hstart Hocc)
    as (m & Hm & Hg).
  unfold parse_frontmatter.
  replace (render_frontmatter d ++ rest)
    with ("---" ++ "" ++ NL ++ block ++ NL ++ "---" ++ "" ++ NL ++ rest).
  2:{ unfold render_frontmatter. fold block. str_assoc. reflexivity. }
  rewrite Hm, Hg. unfold block.
  rewrite split_on_concat.
  - apply (fold_rendered_lines d []). exact Hd. exact Hnd.
  - destruct d; [contradiction Hne; reflexivity | discriminate].
  - exact Hlines.
Qed.

Lemma parse_rendered_frontmatter_witness :
  parse_frontmatter
    ("---" ++ NL ++ "id: ex-1" ++ NL ++ "source_story: story:1" ++ NL
     ++ "tags: retry, http" ++ NL ++ "---" ++ NL ++ "# Title" ++ NL)
  = [("id", "ex-1"); ("source_story", "story:1"); ("tags", "retry, http")].
Proof.
  apply (parse_rendered_frontmatter
           [("id", "ex-1"); ("source_story", "story:1"); ("tags", "retry, http")]
           ("# Title" ++ NL)).
  - discriminate.
  - repeat constructor; cbn [map fst In]; intuition discriminate.
  - reflexivity.
Defined.

(** ** The loaders and the whole run *)

Lemma for_each_Forall {A B : Type} (P : B -> Prop) (body : A -> res (list B)) :
  forall xs r,
    for_each xs body = Ret r ->
    (forall x ys, In x xs -> body x = Ret ys -> Forall P ys) ->
    Forall P r.
Proof.
  induction xs as [|x xs IH]; intros r H Hbody.
  - injection H as <-. constructor.
  - cbn [for_each] in H. destruct (body x) as [ys|e] eqn:Ex; [|discriminate H].
    cbn [bind] in H.
    destruct (for_each xs body) as [zs|e] eqn:Exs; [|discriminate H].
    cbn [bind] in H. injection H as <-.
    apply Forall_app. split.
    + apply (Hbody x ys); [left; reflexivity | exact Ex].
    + apply (IH zs eq_refl). intros x' ys' Hin. apply Hbody. right. exact Hin.
Qed.

Lemma for_each_filter {A B : Type} (keep : B -> bool)
      (body body' : A -> res (list B)) :
  (forall x, body' x = (ys <- body x ;; Ret (filter keep ys))) ->
  forall xs,
    for_each xs body' = (r <- for_each xs body ;; Ret (filter keep r)).
Proof.
  intros H. induction xs as [|x xs IH]; [reflexivity|].
  cbn [for_each]. rewrite H, IH.
  destruct (body x) as [ys|e]; [|reflexivity]. cbn [bind].
  destruct (for_each xs body) as [zs|e]; [|reflexivity]. cbn [bind].
  rewrite filter_app. reflexivity.
Qed.

Lemma dict_get_present (d : dict) (k dflt : string) :
  dict_get d k "" <> "" -> dict_get d k dflt = dict_get d k "".
Proof.
  induction d as [|[k' v'] d IH]; cbn [dict_get]; intros H.
  - contradiction H. reflexivity.
  - destruct (String.eqb k' k); [reflexivity | apply IH; exact H].
Qed.

Lemma load_examples_filtered (f : fs) (examples_dir : string)
      (category : option string) (story_id : string) :
  story_id <> "" ->
  load_examples_from_dir f examples_dir category (Some story_id) =
  (every <- load_examples_from_dir f examples_dir category None ;;
   Ret (filter (has_story_id story_id) every)).
Proof.
  intros Hne. unfold load_examples_from_dir.
  destruct (search_dirs f examples_dir category) as [dirs|e]; [|reflexivity].
  cbn [bind]. apply for_each_filter. intros dir_path.
  destruct (negb (path_exists f dir_path)); [reflexivity|].
  apply for_each_filter. intros file_path.
  destruct (read_text f file_path) as [text|e]; [|reflexivity].
  cbn [bind given]. cbn [andb negb].
  assert (is_empty story_id = false) as ->.
  { destruct story_id; [contradiction Hne; reflexivity | reflexivity]. }
  unfold has_story_id.
  destruct (String.eqb (dict_get (parse_frontmatter text) "id" "") story_id) eqn:E;
    cbn [negb andb bind filter golden.full_content]; rewrite E; reflexivity.
Qed.

Lemma loaded_example_id (f : fs) (examples_dir : string) (category : option string)
      (every : list golden.Example) :
  load_examples_from_dir f examples_dir category None = Ret every ->
  Forall (fun ex =>
            exists name,
              golden.id ex
              = dict_get (parse_frontmatter (golden.full_content ex)) "id" name)
         every.
Proof.
  unfold load_examples_from_dir.
  destruct (search_dirs f examples_dir category) as [dirs|e]; [|discriminate].
  cbn [bind]. intros H. apply (for_each_Forall _ _ _ _ H).
  intros dir_path ys _. destruct (negb (path_exists f dir_path)).
  { intros [= <-]. constructor. }
  intros H'. apply (for_each_Forall _ _ _ _ H').
  intros file_path zs _.
  destruct (read_text f file_path) as [text|e]; [|discriminate].
  cbn [bind given andb]. intros [= <-]. constructor; [|constructor].
  eexists. reflexivity.
Qed.

(** X18: with a story id, [load_examples_from_dir] returns what it returns
    without one, less the examples whose front matter does not give that
    id, and raises when the unfiltered call raises.  So every example it
    returns has the story id as its id; an example whose id would come from
    the file name is never among them. *)
Theorem story_id_filter (f : fs) (examples_dir : string)
        (category : option string) (story_id : string) :
  story_id <> "" ->
  load_examples_from_dir f examples_dir category (Some story_id) =
  (every <- load_examples_from_dir f examples_dir category None ;;
   Ret (filter (has_story_id story_id) every)) /\
  (forall examples,
      load_examples_from_dir f examples_dir category (Some story_id) = Ret examples ->
      Forall (fun ex => golden.id ex = story_id) examples).
Proof.
  intros Hne. split; [apply load_examples_filtered; exact Hne|].
  intros examples. rewrite (load_examples_filtered _ _ _ _ Hne).
  destruct (load_examples_from_dir f examples_dir category None) as [every|e] eqn:E;
    [|discriminate].
  cbn [bind]. intros [= <-].
  pose proof (loaded_example_id _ _ _ _ E) as Hid.
  apply Forall_forall. intros ex Hin. apply filter_In in Hin.
  destruct Hin as [Hin Hkeep]. rewrite Forall_forall in Hid.
  destruct (Hid ex Hin) as (name & ->).
  unfold has_story_id in Hkeep. apply String.eqb_eq in Hkeep.
  rewrite dict_get_present; [exact Hkeep|]. rewrite Hkeep. exact Hne.
Qed.

Lemma story_id_filter_witness :
  exists examples,
    load_examples_from_dir sample_fs "/repo/golden-examples" (Some "backend")
                           (Some "login") = Ret examples /\
    List.length examples = 1 /\
    Forall (fun ex => golden.id ex = "login") examples.
Proof.
  eexists. split; [vm_compute; reflexivity|]. split; [reflexivity|].
  apply (proj2 (story_id_filter sample_fs "/repo/golden-examples" (Some "backend")
                                "login" ltac:(discriminate))).
  vm_compute. reflexivity.
Defined.

(** X19: every pair [load_story_example_pairs] returns joins a story file
    of one of the four story categories with the first [*.example.md] file
    listed in the directory of one of the four example categories, each
    with the text of its file: which example a story gets does not depend
    on the story. *)
Theorem pairs_take_first_example (f : fs) (stories_dir examples_dir : string)
        (pairs : list pair.t) :
  load_story_example_pairs f stories_dir examples_dir = Ret pairs ->
  Forall (fun p =>
            In (pair.story_category p) story_categories /\
            In (pair.story_path p)
               (glob_suffix f (path_join stories_dir (pair.story_category p))
                            ".story.md") /\
            read_text f (pair.story_path p) = Ret (pair.story_content p) /\
            In (pair.example_category p) example_categories /\
            (exists others,
                glob_suffix f (path_join examples_dir (pair.example_category p))
                            ".example.md"
                = pair.example_path p :: others) /\
            read_text f (pair.example_path p) = Ret (pair.example_content p))
         pairs.
Proof.
  unfold load_story_example_pairs. intros H.
  apply (for_each_Forall _ _ _ _ H). clear H pairs.
  intros story_cat ys Hcat.
  destruct (negb (path_exists f (path_join stories_dir story_cat))).
  { intros [= <-]. constructor. }
  intros H. apply (for_each_Forall _ _ _ _ H). clear H ys.
  intros story_path ys Hstory.
  destruct (read_text f story_path) as [story_content|e] eqn:Hread; [|discriminate].
  cbn [bind]. intros H. apply (for_each_Forall _ _ _ _ H). clear H ys.
  intros ex_cat ys Hex.
  destruct (negb (path_exists f (path_join examples_dir ex_cat))).
  { intros [= <-]. constructor. }
  destruct (glob_suffix f (path_join examples_dir ex_cat) ".example.md")
    as [|example_path others] eqn:Hglob.
  { intros [= <-]. constructor. }
  destruct (read_text f example_path) as [example_content|e] eqn:Hread'; [|discriminate].
  cbn [bind]. intros [= <-]. constructor; [|constructor].
  cbn [pair.story_category pair.story_path pair.story_content
       pair.example_category pair.example_path pair.example_content].
  repeat split; try assumption.
  rewrite Hglob. exists others. reflexivity.
Qed.

Lemma pairs_take_first_example_witness :
  exists pairs,
    load_story_example_pairs sample_fs "/repo/stories" "/repo/golden-examples"
    = Ret pairs /\
    map pair.story_id pairs = ["login"; "logout"] /\
    Forall (fun p =>
              exists others,
                glob_suffix sample_fs
                            (path_join "/repo/golden-examples" (pair.example_category p))
                            ".example.md"
                = pair.example_path p :: others)
           pairs.
Proof.
  eexists. split; [vm_compute; reflexivity|]. split; [reflexivity|].
  eapply Forall_impl;
    [|apply (pairs_take_first_example sample_fs "/repo/stories" "/repo/golden-examples");
      vm_compute; reflexivity].
  intros p (_ & _ & _ & _ & H & _). exact H.
Defined.

Lemma load_stories_none (f : fs) (stories_dir cat : string) :
  glob_suffix f (path_join stories_dir cat) ".story.md" = [] ->
  cat <> "" ->
  load_stories f stories_dir (Some cat) = Ret [].
Proof.
  intros Hglob Hne. unfold load_stories, search_dirs. cbn [given].
  assert (is_empty cat = false) as ->.
  { destruct cat; [contradiction Hne; reflexivity | reflexivity]. }
  cbn [negb bind for_each].
  destruct (negb (path_exists f (path_join stories_dir cat))); [reflexivity|].
  rewrite Hglob. reflexivity.
Qed.

Lemma io_bind_lift_ret {A B : Type} (a : A) (k : A -> io B) :
  io_bind (io_lift (Ret a)) k = k a.
Proof. unfold io_bind, io_lift. destruct (k a) as [log r]. reflexivity. Qed.

Lemma io_bind_lift_raise {A B : Type} (e : exn) (k : A -> io B) :
  io_bind (io_lift (Raise e)) k = ([], Raise e).
Proof. reflexivity. Qed.


(** X20: [run_optimization] stops before the optimizer when its inputs
    are missing.  When the skill check of the dry run would end with status
    1, the run raises [FileNotFoundError] with [Skill not found] and has
    written nothing.  When the skill loads and the category has no story
    file (no directory, or no [*.story.md] in it), the run returns [None]
    and has written nothing, whatever the golden examples are. *)
Theorem run_stops_without_inputs
        (unified_diff : string -> string -> list string)
        (compile : Adapter -> list Example -> res Adapter) (f : fs)
        (skill_name cat repo_root output_dir gemini_bin ts : string)
        (max_rollouts : nat) (copro_available : bool) :
  (dry_run_skill_check f (skill_dir_of repo_root skill_name) = Some 1 ->
   run_optimization_on unified_diff compile f skill_name cat repo_root
                       max_rollouts output_dir gemini_bin ts copro_available
   = ([], Raise (Exception "FileNotFoundError"
                           ("Skill not found: " ++ skill_dir_of repo_root skill_name)))) /\
  (forall loaded,
      load_baseline_skill f (skill_dir_of repo_root skill_name) = Ret loaded ->
      cat <> "" ->
      glob_suffix f (path_join (path_join repo_root "stories") cat) ".story.md" = [] ->
      run_optimization_on unified_diff compile f skill_name cat repo_root
                          max_rollouts output_dir gemini_bin ts copro_available
      = ([], Ret None)).
Proof.
  split.
  - intros Hdry.
    assert (Hload : load_baseline_skill f (skill_dir_of repo_root skill_name)
                    = Raise (Exception "FileNotFoundError"
                               ("Skill not found: " ++ skill_dir_of repo_root skill_name))).
    { apply load_not_found_iff. unfold dry_run_skill_check in Hdry.
      rewrite <- !path_exists_none.
      destruct (path_exists f (path_join (skill_dir_of repo_root skill_name) "adapter.md"));
        [discriminate Hdry|].
      destruct (path_exists f (path_join (skill_dir_of repo_root skill_name) "SKILL.md"));
        [discriminate Hdry|].
      split; reflexivity. }
    unfold run_optimization_on. fold (skill_dir_of repo_root skill_name).
    rewrite Hload. reflexivity.
  - intros loaded Hload Hne Hglob.
    unfold run_optimization_on. fold (skill_dir_of repo_root skill_name).
    rewrite Hload, io_bind_lift_ret.
    rewrite (load_stories_none f _ cat Hglob Hne). reflexivity.
Qed.


(** ** What the adapters never return *)

Lemma exec_alt_inv (fl : flags) (r1 r2 : regex) (p : option ascii) (s : string)
      (g : caps) (k : cont) (res : string * caps) :
  exec fl (Alt r1 r2) p s g k = Some res ->
  exec fl r1 p s g k = Some res \/ exec fl r2 p s g k = Some res.
Proof.
  cbn [exec]. destruct (exec fl r1 p s g k); [left | right]; assumption.
Qed.

Lemma lit_fails_no_prefix (w s : string) (p : option ascii) (g : caps) :
  exec adapter_flags (lit w) p s g done = None -> prefix w s = false.
Proof.
  intros H. destruct (prefix w s) eqn:E; [|reflexivity].
  destruct (prefix_split _ _ E) as (t & ->).
  rewrite (exec_lit_app adapter_flags w eq_refl) in H. discriminate H.
Qed.

Lemma exec_one_inv (fl : flags) (k : cls) (p : option ascii) (s : string)
      (g : caps) (kont : cont) (res : string * caps) :
  exec fl (One k) p s g kont = Some res ->
  exists c t, s = String c t /\ cls_match fl k c = true /\
              kont (Some c) t g = Some res.
Proof.
  destruct s as [|c t]; [discriminate|]. cbn [exec].
  destruct (cls_match fl k c) eqn:E; [|discriminate].
  intros H. exists c, t. auto.
Qed.

Lemma exec_grp_lazy (fl : flags) (n : nat) (c : cls) (p : option ascii)
      (s : string) (g : caps) (k : cont) :
  exec fl (Grp n (StarLazy c)) p s g k =
  star_lazy fl c p s g (fun p' s' g' => k p' s' ((n, consumed s s') :: g')).
Proof. reflexivity. Qed.

Lemma reasoning_match_inv (s : string) (i : nat) (p : option ascii) (m : rmatch) :
  match_at adapter_flags reasoning_re i p s = Some m ->
  str_in "##" (group 1 m) = false.
Proof.
  unfold match_at. destruct (exec _ _ _ _ _ _) as [[s' g]|] eqn:He; [|discriminate].
  intros [= <-]. rewrite reasoning_re_unfold in He.
  rewrite exec_seq in He.
  apply (exec_lit_inv adapter_flags _ eq_refl) in He. destruct He as (t1 & _ & He).
  rewrite exec_seq in He. apply exec_one_inv in He.
  destruct He as (x & t2 & _ & _ & He).
  rewrite exec_seq, exec_grp_lazy in He.
  apply star_lazy_inv in He. destruct He as (a & t & -> & Hk & Hall).
  rewrite consumed_app in Hk.
  assert (g = [(1, a)]) as ->.
  { unfold section_end_re in Hk. cbn [exec] in Hk.
    destruct (exec adapter_flags (lit "##") _ t _ done) as [[u gu]|] eqn:E1.
    - apply (exec_lit_inv adapter_flags _ eq_refl) in E1. destruct E1 as (? & _ & E1).
      injection E1 as _ <-. injection Hk as _ <-. reflexivity.
    - destruct (at_eos adapter_flags t); [|discriminate Hk].
      injection Hk as _ <-. reflexivity. }
  unfold group. cbn [m_groups cap_lookup Nat.eqb].
  apply (no_prefix_no_occurrence "##" a t); [discriminate|].
  intros a1 a2 E Hne. specialize (Hall a1 a2 E Hne). cbv beta in Hall.
  destruct (prefix "##" (a2 ++ t)) eqn:Ep; [|reflexivity].
  destruct (prefix_split _ _ Ep) as (r & Er). rewrite Er in Hall.
  rewrite section_end_hash in Hall. discriminate Hall.
Qed.

Lemma extract_reasoning_shape (out : string) :
  strip (_extract_reasoning out) = _extract_reasoning out /\
  str_in "##" (_extract_reasoning out) = false.
Proof.
  unfold _extract_reasoning. fold adapter_flags. unfold re_search.
  destruct (search_from adapter_flags reasoning_re 0 None out) as [m|] eqn:Hs.
  - apply search_from_inv in Hs. destruct Hs as (pre & t & _ & Hm).
    apply reasoning_match_inv in Hm. split.
    + apply strip_idem.
    + apply str_in_strip. exact Hm.
  - split; reflexivity.
Qed.

Lemma finditer_match (fl : flags) (r : regex) (m : rmatch) :
  forall s skip i p,
    In m (finditer_from fl r skip i p s) ->
    exists j q t, match_at fl r j q t = Some m.
Proof.
  induction s as [|c s IH]; intros skip i p H; cbn [finditer_from] in H.
  - destruct skip.
    + destruct (match_at fl r i p "") as [m'|] eqn:E; [|contradiction H].
      destruct H as [<- | []]. exists i, p, "". exact E.
    + contradiction H.
  - destruct skip.
    + destruct (match_at fl r i p (String c s)) as [m'|] eqn:E.
      * destruct H as [<- | H].
        -- exists i, p, (String c s). exact E.
        -- apply (IH _ _ _ H).
      * apply (IH _ _ _ H).
    + apply (IH _ _ _ H).
Qed.

Lemma tag_inv (p : option ascii) (s : string) (g : caps) (k : cont)
      (res : string * caps) :
  exec adapter_flags tag_re p s g k = Some res ->
  exists q t, k q t g = Some res.
Proof.
  unfold tag_re, Opt. cbn [alts]. intros H.
  apply exec_alt_inv in H. destruct H as [H | H].
  - repeat (apply exec_alt_inv in H; destruct H as [H | H]);
      apply (exec_lit_inv adapter_flags _ eq_refl) in H;
      destruct H as (t & _ & H); eexists _, t; exact H.
  - exists p, s. exact H.
Qed.

Lemma code_block_match_inv (s : string) (i : nat) (p : option ascii) (m : rmatch) :
  match_at adapter_flags TypeScriptCodeAdapter.code_block_re i p s = Some m ->
  str_in fence (group 1 m) = false.
Proof.
  unfold match_at. destruct (exec _ _ _ _ _ _) as [[s' g]|] eqn:He; [|discriminate].
  intros [= <-]. rewrite code_block_re_unfold in He.
  rewrite exec_seq in He.
  apply (exec_lit_inv adapter_flags _ eq_refl) in He. destruct He as (t1 & _ & He).
  rewrite exec_seq in He. apply tag_inv in He. destruct He as (q & t2 & He).
  unfold block_tail_re in He. rewrite exec_seq in He.
  apply exec_one_inv in He. destruct He as (x & t3 & _ & _ & He).
  rewrite exec_seq, exec_grp_lazy in He.
  apply star_lazy_inv in He. destruct He as (a & t & -> & Hk & Hall).
  rewrite consumed_app in Hk.
  apply (exec_lit_inv adapter_flags _ eq_refl) in Hk. destruct Hk as (t' & _ & Hk).
  injection Hk as _ <-.
  unfold group. cbn [m_groups cap_lookup Nat.eqb].
  apply (no_prefix_no_occurrence fence a t); [discriminate|].
  intros a1 a2 E Hne. specialize (Hall a1 a2 E Hne). cbv beta in Hall.
  apply lit_fails_no_prefix in Hall. exact Hall.
Qed.

Lemma concat_blocks_lack (w : string) (blocks : list string) :
  w <> "" -> lacks nl w = true ->
  Forall (fun b => str_in w b = false) blocks ->
  str_in w (concat (NL ++ NL) blocks) = false.
Proof.
  intros Hne Hw H. induction H as [|b bs Hb Hbs IH].
  - destruct w; [contradiction Hne; reflexivity | reflexivity].
  - destruct bs as [|b2 bs]; [exact Hb|].
    change (concat (NL ++ NL) (b :: b2 :: bs))
      with (b ++ String nl (String nl (concat (NL ++ NL) (b2 :: bs)))).
    rewrite (str_in_lines w _ _ Hne Hw), (str_in_after_nl w _ Hne Hw), Hb, IH.
    reflexivity.
Qed.

Lemma code_blocks_lack_fence (out : string) :
  Forall (fun b => str_in fence b = false) (code_blocks out).
Proof.
  apply Forall_forall. intros b Hb. unfold code_blocks, re_findall in Hb.
  apply in_map_iff in Hb. destruct Hb as (m & <- & Hm).
  apply finditer_match in Hm. destruct Hm as (j & q & t & Hm).
  apply (code_block_match_inv _ _ _ _ Hm).
Qed.

Lemma extract_code_shape (out : string) :
  TypeScriptCodeAdapter._extract_code out = out \/
  str_in fence (TypeScriptCodeAdapter._extract_code out) = false.
Proof.
  rewrite extract_code_blocks.
  pose proof (code_blocks_lack_fence out) as H.
  destruct (code_blocks out) as [|b bs]; [left; reflexivity|].
  right. apply concat_blocks_lack; [discriminate | reflexivity | exact H].
Qed.

(** X22: when the process returns, the reasoning of either adapter's
    prediction has no white space at its ends and holds no [##]: it never
    runs into a later section of the response. *)
Theorem reasoning_stays_in_its_section (k : adapter_kind) (run : process)
        (self : Adapter) (story tech : string) (result : CompletedProcess) :
  run (adapter_argv k self story tech) = Ret result ->
  exists p,
    adapter_forward k run self story tech = Ret p /\
    strip (reasoning p) = reasoning p /\
    str_in "##" (reasoning p) = false.
Proof.
  intros Hrun. destruct k.
  - eexists. split.
    + apply (ts_forward_completed run self story tech result Hrun).
    + apply extract_reasoning_shape.
  - eexists. split.
    + apply (doc_forward_completed run self story tech result Hrun).
    + apply extract_reasoning_shape.
Qed.

Lemma reasoning_stays_in_its_section_witness :
  exists p,
    adapter_forward TestDocumentation
      (prints ("## Reasoning" ++ NL ++ "  Edge cases first.  " ++ NL
               ++ "## Plan" ++ NL ++ "Later."))
      (mkAdapter "gemini" [] "Be brief.") "story" "Jest" = Ret p /\
    reasoning p = "Edge cases first." /\
    str_in "##" (reasoning p) = false.
Proof.
  destruct (reasoning_stays_in_its_section TestDocumentation
              (prints ("## Reasoning" ++ NL ++ "  Edge cases first.  " ++ NL
                       ++ "## Plan" ++ NL ++ "Later."))
              (mkAdapter "gemini" [] "Be brief.") "story" "Jest"
              (mkCompleted ("## Reasoning" ++ NL ++ "  Edge cases first.  " ++ NL
                            ++ "## Plan" ++ NL ++ "Later.") "")
              eq_refl) as (p & Hp & _ & Hin).
  exists p. split; [exact Hp|]. split; [|exact Hin].
  vm_compute in Hp. injection Hp as <-. reflexivity.
Defined.

(** X23: when the process returns, the primary output of the TypeScript
    adapter is the standard output unchanged or holds no fence of three
    backticks: once a fenced block is found, only block bodies are kept.
    An output without a fence is passed through as it is. *)
Theorem extracted_code_has_no_fence (run : process) (self : Adapter)
        (story tech : string) (result : CompletedProcess) :
  run (adapter_argv TypeScriptCode self story tech) = Ret result ->
  exists p,
    TypeScriptCodeAdapter.forward run self story tech = Ret p /\
    (code_output p = stdout result \/ str_in fence (code_output p) = false) /\
    (str_in fence (stdout result) = false -> code_output p = stdout result).
Proof.
  intros Hrun. eexists. split.
  - apply (ts_forward_completed run self story tech result Hrun).
  - cbn [code_output]. split.
    + apply extract_code_shape.
    + intros H. rewrite extract_code_blocks, (code_blocks_no_fence _ H). reflexivity.
Qed.

Lemma extracted_code_has_no_fence_witness :
  exists p,
    TypeScriptCodeAdapter.forward
      (prints ("Here:" ++ NL ++ fence ++ "ts" ++ NL ++ "const a = 1;" ++ NL
               ++ fence ++ NL))
      (mkAdapter "gemini" [] "Be brief.") "story" "Jest" = Ret p /\
    code_output p = "const a = 1;" ++ NL /\
    str_in fence (code_output p) = false.
Proof.
  destruct (extracted_code_has_no_fence
              (prints ("Here:" ++ NL ++ fence ++ "ts" ++ NL ++ "const a = 1;" ++ NL
                       ++ fence ++ NL))
              (mkAdapter "gemini" [] "Be brief.") "story" "Jest"
              (mkCompleted ("Here:" ++ NL ++ fence ++ "ts" ++ NL ++ "const a = 1;"
                            ++ NL ++ fence ++ NL) "")
              eq_refl) as (p & Hp & _ & _).
  exists p. split; [exact Hp|].
  vm_compute in Hp. injection Hp as <-. split; reflexivity.
Defined.

(** ** Letter case and the documentation metric *)





Section CaseBlind.
Variable fl : flags.






End CaseBlind.







